(** * numify: magnitude and grouping formatters

    A shallow embedding of the two formatters of the numify package
    ([numify] and [formatNumber], together with [getFormat] and the
    option-less [numify] of the first release) over a model of the
    ECMAScript values they manipulate: binary64 numbers, strings as
    sequences of characters, and objects with inherited properties. *)

From Stdlib Require Import ZArith QArith Qround List String Ascii Bool Lia.
Import ListNotations.

Local Open Scope string_scope.
Local Open Scope list_scope.
Local Open Scope Z_scope.

(** ** Strings *)

(** An ECMAScript string is a sequence of code units; every string this
    program builds is ASCII. *)
Definition jsstring := list ascii.

Definition str (s : string) : jsstring := list_ascii_of_string s.
Coercion str : string >-> jsstring.

Definition is_digit (c : ascii) : bool :=
  let n := nat_of_ascii c in (48 <=? n)%nat && (n <=? 57)%nat.

Definition digit_char (d : Z) : ascii := ascii_of_nat (48 + Z.to_nat d).

Definition digit_val (c : ascii) : Z := Z.of_nat (nat_of_ascii c) - 48.

(** Decimal digits of a non-negative integer, most significant first. *)
Fixpoint digits_fuel (fuel : nat) (n : Z) (acc : jsstring) : jsstring :=
  match fuel with
  | O => acc
  | S f =>
      let acc' := digit_char (n mod 10) :: acc in
      if n <? 10 then acc' else digits_fuel f (n / 10) acc'
  end.

Definition digits_of (n : Z) : jsstring :=
  digits_fuel (S (Z.to_nat (Z.log2 n))) n [].

(** Value of a run of decimal digits. *)
Definition digits_val (l : jsstring) : Z :=
  fold_left (fun a c => 10 * a + digit_val c) l 0.

Fixpoint span_digits (l : jsstring) : jsstring * jsstring :=
  match l with
  | c :: r =>
      if is_digit c then let (d, t) := span_digits r in (c :: d, t)
      else ([], l)
  | [] => ([], [])
  end.

Definition jsstring_eqb (a b : jsstring) : bool :=
  if list_eq_dec ascii_dec a b then true else false.

(** ** Numbers: IEEE 754 binary64 *)

(** [Fin s m e] is the finite non-zero value [(-1)^s * m * 2^e]. *)
Inductive number :=
| NaN
| Inf (neg : bool)
| Zero (neg : bool)
| Fin (neg : bool) (m : positive) (e : Z).

Definition prec := 53.
Definition emin := -1074.
Definition emax := 971.

(** The representation the format admits: a 53-bit significand, or a
    shorter one at the smallest exponent. *)
Definition canonical (x : number) : bool :=
  match x with
  | Fin _ m e =>
      ((Z.log2 (Zpos m) =? prec - 1) && (emin <=? e) && (e <=? emax))
      || ((Z.log2 (Zpos m) <? prec - 1) && (e =? emin))
  | _ => true
  end.

(** The exact value of a finite number. *)
Definition value (x : number) : Q :=
  match x with
  | Fin s m e =>
      let v := if 0 <=? e then inject_Z (Zpos m * 2 ^ e)
               else Qmake (Zpos m) (Z.to_pos (2 ^ (- e))) in
      if s then Qopp v else v
  | _ => 0%Q
  end.

(** [floor (log2 (p / q))] for positive [p] and [q]. *)
Definition log2_ratio (p q : Z) : Z :=
  let d := Z.log2 p - Z.log2 q in
  let below := if 0 <=? d then p <? q * 2 ^ d else p * 2 ^ (- d) <? q in
  if below then d - 1 else d.

(** Round the positive rational [p / q] to the nearest binary64 value,
    ties to the even significand. *)
Definition round64 (neg : bool) (p q : Z) : number :=
  let e := Z.max emin (log2_ratio p q - (prec - 1)) in
  let num := if 0 <=? e then p else p * 2 ^ (- e) in
  let den := if 0 <=? e then q * 2 ^ e else q in
  let m0 := num / den in
  let r := num mod den in
  let up := (den <? 2 * r) || ((den =? 2 * r) && Z.odd m0) in
  let m := if up then m0 + 1 else m0 in
  let '(m, e) := if m =? 2 ^ prec then (2 ^ (prec - 1), e + 1) else (m, e) in
  if m =? 0 then Zero neg
  else if emax <? e then Inf neg
  else Fin neg (Z.to_pos m) e.

Definition of_Z (n : Z) : number :=
  match n with
  | Z0 => Zero false
  | Zpos p => round64 false (Zpos p) 1
  | Zneg p => round64 true (Zpos p) 1
  end.

(** Magnitude of a finite non-zero number as a ratio of integers. *)
Definition ratio_of (m : positive) (e : Z) : Z * Z :=
  if 0 <=? e then (Zpos m * 2 ^ e, 1) else (Zpos m, 2 ^ (- e)).

(** [x / y]. *)
Definition fdiv (x y : number) : number :=
  match x, y with
  | NaN, _ | _, NaN => NaN
  | Inf _, Inf _ => NaN
  | Inf s, Zero t | Inf s, Fin t _ _ => Inf (xorb s t)
  | Zero s, Inf t | Fin s _ _, Inf t => Zero (xorb s t)
  | Zero _, Zero _ => NaN
  | Zero s, Fin t _ _ => Zero (xorb s t)
  | Fin s _ _, Zero t => Inf (xorb s t)
  | Fin s m e, Fin t m' e' =>
      let (p, q) := ratio_of m e in
      let (p', q') := ratio_of m' e' in
      round64 (xorb s t) (p * q') (q * p')
  end.

(** Three-way comparison; [None] when an operand is NaN. *)
Definition fcompare (x y : number) : option comparison :=
  match x, y with
  | NaN, _ | _, NaN => None
  | Inf s, Inf t => Some (if s then (if t then Eq else Lt)
                           else (if t then Gt else Eq))
  | Inf s, _ => Some (if s then Lt else Gt)
  | _, Inf t => Some (if t then Gt else Lt)
  | _, _ => Some (value x ?= value y)%Q
  end.

(** [x < y]. *)
Definition flt (x y : number) : bool :=
  match fcompare x y with Some Lt => true | _ => false end.

(** [x >= y]. *)
Definition fge (x y : number) : bool :=
  match fcompare x y with Some Gt | Some Eq => true | _ => false end.

(** ** Number::toString *)

(** [10^n <= p / q]. *)
Definition pow10_le (n p q : Z) : bool :=
  if 0 <=? n then q * 10 ^ n <=? p else q <=? p * 10 ^ (- n).

Fixpoint exponent_scan (fuel : nat) (n p q : Z) : Z :=
  match fuel with
  | O => n
  | S f => if pow10_le n p q then exponent_scan f (n + 1) p q else n
  end.

(** The [n] with [10^(n-1) <= p / q < 10^n]. *)
Definition decimal_exponent (p q : Z) : Z :=
  exponent_scan 8 ((Z.log2 p - Z.log2 q) * 1233 / 4096 - 2) p q.

(** [round64 (s * 10^sc)] for a positive integer [s]. *)
Definition round_decimal (neg : bool) (s sc : Z) : number :=
  if 0 <=? sc then round64 neg (s * 10 ^ sc) 1 else round64 neg s (10 ^ (- sc)).

(** The [k]-digit decimals next to [m * 2^e] that read back as it,
    nearest first: pairs [(s, n)] standing for [s * 10^(n-k)]. *)
Definition candidates (m : positive) (e k : Z) : list (Z * Z) :=
  let (p, q) := ratio_of m e in
  let n := decimal_exponent p q in
  let sc := n - k in
  let s0 := if 0 <=? sc then p / (q * 10 ^ sc) else p * 10 ^ (- sc) / q in
  let lo := (s0, n) in
  let hi := if s0 + 1 =? 10 ^ k then (10 ^ (k - 1), n + 1) else (s0 + 1, n) in
  (* which of the two neighbours is nearer; the even one on a tie *)
  let c := if 0 <=? sc then (2 * p ?= (2 * s0 + 1) * 10 ^ sc * q)
           else (2 * p * 10 ^ (- sc) ?= (2 * s0 + 1) * q) in
  let ordered := match c with
                 | Lt => [lo; hi]
                 | Gt => [hi; lo]
                 | Eq => if Z.even s0 then [lo; hi] else [hi; lo]
                 end in
  filter (fun c : Z * Z =>
            let (s, n) := c in
            (10 ^ (k - 1) <=? s) && (s <? 10 ^ k) &&
            match round_decimal false s (n - k) with
            | Fin _ m' e' => Pos.eqb m m' && (e =? e')
            | _ => false
            end) ordered.

(** The exact decimal expansion of [m * 2^e]. *)
Definition exact_digits (m : positive) (e : Z) : Z * Z :=
  let N := if 0 <=? e then Zpos m * 2 ^ e else Zpos m * 5 ^ (- e) in
  let len := Z.of_nat (List.length (digits_of N)) in
  (N, if 0 <=? e then len else len + e).

(** The shortest decimal [(s, n)], of [k] digits, with
    [round64 (s * 10^(n - k)) = m * 2^e]; seventeen digits always
    suffice for binary64. *)
Fixpoint shortest_from (fuel : nat) (k : Z) (m : positive) (e : Z) : Z * Z :=
  match fuel with
  | O => exact_digits m e
  | S f =>
      match candidates m e k with
      | c :: _ => c
      | [] => shortest_from f (k + 1) m e
      end
  end.

Definition shortest_digits (m : positive) (e : Z) : Z * Z :=
  shortest_from 17 1 m e.

Definition zeros (n : Z) : jsstring := repeat "0"%char (Z.to_nat n).

(** The notation chosen by Number::toString for the digits [ds] of [s]
    and the exponent [n]. *)
Definition format_digits (ds : jsstring) (n : Z) : jsstring :=
  let k := Z.of_nat (List.length ds) in
  if (k <=? n) && (n <=? 21) then ds ++ zeros (n - k)
  else if (0 <? n) && (n <=? 21) then
    firstn (Z.to_nat n) ds ++ "."%char :: skipn (Z.to_nat n) ds
  else if (-6 <? n) && (n <=? 0) then
    "0"%char :: "."%char :: zeros (- n) ++ ds
  else
    let ex := (if n - 1 <? 0 then "-"%char else "+"%char)
              :: digits_of (Z.abs (n - 1)) in
    match ds with
    | [d] => d :: "e"%char :: ex
    | d :: r => d :: "."%char :: r ++ "e"%char :: ex
    | [] => []
    end.

Definition Number_toString (x : number) : jsstring :=
  match x with
  | NaN => "NaN"
  | Zero _ => "0"
  | Inf s => if s then "-Infinity" else "Infinity"
  | Fin s m e =>
      let (d, n) := shortest_digits m e in
      (if s then ["-"%char] else []) ++ format_digits (digits_of d) n
  end.

(** ** StringToNumber *)

(** [Number(s)] on the strings of the StrDecimalLiteral grammar: an
    optional sign, then [Infinity] or digits with an optional fraction
    and exponent; the empty string is [+0], anything else is [NaN].
    White space and the [0x], [0o], [0b] forms are left out: no string
    built by this program holds them. *)
Definition parse_exponent (l : jsstring) : option Z :=
  match l with
  | [] => Some 0
  | c :: r =>
      if (Ascii.eqb c "e" || Ascii.eqb c "E")%bool then
        let (neg, r') :=
          match r with
          | s :: t => if Ascii.eqb s "-" then (true, t)
                      else if Ascii.eqb s "+" then (false, t)
                      else (false, r)
          | [] => (false, r)
          end in
        let (d, t) := span_digits r' in
        match d, t with
        | _ :: _, [] => Some (if neg then - digits_val d else digits_val d)
        | _, _ => None
        end
      else None
  end.

Definition parse_unsigned (neg : bool) (l : jsstring) : number :=
  if jsstring_eqb l "Infinity" then Inf neg
  else
    let (i, r) := span_digits l in
    let (f, r') :=
      match r with
      | c :: t => if Ascii.eqb c "." then span_digits t else ([], r)
      | [] => ([], r)
      end in
    match i ++ f with
    | [] => NaN
    | ds =>
        match parse_exponent r' with
        | None => NaN
        | Some ex =>
            let s := digits_val ds in
            if s =? 0 then Zero neg
            else round_decimal neg s (ex - Z.of_nat (List.length f))
        end
    end.

Definition StringToNumber (l : jsstring) : number :=
  match l with
  | [] => Zero false
  | c :: r =>
      if Ascii.eqb c "-" then parse_unsigned true r
      else if Ascii.eqb c "+" then parse_unsigned false r
      else parse_unsigned false l
  end.

(** ** Number.prototype.toFixed *)

(** The integer [n] for which [n / 10^f - p / q] is as close to zero as
    possible, the larger one when there are two. *)
Definition nearest_scaled (f p q : Z) : Z := (2 * p * 10 ^ f + q) / (2 * q).

Definition toFixed (x : number) (f : Z) : jsstring :=
  match x with
  | Fin s m e =>
      let (p, q) := ratio_of m e in
      (if s then ["-"%char] else []) ++
      (if 10 ^ 21 * q <=? p then Number_toString (Fin false m e)
       else
         let n := nearest_scaled f p q in
         let ds := if n =? 0 then ["0"%char] else digits_of n in
         if f =? 0 then ds
         else
           let k := Z.of_nat (List.length ds) in
           let ds := if k <=? f then zeros (f + 1 - k) ++ ds else ds in
           let k := Z.of_nat (List.length ds) in
           firstn (Z.to_nat (k - f)) ds ++ "."%char :: skipn (Z.to_nat (k - f)) ds)
  | Zero _ => if f =? 0 then "0" else "0"%char :: "."%char :: zeros f
  | _ => Number_toString x
  end.

(** ** String methods and the three regular expressions *)

(** [undefined] turned into a string, as [replace] and template
    literals do with a replacement or an interpolated value. *)
Definition ToString_opt (v : option jsstring) : jsstring :=
  match v with Some s => s | None => "undefined" end.

(** [s.replace(c, rep)] for a one-character search string: the first
    occurrence only. *)
Fixpoint replace_first (c : ascii) (rep : jsstring) (s : jsstring) : jsstring :=
  match s with
  | [] => []
  | a :: r => if Ascii.eqb a c then rep ++ r else a :: replace_first c rep r
  end.

(** [s.split(c)]. *)
Fixpoint split (c : ascii) (s : jsstring) : list jsstring :=
  match s with
  | [] => [[]]
  | a :: r =>
      if Ascii.eqb a c then [] :: split c r
      else match split c r with
           | p :: ps => (a :: p) :: ps
           | [] => [[a]]
           end
  end.

(** [parts.join(sep)]; an [undefined] separator is a comma. *)
Fixpoint join (sep : jsstring) (parts : list jsstring) : jsstring :=
  match parts with
  | [] => []
  | [p] => p
  | p :: ps => p ++ sep ++ join sep ps
  end.

Definition join_opt (sep : option jsstring) (parts : list jsstring) : jsstring :=
  join (match sep with Some s => s | None => "," end) parts.

(** [[^0-9.]]. *)
Definition is_stripped (c : ascii) : bool :=
  negb (is_digit c || Ascii.eqb c ".").

(** [s.replace(/[^0-9.]/g, "")]. *)
Definition strip_non_numeric (s : jsstring) : jsstring :=
  filter (fun c => negb (is_stripped c)) s.

Definition is_nonzero_digit (c : ascii) : bool :=
  is_digit c && negb (Ascii.eqb c "0").

(** [0+$]: one or more zeros up to the end of the string. *)
Definition zeros_to_end (s : jsstring) : bool :=
  match s with
  | [] => false
  | _ => forallb (fun c => Ascii.eqb c "0") s
  end.

(** [[0-9]*[1-9]0+$] from the head of [s]; the result is the text taken
    by [[0-9]*[1-9]].  The star is greedy: it first keeps the digit at
    hand, and gives it back to [[1-9]] when the rest cannot match. *)
Fixpoint digits_then_zeros (s : jsstring) : option jsstring :=
  match s with
  | [] => None
  | c :: r =>
      if is_digit c then
        match digits_then_zeros r with
        | Some cap => Some (c :: cap)
        | None => if is_nonzero_digit c && zeros_to_end r then Some [c] else None
        end
      else None
  end.

(** [/\.0+$|(\.[0-9]*[1-9])0+$/] at the head of [s]: group 1 of the
    match, empty when the first alternative matched. *)
Definition trailing_zeros_at (s : jsstring) : option jsstring :=
  match s with
  | c :: r =>
      if Ascii.eqb c "." then
        if zeros_to_end r then Some []
        else match digits_then_zeros r with
             | Some cap => Some (c :: cap)
             | None => None
             end
      else None
  | [] => None
  end.

(** [s.replace(/\.0+$|(\.[0-9]*[1-9])0+$/, "$1")]: the leftmost match,
    which runs to the end of the string, gives way to its group 1. *)
Fixpoint strip_trailing_zeros (s : jsstring) : jsstring :=
  match trailing_zeros_at s with
  | Some cap => cap
  | None =>
      match s with
      | [] => []
      | c :: r => c :: strip_trailing_zeros r
      end
  end.

(** [\w]. *)
Definition is_word (c : ascii) : bool :=
  let n := nat_of_ascii c in
  is_digit c || ((65 <=? n)%nat && (n <=? 90)%nat)
  || ((97 <=? n)%nat && (n <=? 122)%nat) || (n =? 95)%nat.

Definition is_word_opt (c : option ascii) : bool :=
  match c with Some c => is_word c | None => false end.

(** [\B] between [prev] and [next]; [None] is an end of the string. *)
Definition non_boundary (prev next : option ascii) : bool :=
  Bool.eqb (is_word_opt prev) (is_word_opt next).

(** [(\d{3})+(?!\d)] as a look-ahead at the head of [s]. *)
Fixpoint groups_of_three (s : jsstring) : bool :=
  match s with
  | a :: b :: c :: r =>
      is_digit a && is_digit b && is_digit c &&
      (groups_of_three r
       || match r with d :: _ => negb (is_digit d) | [] => true end)
  | _ => false
  end.

(** [s.replace(/\B(?=(\d{3})+(?!\d))/g, sep)], [prev] being the
    character before [s]: every position where the empty match
    succeeds receives [sep]. *)
Fixpoint insert_separators (sep : jsstring) (prev : option ascii) (s : jsstring)
  : jsstring :=
  (if non_boundary prev (hd_error s) && groups_of_three s then sep else [])
  ++ match s with
     | [] => []
     | c :: r => c :: insert_separators sep (Some c) r
     end.

(** ** Locale table *)

Inductive SystemType := international | indian.

Record NumberFormat := {
  decimal : jsstring;
  thousand : jsstring;
  system : SystemType
}.

Definition FORMAT_LOCALES : list (jsstring * NumberFormat) :=
  [ (str "en", {| decimal := "."; thousand := ","; system := international |});
    (str "de", {| decimal := ","; thousand := "."; system := international |});
    (str "fr", {| decimal := ","; thousand := " "; system := international |});
    (str "es", {| decimal := ","; thousand := "."; system := international |});
    (str "in", {| decimal := "."; thousand := ","; system := indian |});
    (str "it", {| decimal := ","; thousand := "."; system := international |});
    (str "ch", {| decimal := "."; thousand := "'"; system := international |});
    (str "se", {| decimal := ","; thousand := " "; system := international |}) ].

Definition LONG_UNITS : list (jsstring * jsstring) :=
  [ (str "k", str "thousand");
    (str "M", str "million");
    (str "B", str "billion");
    (str "T", str "trillion");
    (str "E", str "quintillion");
    (str "P", str "quadrillion");
    (str "Cr", str "crore");
    (str "L", str "lakh") ].

(** The properties every object literal inherits from
    [Object.prototype]; each holds a function, or for [__proto__] the
    prototype itself. *)
Definition Object_prototype : list jsstring :=
  [ str "constructor"; str "hasOwnProperty"; str "isPrototypeOf";
    str "propertyIsEnumerable"; str "toLocaleString"; str "toString";
    str "valueOf"; str "__proto__"; str "__defineGetter__";
    str "__defineSetter__"; str "__lookupGetter__"; str "__lookupSetter__" ].

Fixpoint own_property {A} (key : jsstring) (o : list (jsstring * A)) : option A :=
  match o with
  | [] => None
  | (k, v) :: r => if jsstring_eqb k key then Some v else own_property key r
  end.

(** What [getFormat] can return: a record of the table (or one built on
    the spot), or a member of [Object.prototype] found through the
    prototype chain, which has none of the three fields. *)
Inductive FormatValue :=
| Locale (f : NumberFormat)
| Inherited (name : jsstring).

(** [FORMAT_LOCALES[format]]: own properties first, then the prototype;
    [None] is [undefined]. *)
Definition FORMAT_LOCALES_get (key : jsstring) : option FormatValue :=
  match own_property key FORMAT_LOCALES with
  | Some f => Some (Locale f)
  | None =>
      if existsb (jsstring_eqb key) Object_prototype then Some (Inherited key)
      else None
  end.

Definition format_decimal (f : FormatValue) : option jsstring :=
  match f with Locale f => Some (decimal f) | Inherited _ => None end.

Definition format_thousand (f : FormatValue) : option jsstring :=
  match f with Locale f => Some (thousand f) | Inherited _ => None end.

Definition format_system (f : FormatValue) : option SystemType :=
  match f with Locale f => Some (system f) | Inherited _ => None end.

Definition en : FormatValue :=
  Locale {| decimal := "."; thousand := ","; system := international |}.

(** [getFormat]; [None] is an [undefined] argument. *)
Definition getFormat (format : option jsstring) : FormatValue :=
  match format with
  | None | Some [] => en
  | Some format =>
      if jsstring_eqb format "international" then
        Locale {| decimal := "."; thousand := ","; system := international |}
      else if jsstring_eqb format "indian" then
        Locale {| decimal := "."; thousand := ","; system := indian |}
      else
        match FORMAT_LOCALES_get format with
        | Some f => f
        | None => en
        end
  end.

(** ** The formatters *)

Record NumifyOptions := {
  formatType : option jsstring;
  precise : option bool;
  style : option jsstring
}.

Definition no_options : NumifyOptions :=
  {| formatType := None; precise := None; style := None |}.

Definition default {A} (d : A) (v : option A) : A :=
  match v with Some a => a | None => d end.

Definition indian_units : list (number * jsstring) :=
  [ (of_Z (10 ^ 7), str "Cr"); (of_Z (10 ^ 5), str "L"); (of_Z (10 ^ 3), str "K") ].

Definition international_units : list (number * jsstring) :=
  [ (of_Z (10 ^ 18), str "E"); (of_Z (10 ^ 15), str "P");
    (of_Z (10 ^ 12), str "T"); (of_Z (10 ^ 9), str "B");
    (of_Z (10 ^ 6), str "M"); (of_Z (10 ^ 3), str "k") ].

(** [Number(num.toString().replace(/[^0-9.]/g, ""))]. *)
Definition sanitize (num : number) : number :=
  StringToNumber (strip_non_numeric (Number_toString num)).

Definition units_of (format : FormatValue) : list (number * jsstring) :=
  match format_system format with
  | Some indian => indian_units
  | _ => international_units
  end.

Definition suffix_of (style : jsstring) (unit : number * jsstring) : jsstring :=
  if jsstring_eqb style "long"
  then " "%char :: ToString_opt (own_property (snd unit) LONG_UNITS)
  else snd unit.

Definition numify (num : number) (options : NumifyOptions) : jsstring :=
  let formatType := default (str "en") (formatType options) in
  let precise := default false (precise options) in
  let style := default (str "short") (style options) in
  let num := sanitize num in
  let format := getFormat (Some formatType) in
  if flt num (of_Z 1000) then
    if precise
    then replace_first "." (ToString_opt (format_decimal format)) (toFixed num 2)
    else Number_toString num
  else
    let units := units_of format in
    match find (fun u => fge num (fst u)) units with
    | None => Number_toString num
    | Some unit =>
        let value :=
          replace_first "." (ToString_opt (format_decimal format))
            (strip_trailing_zeros (toFixed (fdiv num (fst unit)) 2)) in
        value ++ suffix_of style unit
    end.

Record FormatNumberOptions := { fn_formatType : option jsstring }.

Definition formatNumber (num : number) (options : FormatNumberOptions) : jsstring :=
  let formatType := default (str "en") (fn_formatType options) in
  let format := getFormat (Some formatType) in
  let parts := split "." (Number_toString num) in
  let parts :=
    match parts with
    | p0 :: ps =>
        insert_separators (ToString_opt (format_thousand format)) None p0 :: ps
    | [] => []
    end in
  if (1 <? Z.of_nat (List.length parts))
  then join_opt (format_decimal format) parts
  else hd [] parts.

(** ** The first release: [numify] without options *)

Module Legacy.

Definition si : list (number * jsstring) :=
  [ (of_Z (10 ^ 3), str "k"); (of_Z (10 ^ 6), str "M");
    (of_Z (10 ^ 9), str "B"); (of_Z (10 ^ 12), str "T");
    (of_Z (10 ^ 15), str "P"); (of_Z (10 ^ 18), str "E") ].

(** [for (index = ...; index > 0; index--) if (num >= si[index].v) break;]
    started at [index]; the index the loop is left with. *)
Fixpoint scan (num : number) (index : nat) : nat :=
  match index with
  | O => O
  | S i => if fge num (fst (nth index si (NaN, []))) then index else scan num i
  end.

(** The number itself below one thousand, a string otherwise. *)
Definition numify (num : number) : number + jsstring :=
  let num := sanitize num in
  if flt num (of_Z 1000) then inl num
  else
    let index := scan num (List.length si - 1) in
    let u := nth index si (NaN, []) in
    inr (strip_trailing_zeros (toFixed (fdiv num (fst u)) 2) ++ snd u).

End Legacy.

(** ** Notions the properties below are stated with *)

Definition fabs (x : number) : number :=
  match x with
  | NaN => NaN
  | Inf _ => Inf false
  | Zero _ => Zero false
  | Fin _ m e => Fin false m e
  end.

Definition all_digits (s : jsstring) : Prop := forallb is_digit s = true.

(** Standard grouping of a run of digits: a separator goes before
    every digit that is followed by a positive multiple of three
    digits less one, that is at every third place from the right. *)
Fixpoint group_spec (sep : jsstring) (ds : jsstring) : jsstring :=
  match ds with
  | [] => []
  | c :: r =>
      c :: (if (0 <? Z.of_nat (List.length r)) && (Z.of_nat (List.length r) mod 3 =? 0)
            then sep else [])
        ++ group_spec sep r
  end.

(** Remove every character of the separator [sep]. *)
Definition strip_separators (sep : jsstring) (s : jsstring) : jsstring :=
  filter (fun c => negb (existsb (Ascii.eqb c) sep)) s.

(** The three trimmed renderings of a two-decimal numeral [I.ab]. *)
Definition trim_spec (I : jsstring) (a b : ascii) : jsstring :=
  if Ascii.eqb a "0" && Ascii.eqb b "0" then I
  else if Ascii.eqb b "0" then I ++ ["."%char; a]
  else I ++ ["."%char; a; b].

Definition no_dot (s : jsstring) : Prop :=
  forallb (fun c => negb (Ascii.eqb c ".")) s = true.

(** What Number::toString writes after the sign and the leading run
    of digits [I]: nothing, a fraction (with or without an exponent),
    the exponent of a one-digit significand, or a word. *)
Inductive tail_of (I : jsstring) : jsstring -> Prop :=
| tail_none : tail_of I []
| tail_fraction (F : jsstring) :
    I <> [] -> no_dot F -> tail_of I ("."%char :: F)
| tail_exponent (d sg : ascii) (E : jsstring) :
    I = [d] -> sg = "+"%char \/ sg = "-"%char ->
    all_digits E -> (1 <= List.length E <= 3)%nat ->
    tail_of I ("e"%char :: sg :: E)
| tail_word (w : jsstring) :
    I = [] -> w = str "NaN" \/ w = str "Infinity" -> tail_of I w.

(** [2^L <= p / q], for positive [p] and [q]. *)
Definition pow2_le (L p q : Z) : Prop :=
  if 0 <=? L then q * 2 ^ L <= p else q <= p * 2 ^ (- L).

(** [p / q] is exactly [m * 2^e]. *)
Definition exact_ratio (p q : Z) (m : positive) (e : Z) : Prop :=
  if 0 <=? e then p = Zpos m * 2 ^ e * q else p * 2 ^ (- e) = Zpos m * q.

(** The sign of [x] set to [neg]. *)
Definition with_sign (neg : bool) (x : number) : number :=
  match x with
  | NaN => NaN
  | Inf _ => Inf neg
  | Zero _ => Zero neg
  | Fin _ m e => Fin neg m e
  end.

(** [n] hundredths is [q] rounded to two decimals, half up. *)
Definition half_up_hundredths (q : Q) (n : Z) : Prop :=
  (inject_Z n - (1 # 2) <= 100 * q)%Q /\ (100 * q < inject_Z n + (1 # 2))%Q.

(** The sign of a numeral, and the numeral without it. *)
Definition split_sign (s : jsstring) : jsstring * jsstring :=
  match s with
  | c :: r => if Ascii.eqb c "-" then (["-"%char], r) else ([], s)
  | [] => ([], [])
  end.

(** Thresholds in descending order. *)
Fixpoint descending (l : list (number * jsstring)) : bool :=
  match l with
  | [] => true
  | a :: r => forallb (fun u => fge (fst a) (fst u)) l && descending r
  end.

(** The exact decimal expansion of [m * 2^e] reads back as it. *)
Definition reads_back (m : positive) (e : Z) : Prop :=
  let (s, n) := exact_digits m e in
  round_decimal false s (n - Z.of_nat (List.length (digits_of s))) = Fin false m e.

(** * Properties *)

(** ** Comparisons *)

Lemma flt_fge (x y : number) : flt x y = true -> fge x y = false.
Proof.
  unfold flt, fge. destruct (fcompare x y) as [[]|]; congruence.
Qed.

Lemma fge_flt (x y : number) : fge x y = true -> flt x y = false.
Proof.
  unfold flt, fge. destruct (fcompare x y) as [[]|]; congruence.
Qed.

(** ** Lists *)

Lemma find_split {A} (p : A -> bool) (l : list A) (x : A) :
  find p l = Some x ->
  exists pre post, l = pre ++ x :: post /\ p x = true /\
                   forall u, In u pre -> p u = false.
Proof.
  induction l as [|a l IH]; simpl; [discriminate|].
  destruct (p a) eqn:E.
  - intros [= <-]. exists [], l. repeat split; auto. intros u [].
  - intros H. destruct (IH H) as (pre & post & -> & Hx & Hpre).
    exists (a :: pre), post. repeat split; auto.
    intros u [<-|Hu]; auto.
Qed.

Lemma jsstring_eqb_eq (a b : jsstring) : jsstring_eqb a b = true <-> a = b.
Proof.
  unfold jsstring_eqb. destruct (list_eq_dec ascii_dec a b); split; congruence.
Qed.

Lemma jsstring_eqb_neq (a b : jsstring) : jsstring_eqb a b = false <-> a <> b.
Proof.
  unfold jsstring_eqb. destruct (list_eq_dec ascii_dec a b); split; congruence.
Qed.

Lemma replace_first_same (c : ascii) (s : jsstring) : replace_first c [c] s = s.
Proof.
  induction s as [|a s IH]; simpl; auto.
  destruct (Ascii.eqb a c) eqn:E.
  - apply Ascii.eqb_eq in E. subst. reflexivity.
  - now rewrite IH.
Qed.

(** ** Unit selection *)

Lemma numify_large (num : number) (options : NumifyOptions) unit :
  fge (sanitize num) (of_Z 1000) = true ->
  find (fun u => fge (sanitize num) (fst u))
       (units_of (getFormat (Some (default (str "en") (formatType options)))))
  = Some unit ->
  numify num options =
  replace_first "."
    (ToString_opt (format_decimal
       (getFormat (Some (default (str "en") (formatType options))))))
    (strip_trailing_zeros (toFixed (fdiv (sanitize num) (fst unit)) 2))
  ++ suffix_of (default (str "short") (style options)) unit.
Proof.
  intros H Hf. unfold numify. cbv zeta.
  rewrite (fge_flt _ _ H), Hf. reflexivity.
Qed.

Lemma units_descending (format : FormatValue) : descending (units_of format) = true.
Proof.
  unfold units_of. destruct (format_system format) as [[]|]; vm_compute; reflexivity.
Qed.

Lemma units_reach_thousand (format : FormatValue) :
  exists s, In (of_Z (10 ^ 3), s) (units_of format).
Proof.
  unfold units_of, international_units, indian_units.
  destruct (format_system format) as [[]|]; eexists; cbn [In]; auto 10.
Qed.

Lemma first_is_largest (v : number) (pre post : list (number * jsstring))
      (unit : number * jsstring) :
  descending (pre ++ unit :: post) = true ->
  (forall u, In u pre -> fge v (fst u) = false) ->
  forall u, In u (pre ++ unit :: post) -> fge v (fst u) = true ->
            fge (fst unit) (fst u) = true.
Proof.
  induction pre as [|a pre IH]; cbn [app descending]; intros Hd Hpre u Hin Hv.
  - apply andb_prop in Hd. destruct Hd as [Hd _].
    rewrite forallb_forall in Hd. apply Hd. exact Hin.
  - apply andb_prop in Hd. destruct Hd as [_ Hd].
    destruct Hin as [<-|Hin].
    + rewrite (Hpre a) in Hv by (left; reflexivity). discriminate.
    + apply IH; auto. intros w Hw. apply Hpre. right. exact Hw.
Qed.

Lemma select_unit (v : number) (format : FormatValue) :
  fge v (of_Z 1000) = true ->
  exists pre unit post,
    units_of format = pre ++ unit :: post /\
    (forall u, In u pre -> fge v (fst u) = false) /\
    fge v (fst unit) = true /\
    (forall u, In u (units_of format) -> fge v (fst u) = true ->
               fge (fst unit) (fst u) = true) /\
    find (fun u => fge v (fst u)) (units_of format) = Some unit.
Proof.
  intros H. change (of_Z 1000) with (of_Z (10 ^ 3)) in H.
  destruct (find (fun u => fge v (fst u)) (units_of format)) as [unit|] eqn:Hf.
  - destruct (find_split _ _ _ Hf) as (pre & post & Hl & Hu & Hpre).
    exists pre, unit, post. repeat split; auto.
    pose proof (units_descending format) as Hd. rewrite Hl in *.
    apply first_is_largest; assumption.
  - destruct (units_reach_thousand format) as [s Hs].
    pose proof (find_none _ _ Hf _ Hs) as Hn. cbn [fst] in Hn. congruence.
Qed.

(** C1.  For a sanitized value of at least one thousand, the ladder is
    the Indian one (1e7 Cr, 1e5 L, 1e3 K) when the resolved
    configuration's system is [indian] and the international one (1e18
    E, 1e15 P, 1e12 T, 1e9 B, 1e6 M, 1e3 k) otherwise; the unit used is
    the first of the ladder whose threshold the value reaches, which is
    the largest threshold it reaches; any configuration with the same
    system, whatever its separators, selects the same unit. *)
Theorem numify_unit_selection (num : number) (options : NumifyOptions) :
  fge (sanitize num) (of_Z 1000) = true ->
  let v := sanitize num in
  let format := getFormat (Some (default (str "en") (formatType options))) in
  units_of format =
    match format_system format with
    | Some indian =>
        [ (of_Z (10 ^ 7), str "Cr"); (of_Z (10 ^ 5), str "L");
          (of_Z (10 ^ 3), str "K") ]
    | _ =>
        [ (of_Z (10 ^ 18), str "E"); (of_Z (10 ^ 15), str "P");
          (of_Z (10 ^ 12), str "T"); (of_Z (10 ^ 9), str "B");
          (of_Z (10 ^ 6), str "M"); (of_Z (10 ^ 3), str "k") ]
    end /\
  exists pre unit post,
    units_of format = pre ++ unit :: post /\
    (forall u, In u pre -> fge v (fst u) = false) /\
    fge v (fst unit) = true /\
    (forall u, In u (units_of format) -> fge v (fst u) = true ->
               fge (fst unit) (fst u) = true) /\
    (forall format' : FormatValue,
        format_system format' = format_system format ->
        find (fun u => fge v (fst u)) (units_of format') = Some unit) /\
    numify num options =
      replace_first "." (ToString_opt (format_decimal format))
        (strip_trailing_zeros (toFixed (fdiv v (fst unit)) 2))
      ++ suffix_of (default (str "short") (style options)) unit.
Proof.
  intros H v format. split.
  - unfold units_of. destruct (format_system format) as [[]|]; reflexivity.
  - destruct (@select_unit v format H) as (pre & unit & post & Hl & Hpre & Hu & Hmax & Hf).
    exists pre, unit, post. repeat split; auto.
    + intros format' Hs. unfold units_of in *. rewrite Hs. exact Hf.
    + apply numify_large; assumption.
Qed.

Lemma numify_unit_selection_witness :
  fge (sanitize (of_Z 23878437)) (of_Z 1000) = true /\
  exists unit,
    find (fun u => fge (sanitize (of_Z 23878437)) (fst u))
         (units_of (getFormat (Some (str "in")))) = Some unit /\
    numify (of_Z 23878437)
      {| formatType := Some (str "in"); precise := None; style := None |}
    = str "2.39" ++ snd unit.
Proof.
  assert (H : fge (sanitize (of_Z 23878437)) (of_Z 1000) = true)
    by (vm_compute; reflexivity).
  split; [exact H|].
  destruct (numify_unit_selection (of_Z 23878437)
              {| formatType := Some (str "in"); precise := None; style := None |} H)
    as (_ & pre & unit & post & Hl & Hpre & Hu & Hmax & Hsame & Hn).
  exists unit. split.
  - apply Hsame. reflexivity.
  - rewrite Hn.
    assert (Hf := Hsame _ eq_refl).
    vm_compute in Hf. injection Hf as <-. vm_compute. reflexivity.
Defined.

(** ** The precise flag above one thousand, the suffix, the first release *)

Lemma numify_precise_irrelevant (num : number) (ft st : option jsstring)
      (p p' : option bool) :
  fge (sanitize num) (of_Z 1000) = true ->
  numify num {| formatType := ft; precise := p; style := st |} =
  numify num {| formatType := ft; precise := p'; style := st |}.
Proof.
  intros H. unfold numify. cbv zeta. cbn [formatType precise style].
  rewrite (fge_flt _ _ H). reflexivity.
Qed.

Lemma legacy_scan (v : number) :
  fge v (of_Z 1000) = true ->
  find (fun u => fge v (fst u)) international_units
  = Some (nth (Legacy.scan v (List.length Legacy.si - 1)) Legacy.si (NaN, [])).
Proof.
  intros H. change (of_Z 1000) with (of_Z (10 ^ 3)) in H.
  unfold international_units, Legacy.si.
  cbn [List.length Nat.sub Legacy.scan nth find fst Legacy.si].
  repeat match goal with
         | |- context [if fge ?x ?t then _ else _] => destruct (fge x t) eqn:?
         end; try reflexivity; congruence.
Qed.

(** C10.  When the sanitized value is at least one thousand, the first
    release's [numify] returns the string the current one returns under
    the default options, given or left out: the same sanitized value,
    the same international unit, the same two-decimal rendering and
    trimming. *)
Theorem legacy_numify_agrees (num : number) (options : NumifyOptions) :
  fge (sanitize num) (of_Z 1000) = true ->
  default (str "en") (formatType options) = str "en" ->
  default false (precise options) = false ->
  default (str "short") (style options) = str "short" ->
  exists unit,
    find (fun u => fge (sanitize num) (fst u)) international_units = Some unit /\
    nth (Legacy.scan (sanitize num) (List.length Legacy.si - 1)) Legacy.si (NaN, [])
    = unit /\
    Legacy.numify num
    = inr (strip_trailing_zeros (toFixed (fdiv (sanitize num) (fst unit)) 2)
           ++ snd unit) /\
    Legacy.numify num = inr (numify num options).
Proof.
  intros H Hft Hp Hst.
  pose proof (legacy_scan _ H) as Hf.
  set (unit := nth (Legacy.scan (sanitize num) (List.length Legacy.si - 1))
                   Legacy.si (NaN, [])) in *.
  assert (HL : Legacy.numify num
               = inr (strip_trailing_zeros
                        (toFixed (fdiv (sanitize num) (fst unit)) 2)
                      ++ snd unit)).
  { unfold Legacy.numify. cbv zeta. rewrite (fge_flt _ _ H). reflexivity. }
  exists unit. repeat split; auto.
  rewrite HL. f_equal.
  rewrite (numify_large num options unit H).
  - rewrite Hft, Hst.
    change (ToString_opt (format_decimal (getFormat (Some (str "en")))))
      with ["."%char].
    rewrite replace_first_same. reflexivity.
  - rewrite Hft. exact Hf.
Qed.

Lemma legacy_numify_agrees_witness :
  fge (sanitize (of_Z 1234567)) (of_Z 1000) = true /\
  Legacy.numify (of_Z 1234567) = inr (numify (of_Z 1234567) no_options) /\
  numify (of_Z 1234567) no_options = str "1.23M".
Proof.
  assert (H : fge (sanitize (of_Z 1234567)) (of_Z 1000) = true)
    by (vm_compute; reflexivity).
  split; [exact H|].
  destruct (legacy_numify_agrees (of_Z 1234567) no_options H
              eq_refl eq_refl eq_refl) as (unit & _ & _ & _ & Heq).
  split; [exact Heq|]. vm_compute. reflexivity.
Defined.

(** ** Locale resolution *)

Lemma getFormat_absent : getFormat None = en /\ getFormat (Some []) = en.
Proof. split; reflexivity. Qed.

Lemma getFormat_system_names :
  getFormat (Some (str "international"))
  = Locale {| decimal := "."; thousand := ","; system := international |} /\
  getFormat (Some (str "indian"))
  = Locale {| decimal := "."; thousand := ","; system := indian |}.
Proof. split; reflexivity. Qed.

Lemma getFormat_table :
  Forall (fun kv : jsstring * NumberFormat =>
            getFormat (Some (fst kv)) = Locale (snd kv)) FORMAT_LOCALES.
Proof. repeat constructor. Qed.

(** A string that is neither a key of the table, nor a system name, nor
    a property inherited from [Object.prototype], resolves to English. *)
Lemma getFormat_fallback (format : jsstring) :
  own_property format FORMAT_LOCALES = None ->
  format <> str "international" -> format <> str "indian" ->
  ~ In format Object_prototype ->
  getFormat (Some format) = en.
Proof.
  intros Hown Hi Hn Hp. unfold getFormat.
  destruct format as [|c r]; [reflexivity|].
  apply jsstring_eqb_neq in Hi, Hn. rewrite Hi, Hn.
  unfold FORMAT_LOCALES_get. rewrite Hown.
  destruct (existsb (jsstring_eqb (c :: r)) Object_prototype) eqn:E; [|reflexivity].
  apply existsb_exists in E. destruct E as (k & Hk & E).
  apply jsstring_eqb_eq in E. subst k. contradiction.
Qed.

(** [getFormat] is total, and whatever it returns that is a
    configuration comes from the table or is one of the two built for a
    system name. *)
Lemma getFormat_Locale (format : option jsstring) (f : NumberFormat) :
  getFormat format = Locale f ->
  In f (map snd FORMAT_LOCALES) \/
  f = {| decimal := "."; thousand := ","; system := indian |}.
Proof.
  unfold getFormat, en. destruct format as [[|c r]|].
  - intros [= <-]. left. left. reflexivity.
  - destruct (jsstring_eqb (c :: r) "international").
    { intros [= <-]. left. left. reflexivity. }
    destruct (jsstring_eqb (c :: r) "indian").
    { intros [= <-]. right. reflexivity. }
    unfold FORMAT_LOCALES_get.
    destruct (own_property (c :: r) FORMAT_LOCALES) as [g|] eqn:E.
    + intros [= <-]. left. clear -E.
      induction FORMAT_LOCALES as [|[k v] l IH]; [discriminate|].
      cbn [own_property] in E. destruct (jsstring_eqb k (c :: r)).
      * injection E as <-. left. reflexivity.
      * right. auto.
    + destruct (existsb _ _); [discriminate|].
      intros [= <-]. left. left. reflexivity.
  - intros [= <-]. left. left. reflexivity.
Qed.

(** C6 (the code departs from it).  The name of a property that every
    object inherits is found by the table lookup, so [getFormat] returns
    that inherited member, not the English configuration its comment
    promises for an invalid format; [numify] then renders the missing
    decimal separator as the text [undefined]. *)
Theorem getFormat_inherited_property :
  getFormat (Some (str "constructor")) = Inherited (str "constructor") /\
  getFormat (Some (str "constructor")) <> en /\
  numify (of_Z 1234)
    {| formatType := Some (str "constructor"); precise := None; style := None |}
  = str "1undefined23k".
Proof.
  split; [reflexivity|]. split; [discriminate|]. vm_compute. reflexivity.
Qed.

(** ** Suffixes *)

Lemma suffix_short (style : jsstring) (unit : number * jsstring) :
  style <> str "long" -> suffix_of style unit = snd unit.
Proof.
  intros H. unfold suffix_of. apply jsstring_eqb_neq in H. now rewrite H.
Qed.

Lemma suffix_long (unit : number * jsstring) (word : jsstring) :
  own_property (snd unit) LONG_UNITS = Some word ->
  suffix_of (str "long") unit = " "%char :: word.
Proof.
  intros H. unfold suffix_of.
  change (jsstring_eqb (str "long") (str "long")) with true.
  cbv iota. rewrite H. reflexivity.
Qed.

Lemma long_words_of_units :
  map (fun u => own_property (snd u) LONG_UNITS) international_units
  = [ Some (str "quintillion"); Some (str "quadrillion"); Some (str "trillion");
      Some (str "billion"); Some (str "million"); Some (str "thousand") ] /\
  map (fun u => own_property (snd u) LONG_UNITS) indian_units
  = [ Some (str "crore"); Some (str "lakh"); None ].
Proof. split; reflexivity. Qed.

(** C8 (the code departs from it).  The Indian ladder's thousand unit
    is spelt [K], and the table of long words only has [k]: in the long
    style the look-up finds nothing and the suffix reads [undefined],
    where every other unit gets its word. *)
Theorem numify_long_indian_thousand :
  numify (of_Z 1234)
    {| formatType := Some (str "in"); precise := None; style := Some (str "long") |}
  = str "1.23 undefined" /\
  numify (of_Z 1234)
    {| formatType := None; precise := None; style := Some (str "long") |}
  = str "1.23 thousand" /\
  numify (of_Z 123456)
    {| formatType := Some (str "in"); precise := None; style := Some (str "long") |}
  = str "1.23 lakh".
Proof. repeat split; vm_compute; reflexivity. Qed.

(** ** Decimal digits *)

Lemma digit_cases (d : Z) :
  0 <= d < 10 ->
  d = 0 \/ d = 1 \/ d = 2 \/ d = 3 \/ d = 4 \/ d = 5 \/ d = 6 \/ d = 7 \/ d = 8 \/ d = 9.
Proof. lia. Qed.

Lemma digit_char_is_digit (d : Z) : 0 <= d < 10 -> is_digit (digit_char d) = true.
Proof.
  intros H. destruct (digit_cases d H) as [->|[->|[->|[->|[->|[->|[->|[->|[->| ->]]]]]]]]];
    reflexivity.
Qed.

Lemma digit_val_char (d : Z) : 0 <= d < 10 -> digit_val (digit_char d) = d.
Proof.
  intros H. destruct (digit_cases d H) as [->|[->|[->|[->|[->|[->|[->|[->|[->| ->]]]]]]]]];
    reflexivity.
Qed.

Lemma is_digit_val (c : ascii) : is_digit c = true -> 0 <= digit_val c < 10.
Proof.
  unfold is_digit, digit_val. intros H.
  apply andb_prop in H. destruct H as [H1 H2].
  apply Nat.leb_le in H1, H2. lia.
Qed.

Lemma digit_char_val (c : ascii) : is_digit c = true -> digit_char (digit_val c) = c.
Proof.
  intros H. pose proof (is_digit_val c H) as Hv.
  unfold digit_char, digit_val in *.
  replace (48 + Z.to_nat (Z.of_nat (nat_of_ascii c) - 48))%nat with (nat_of_ascii c) by lia.
  apply ascii_nat_embedding.
Qed.

Lemma digits_val_snoc (l : jsstring) (c : ascii) :
  digits_val (l ++ [c]) = 10 * digits_val l + digit_val c.
Proof. unfold digits_val. rewrite fold_left_app. reflexivity. Qed.

Lemma digits_val_app (l1 l2 : jsstring) :
  digits_val (l1 ++ l2)
  = digits_val l1 * 10 ^ Z.of_nat (List.length l2) + digits_val l2.
Proof.
  induction l2 as [|c l2 IH] using rev_ind.
  - rewrite app_nil_r. cbn. lia.
  - rewrite app_assoc, !digits_val_snoc, IH, length_app. cbn [List.length].
    replace (Z.of_nat (List.length l2 + 1)) with (Z.of_nat (List.length l2) + 1) by lia.
    rewrite Z.pow_add_r by lia. lia.
Qed.

Lemma digits_val_nonneg (l : jsstring) : all_digits l -> 0 <= digits_val l.
Proof.
  unfold all_digits. induction l as [|c l IH] using rev_ind; intros H.
  - cbn. lia.
  - rewrite forallb_app in H. apply andb_prop in H. destruct H as [H1 H2].
    cbn [forallb] in H2. rewrite andb_true_r in H2. apply is_digit_val in H2.
    rewrite digits_val_snoc. specialize (IH H1). lia.
Qed.

Lemma digits_val_bound (l : jsstring) :
  all_digits l -> digits_val l < 10 ^ Z.of_nat (List.length l).
Proof.
  unfold all_digits. induction l as [|c l IH] using rev_ind; intros H.
  - cbn. lia.
  - rewrite forallb_app in H. apply andb_prop in H. destruct H as [H1 H2].
    cbn [forallb] in H2. rewrite andb_true_r in H2. apply is_digit_val in H2.
    rewrite digits_val_snoc, length_app. cbn [List.length].
    replace (Z.of_nat (List.length l + 1)) with (Z.of_nat (List.length l) + 1) by lia.
    rewrite Z.pow_add_r by lia. specialize (IH H1). lia.
Qed.

Lemma digits_fuel_acc (fuel : nat) (n : Z) (acc : jsstring) :
  digits_fuel fuel n acc = digits_fuel fuel n [] ++ acc.
Proof.
  revert n acc. induction fuel as [|f IH]; intros n acc; cbn [digits_fuel].
  - reflexivity.
  - destruct (n <? 10).
    + reflexivity.
    + rewrite IH. rewrite (IH _ [_]). rewrite <- app_assoc. reflexivity.
Qed.

(** What [digits_fuel] produces when the fuel covers the digits of
    a positive [n]: its digits, as many as its size, read back as [n]. *)
Lemma digits_fuel_spec (fuel : nat) (n : Z) :
  0 <= n < 10 ^ Z.of_nat fuel -> (0 < fuel)%nat ->
  let ds := digits_fuel fuel n [] in
  all_digits ds /\ digits_val ds = n /\ ds <> [] /\
  (0 < n -> 10 ^ (Z.of_nat (List.length ds) - 1) <= n < 10 ^ Z.of_nat (List.length ds)).
Proof.
  revert n. induction fuel as [|f IH]; intros n Hn Hf; [lia|].
  cbn [digits_fuel]. cbv zeta.
  assert (Hm : 0 <= n mod 10 < 10) by (apply Z.mod_pos_bound; lia).
  destruct (n <? 10) eqn:E.
  - apply Z.ltb_lt in E. rewrite Z.mod_small by lia.
    repeat split.
    + unfold all_digits. cbn [forallb]. rewrite digit_char_is_digit by lia. reflexivity.
    + unfold digits_val. cbn [fold_left]. rewrite digit_val_char by lia. lia.
    + discriminate.
    + cbn. lia.
    + cbn. lia.
  - apply Z.ltb_ge in E. rewrite digits_fuel_acc.
    assert (Hd : 0 <= n / 10 < 10 ^ Z.of_nat f).
    { split; [apply Z.div_pos; lia|].
      apply Z.div_lt_upper_bound; [lia|].
      replace (Z.of_nat (S f)) with (Z.of_nat f + 1) in Hn by lia.
      rewrite Z.pow_add_r in Hn by lia. lia. }
    assert (Hf' : (0 < f)%nat).
    { destruct f; [|lia]. cbn in Hd. assert (n / 10 = 0) by lia.
      apply Z.div_small_iff in H; lia. }
    destruct (IH (n / 10) Hd Hf') as (Ha & Hv & Hne & Hlen).
    assert (Hq : 0 < n / 10) by (apply Z.div_str_pos; lia).
    specialize (Hlen Hq).
    assert (HL : (0 < List.length (digits_fuel f (n / 10) []))%nat).
    { destruct (digits_fuel f (n / 10) []); [congruence|cbn [List.length]; lia]. }
    repeat split.
    + unfold all_digits in *. rewrite forallb_app, Ha. cbn [forallb].
      rewrite digit_char_is_digit by lia. reflexivity.
    + rewrite digits_val_snoc, Hv, digit_val_char by lia.
      pose proof (Z.div_mod n 10). lia.
    + intros H. apply app_eq_nil in H. destruct H; discriminate.
    + rewrite length_app. cbn [List.length].
      replace (Z.of_nat (List.length (digits_fuel f (n / 10) []) + 1) - 1)
        with ((Z.of_nat (List.length (digits_fuel f (n / 10) [])) - 1) + 1) by lia.
      rewrite Z.pow_add_r by lia.
      pose proof (Z.div_mod n 10). lia.
    + rewrite length_app. cbn [List.length].
      replace (Z.of_nat (List.length (digits_fuel f (n / 10) []) + 1))
        with (Z.of_nat (List.length (digits_fuel f (n / 10) [])) + 1) by lia.
      rewrite Z.pow_add_r by lia.
      pose proof (Z.div_mod n 10). lia.
Qed.

Lemma digits_of_spec (n : Z) :
  0 <= n ->
  all_digits (digits_of n) /\ digits_val (digits_of n) = n /\ digits_of n <> [] /\
  (0 < n -> 10 ^ (Z.of_nat (List.length (digits_of n)) - 1) <= n
            < 10 ^ Z.of_nat (List.length (digits_of n))).
Proof.
  intros Hn. unfold digits_of. apply digits_fuel_spec; [|lia].
  split; [lia|].
  destruct (Z.eq_dec n 0) as [->|Hz]; [cbn; lia|].
  assert (Hp : 0 < n) by lia.
  pose proof (Z.log2_spec n Hp) as [_ Hl].
  pose proof (Z.log2_nonneg n).
  replace (Z.of_nat (S (Z.to_nat (Z.log2 n)))) with (Z.succ (Z.log2 n)) by lia.
  eapply Z.lt_le_trans; [exact Hl|].
  apply Z.pow_le_mono_l. lia.
Qed.

Lemma digits_of_length (s k : Z) :
  10 ^ (k - 1) <= s < 10 ^ k -> 0 < k -> Z.of_nat (List.length (digits_of s)) = k.
Proof.
  intros Hs Hk.
  assert (Hp : 0 < s).
  { assert (0 < 10 ^ (k - 1)) by (apply Z.pow_pos_nonneg; lia). lia. }
  destruct (digits_of_spec s) as (_ & _ & _ & Hl); [lia|].
  specialize (Hl Hp). set (len := Z.of_nat (List.length (digits_of s))) in *.
  destruct (Z.lt_trichotomy len k) as [H|[H|H]]; [|exact H|].
  - assert (10 ^ len <= 10 ^ (k - 1)) by (apply Z.pow_le_mono_r; lia). lia.
  - assert (10 ^ k <= 10 ^ (len - 1)) by (apply Z.pow_le_mono_r; lia). lia.
Qed.

(** ** Trimming and separator substitution on a two-decimal numeral *)

Lemma is_digit_not_dot (c : ascii) : is_digit c = true -> Ascii.eqb c "." = false.
Proof.
  intros H. destruct (Ascii.eqb c ".") eqn:E; [|reflexivity].
  apply Ascii.eqb_eq in E. subst. discriminate.
Qed.

Lemma trailing_zeros_at_digit (c : ascii) (s : jsstring) :
  is_digit c = true -> trailing_zeros_at (c :: s) = None.
Proof.
  intros H. cbn [trailing_zeros_at]. now rewrite is_digit_not_dot.
Qed.

Lemma strip_trailing_zeros_digits (s : jsstring) :
  all_digits s -> strip_trailing_zeros s = s.
Proof.
  unfold all_digits. induction s as [|c s IH]; intros H; [reflexivity|].
  cbn [forallb] in H. apply andb_prop in H. destruct H as [Hc Hs].
  cbn [strip_trailing_zeros]. rewrite trailing_zeros_at_digit by exact Hc.
  now rewrite IH.
Qed.

Lemma strip_trailing_zeros_two (I : jsstring) (a b : ascii) :
  all_digits I -> is_digit a = true -> is_digit b = true ->
  strip_trailing_zeros (I ++ "."%char :: [a; b]) = trim_spec I a b.
Proof.
  unfold all_digits. intros HI Ha Hb.
  induction I as [|c I IH].
  - cbn [app]. unfold trim_spec. cbn [app].
    cbn [strip_trailing_zeros trailing_zeros_at].
    change (Ascii.eqb "." ".") with true. cbv iota.
    cbn [zeros_to_end forallb digits_then_zeros].
    rewrite Ha, Hb. unfold is_nonzero_digit. rewrite Ha, Hb.
    rewrite (is_digit_not_dot a Ha), (is_digit_not_dot b Hb).
    destruct (Ascii.eqb a "0") eqn:Ea, (Ascii.eqb b "0") eqn:Eb; reflexivity.
  - cbn [forallb] in HI. apply andb_prop in HI. destruct HI as [Hc HI].
    cbn [app strip_trailing_zeros]. rewrite trailing_zeros_at_digit by exact Hc.
    rewrite (IH HI). unfold trim_spec.
    destruct (Ascii.eqb a "0" && Ascii.eqb b "0"); [reflexivity|].
    destruct (Ascii.eqb b "0"); reflexivity.
Qed.

Lemma replace_first_digits (rep I r : jsstring) :
  all_digits I ->
  replace_first "." rep (I ++ "."%char :: r) = I ++ rep ++ r.
Proof.
  unfold all_digits. induction I as [|c I IH]; intros H.
  - reflexivity.
  - cbn [forallb] in H. apply andb_prop in H. destruct H as [Hc HI].
    cbn [app replace_first]. rewrite (is_digit_not_dot c Hc). now rewrite IH.
Qed.

Lemma replace_first_no_dot (rep I : jsstring) :
  all_digits I -> replace_first "." rep I = I.
Proof.
  unfold all_digits. induction I as [|c I IH]; intros H.
  - reflexivity.
  - cbn [forallb] in H. apply andb_prop in H. destruct H as [Hc HI].
    cbn [replace_first]. rewrite (is_digit_not_dot c Hc). now rewrite IH.
Qed.

(** ** The shape of [toFixed(2)] *)

Lemma zeros_digits (n : Z) : all_digits (zeros n) /\ digits_val (zeros n) = 0.
Proof.
  unfold zeros, all_digits. induction (Z.to_nat n) as [|k [IH1 IH2]].
  - split; reflexivity.
  - split.
    + cbn [repeat forallb]. now rewrite IH1.
    + change (repeat "0"%char (S k)) with (["0"%char] ++ repeat "0"%char k).
      rewrite digits_val_app, IH2. reflexivity.
Qed.

Lemma zeros_length (n : Z) : List.length (zeros n) = Z.to_nat n.
Proof. unfold zeros. apply repeat_length. Qed.

(** Padding to three digits and cutting before the last two. *)
Lemma two_decimals_split (ds : jsstring) :
  all_digits ds -> ds <> [] ->
  let k := Z.of_nat (List.length ds) in
  let ds' := if k <=? 2 then zeros (2 + 1 - k) ++ ds else ds in
  let k' := Z.of_nat (List.length ds') in
  exists I a b,
    firstn (Z.to_nat (k' - 2)) ds' = I /\ skipn (Z.to_nat (k' - 2)) ds' = [a; b] /\
    all_digits I /\ I <> [] /\ is_digit a = true /\ is_digit b = true /\
    digits_val (I ++ [a; b]) = digits_val ds.
Proof.
  intros Hd Hne k ds' k'.
  assert (Hd' : all_digits ds' /\ digits_val ds' = digits_val ds /\ 3 <= k').
  { unfold k', ds'. destruct (k <=? 2) eqn:E.
    - apply Z.leb_le in E. destruct (zeros_digits (2 + 1 - k)) as [Hz1 Hz2].
      repeat split.
      + unfold all_digits in *. now rewrite forallb_app, Hz1, Hd.
      + rewrite digits_val_app, Hz2. lia.
      + rewrite length_app, zeros_length. unfold k in *. lia.
    - apply Z.leb_gt in E. repeat split; auto. unfold k in E. lia. }
  destruct Hd' as (Ha & Hv & Hk).
  pose proof (firstn_skipn (Z.to_nat (k' - 2)) ds') as Hsplit.
  assert (Hlen : List.length (skipn (Z.to_nat (k' - 2)) ds') = 2%nat).
  { rewrite length_skipn. unfold k' in *. lia. }
  destruct (skipn (Z.to_nat (k' - 2)) ds') as [|a [|b [|c r]]] eqn:Es;
    try discriminate Hlen.
  exists (firstn (Z.to_nat (k' - 2)) ds'), a, b.
  unfold all_digits in *. rewrite <- Hsplit, forallb_app in Ha.
  apply andb_prop in Ha. destruct Ha as [HI Hab].
  cbn [forallb] in Hab. rewrite andb_true_r in Hab.
  apply andb_prop in Hab. destruct Hab as [Ha Hb].
  repeat split; auto.
  - intros HI0. apply (f_equal (@List.length ascii)) in HI0.
    rewrite length_firstn in HI0. cbn [List.length] in HI0. unfold k' in *. lia.
  - rewrite Hsplit. exact Hv.
Qed.

Lemma ratio_of_pos (m : positive) (e : Z) :
  0 < fst (ratio_of m e) /\ 0 < snd (ratio_of m e).
Proof.
  unfold ratio_of. destruct (0 <=? e) eqn:E; cbn [fst snd].
  - apply Z.leb_le in E. split; [|lia].
    apply Z.mul_pos_pos; [lia|]. apply Z.pow_pos_nonneg; lia.
  - apply Z.leb_gt in E. split; [lia|]. apply Z.pow_pos_nonneg; lia.
Qed.

Lemma nearest_scaled_spec (f p q : Z) :
  0 <= f -> 0 < p -> 0 < q ->
  let n := nearest_scaled f p q in
  0 <= n /\ (2 * n - 1) * q <= 2 * p * 10 ^ f < (2 * n + 1) * q.
Proof.
  intros Hf Hp Hq n. unfold nearest_scaled in n.
  assert (H10 : 0 < 10 ^ f) by (apply Z.pow_pos_nonneg; lia).
  assert (HX : 0 < 2 * p * 10 ^ f) by (apply Z.mul_pos_pos; lia).
  set (X := 2 * p * 10 ^ f) in *.
  pose proof (Z.div_mod (X + q) (2 * q) ltac:(lia)) as Hdm.
  pose proof (Z.mod_pos_bound (X + q) (2 * q) ltac:(lia)) as Hm.
  assert (Hn : 0 <= n) by (apply Z.div_pos; lia).
  fold n in Hdm. set (r := (X + q) mod (2 * q)) in *.
  replace (2 * q * n) with (2 * (n * q)) in Hdm by ring.
  replace ((2 * n - 1) * q) with (2 * (n * q) - q) by ring.
  replace ((2 * n + 1) * q) with (2 * (n * q) + q) by ring.
  set (nq := n * q) in *. lia.
Qed.

(** [toFixed(2)] of a positive number below 1e21 is a numeral [I.ab]
    whose digits read as the integer nearest to a hundred times the
    number, the larger one on a tie. *)
Lemma toFixed_two_fin (m : positive) (e : Z) :
  (10 ^ 21 * snd (ratio_of m e) <=? fst (ratio_of m e)) = false ->
  exists I a b,
    toFixed (Fin false m e) 2 = I ++ "."%char :: [a; b] /\
    all_digits I /\ I <> [] /\ is_digit a = true /\ is_digit b = true /\
    digits_val (I ++ [a; b])
    = nearest_scaled 2 (fst (ratio_of m e)) (snd (ratio_of m e)).
Proof.
  intros Hlt. unfold toFixed.
  destruct (ratio_of_pos m e) as [Hp Hq].
  destruct (ratio_of m e) as [p q]. cbn [fst snd] in *. rewrite Hlt.
  cbv zeta. change (2 =? 0) with false. cbv iota.
  destruct (nearest_scaled_spec 2 p q) as [Hn _]; try lia.
  set (n := nearest_scaled 2 p q) in *.
  set (ds := if n =? 0 then ["0"%char] else digits_of n).
  assert (Hds : all_digits ds /\ ds <> [] /\ digits_val ds = n).
  { unfold ds. destruct (n =? 0) eqn:E.
    - apply Z.eqb_eq in E. rewrite E. repeat split; discriminate.
    - destruct (digits_of_spec n Hn) as (H1 & H2 & H3 & _). auto. }
  destruct Hds as (H1 & H2 & H3).
  destruct (two_decimals_split ds H1 H2) as (I & a & b & HI & Hab & HdI & HneI & Ha & Hb & Hv).
  exists I, a, b. cbn [app]. rewrite HI, Hab. repeat split; auto. congruence.
Qed.

(** ** Rounding keeps the sign and stays close *)

Lemma round64_sign (neg : bool) (p q : Z) :
  round64 neg p q = Zero neg \/ round64 neg p q = Inf neg \/
  exists m e, round64 neg p q = Fin neg m e.
Proof.
  unfold round64.
  repeat match goal with
         | |- context [let '(_, _) := ?x in _] => destruct x
         | |- context [if ?c then _ else _] => destruct c
         end; eauto.
Qed.

Lemma log2_ratio_lower (p q : Z) :
  0 < p -> 0 < q -> 0 <= log2_ratio p q -> q * 2 ^ log2_ratio p q <= p.
Proof.
  intros Hp Hq. unfold log2_ratio.
  pose proof (Z.log2_spec p Hp) as [Hp1 Hp2].
  pose proof (Z.log2_spec q Hq) as [Hq1 Hq2].
  pose proof (Z.log2_nonneg p). pose proof (Z.log2_nonneg q).
  set (lp := Z.log2 p) in *. set (lq := Z.log2 q) in *.
  destruct (0 <=? lp - lq) eqn:Ed.
  - apply Z.leb_le in Ed. destruct (p <? q * 2 ^ (lp - lq)) eqn:Eb.
    + intros HL.
      assert (Hpow : 2 ^ Z.succ lq * 2 ^ (lp - lq - 1) = 2 ^ lp).
      { rewrite <- Z.pow_add_r by lia. f_equal. lia. }
      assert (0 < 2 ^ (lp - lq - 1)) by (apply Z.pow_pos_nonneg; lia).
      nia.
    + intros _. apply Z.ltb_ge in Eb. exact Eb.
  - apply Z.leb_gt in Ed. destruct (p * 2 ^ (- (lp - lq)) <? q); lia.
Qed.

(** A quotient below [2^K] rounds to zero or to a finite number that
    is [2^K] at most: rounding never passes a power of two. *)
Lemma round64_upper (neg : bool) (p q K : Z) :
  0 < p -> 0 < q -> 0 <= K <= 1000 -> p < 2 ^ K * q ->
  round64 neg p q = Zero neg \/
  exists m e, round64 neg p q = Fin neg m e /\
              fst (ratio_of m e) <= 2 ^ K * snd (ratio_of m e).
Proof.
  intros Hp Hq HK Hb. unfold round64.
  assert (HL : log2_ratio p q <= K - 1).
  { destruct (Z_le_gt_dec (log2_ratio p q) (K - 1)) as [|Hgt]; [assumption|exfalso].
    pose proof (log2_ratio_lower p q Hp Hq ltac:(lia)) as Hl.
    assert (2 ^ K <= 2 ^ log2_ratio p q) by (apply Z.pow_le_mono_r; lia).
    nia. }
  set (e0 := Z.max emin (log2_ratio p q - (prec - 1))).
  assert (He0 : emin <= e0 <= K /\ e0 + 1 <= emax)
    by (unfold e0, emin, emax, prec in *; lia).
  set (num := if 0 <=? e0 then p else p * 2 ^ (- e0)).
  set (den := if 0 <=? e0 then q * 2 ^ e0 else q).
  assert (Hden : 0 < den).
  { unfold den. destruct (0 <=? e0) eqn:E; [|lia].
    apply Z.leb_le in E. apply Z.mul_pos_pos; [lia|]. apply Z.pow_pos_nonneg; lia. }
  assert (HB : num < den * 2 ^ (K - e0)).
  { unfold num, den. destruct (0 <=? e0) eqn:E.
    - apply Z.leb_le in E.
      rewrite <- Z.mul_assoc, <- Z.pow_add_r by lia.
      replace (e0 + (K - e0)) with K by lia. lia.
    - apply Z.leb_gt in E.
      replace (K - e0) with (K + - e0) by lia. rewrite Z.pow_add_r by lia.
      assert (0 < 2 ^ (- e0)) by (apply Z.pow_pos_nonneg; lia).
      nia. }
  assert (Hm0 : 0 <= num / den < 2 ^ (K - e0)).
  { split.
    - apply Z.div_pos; [|lia]. unfold num. destruct (0 <=? e0) eqn:E; [lia|].
      apply Z.leb_gt in E. apply Z.mul_nonneg_nonneg; [lia|].
      apply Z.pow_nonneg; lia.
    - apply Z.div_lt_upper_bound; assumption. }
  set (m0 := num / den) in *. set (r := num mod den) in *.
  set (m := if (den <? 2 * r) || ((den =? 2 * r) && Z.odd m0) then m0 + 1 else m0).
  assert (Hm : 0 <= m <= 2 ^ (K - e0)) by (unfold m; destruct (_ || _); lia).
  assert (Hval : forall mm ee, 0 < mm -> mm * 2 ^ (ee - e0) <= 2 ^ (K - e0) ->
                               e0 <= ee ->
                               fst (ratio_of (Z.to_pos mm) ee)
                               <= 2 ^ K * snd (ratio_of (Z.to_pos mm) ee)).
  { intros mm ee Hmm Hle Hee. unfold ratio_of. rewrite Z2Pos.id by lia.
    assert (H1 : 0 < 2 ^ (ee - e0)) by (apply Z.pow_pos_nonneg; lia).
    destruct (0 <=? ee) eqn:E; cbn [fst snd].
    - apply Z.leb_le in E. rewrite Z.mul_1_r.
      destruct (Z_le_gt_dec 0 e0) as [H0|H0].
      + assert (Hx : 2 ^ ee = 2 ^ (ee - e0) * 2 ^ e0).
        { rewrite <- Z.pow_add_r by lia. f_equal; lia. }
        assert (Hy : 2 ^ K = 2 ^ (K - e0) * 2 ^ e0).
        { rewrite <- Z.pow_add_r by lia. f_equal; lia. }
        rewrite Hx, Hy.
        assert (0 < 2 ^ e0) by (apply Z.pow_pos_nonneg; lia).
        rewrite Z.mul_assoc. apply Z.mul_le_mono_nonneg_r; lia.
      + assert (Hx : 2 ^ (ee - e0) = 2 ^ ee * 2 ^ (- e0)).
        { rewrite <- Z.pow_add_r by lia. f_equal; lia. }
        assert (Hy : 2 ^ (K - e0) = 2 ^ K * 2 ^ (- e0)).
        { rewrite <- Z.pow_add_r by lia. f_equal; lia. }
        rewrite Hx, Hy in Hle.
        assert (0 < 2 ^ (- e0)) by (apply Z.pow_pos_nonneg; lia).
        rewrite Z.mul_assoc in Hle.
        apply Z.mul_le_mono_pos_r in Hle; assumption.
    - apply Z.leb_gt in E.
      assert (Hy : 2 ^ (K - e0) = 2 ^ K * 2 ^ (- ee) * 2 ^ (ee - e0)).
      { rewrite <- !Z.pow_add_r by lia. f_equal; lia. }
      rewrite Hy in Hle.
      apply Z.mul_le_mono_pos_r in Hle; assumption. }
  destruct (m =? 2 ^ prec) eqn:Ec.
  - apply Z.eqb_eq in Ec. change (2 ^ (prec - 1) =? 0) with false. cbv iota.
    destruct (emax <? e0 + 1) eqn:Ee; [apply Z.ltb_lt in Ee; lia|].
    right. eexists _, _. split; [reflexivity|].
    apply Hval; [reflexivity| |lia].
    replace (e0 + 1 - e0) with 1 by lia.
    change (2 ^ (prec - 1) * 2 ^ 1) with (2 ^ prec). lia.
  - destruct (m =? 0) eqn:Ez; [left; reflexivity|].
    apply Z.eqb_neq in Ez.
    destruct (emax <? e0) eqn:Ee; [apply Z.ltb_lt in Ee; lia|].
    right. eexists _, _. split; [reflexivity|].
    apply Hval; [lia| |lia].
    rewrite Z.sub_diag, Z.pow_0_r. lia.
Qed.

Lemma value_ratio (m : positive) (e : Z) :
  value (Fin false m e)
  = Qmake (fst (ratio_of m e)) (Z.to_pos (snd (ratio_of m e))).
Proof.
  unfold value, ratio_of. destruct (0 <=? e); reflexivity.
Qed.

Lemma ratio_of_snd_pos (m : positive) (e : Z) :
  Zpos (Z.to_pos (snd (ratio_of m e))) = snd (ratio_of m e).
Proof. apply Z2Pos.id. apply ratio_of_pos. Qed.

Lemma half_up_Q (m : positive) (e : Z) :
  let n := nearest_scaled 2 (fst (ratio_of m e)) (snd (ratio_of m e)) in
  (inject_Z n - (1 # 2) <= 100 * value (Fin false m e))%Q /\
  (100 * value (Fin false m e) < inject_Z n + (1 # 2))%Q.
Proof.
  intros n. rewrite value_ratio.
  destruct (ratio_of_pos m e) as [Hp Hq].
  destruct (nearest_scaled_spec 2 _ _ ltac:(lia) Hp Hq) as [Hn [H1 H2]].
  fold n in Hn, H1, H2.
  pose proof (ratio_of_snd_pos m e) as Hid.
  set (p := fst (ratio_of m e)) in *. set (q := snd (ratio_of m e)) in *.
  change (10 ^ 2) with 100 in *.
  unfold Qle, Qlt, Qminus, Qplus, Qmult, Qopp, inject_Z.
  cbn [Qnum Qden]. rewrite ?Pos2Z.inj_mul, Hid. split; lia.
Qed.

(** ** What sanitizing can return *)

Lemma round_decimal_sign (neg : bool) (s sc : Z) :
  round_decimal neg s sc = Zero neg \/ round_decimal neg s sc = Inf neg \/
  exists m e, round_decimal neg s sc = Fin neg m e.
Proof. unfold round_decimal. destruct (0 <=? sc); apply round64_sign. Qed.

Lemma parse_unsigned_sign (neg : bool) (l : jsstring) :
  parse_unsigned neg l = NaN \/ parse_unsigned neg l = Zero neg \/
  parse_unsigned neg l = Inf neg \/ exists m e, parse_unsigned neg l = Fin neg m e.
Proof.
  unfold parse_unsigned.
  destruct (jsstring_eqb l "Infinity"); [auto|].
  destruct (span_digits l) as [i r].
  destruct (match r with
            | [] => ([], r)
            | c :: t => if Ascii.eqb c "." then span_digits t else ([], r)
            end) as [f r'].
  destruct (i ++ f) as [|a0 l0]; [auto|].
  destruct (parse_exponent r') as [ex|]; [|auto].
  destruct (_ =? 0); [auto|].
  destruct (round_decimal_sign neg (digits_val (a0 :: l0))
              (ex - Z.of_nat (List.length f)))
    as [H|[H|H]]; rewrite ?H; auto.
Qed.

Lemma sanitize_cases (num : number) :
  sanitize num = NaN \/ sanitize num = Zero false \/ sanitize num = Inf false \/
  exists m e, sanitize num = Fin false m e.
Proof.
  unfold sanitize, StringToNumber.
  destruct (strip_non_numeric (Number_toString num)) as [|c r] eqn:E; [auto|].
  assert (Hc : is_stripped c = false).
  { assert (Hin : In c (strip_non_numeric (Number_toString num)))
      by (rewrite E; left; reflexivity).
    unfold strip_non_numeric in Hin. apply filter_In in Hin.
    destruct Hin as [_ Hin]. now apply negb_true_iff in Hin. }
  destruct (Ascii.eqb c "-") eqn:E1.
  { apply Ascii.eqb_eq in E1. subst c. discriminate. }
  destruct (Ascii.eqb c "+") eqn:E2.
  { apply Ascii.eqb_eq in E2. subst c. discriminate. }
  apply parse_unsigned_sign.
Qed.

Lemma fcompare_fin (m : positive) (e : Z) (mt : positive) (et : Z) :
  fcompare (Fin false m e) (Fin false mt et)
  = Some (fst (ratio_of m e) * snd (ratio_of mt et)
          ?= fst (ratio_of mt et) * snd (ratio_of m e)).
Proof.
  unfold fcompare. rewrite !value_ratio.
  unfold Qcompare. cbn [Qnum Qden]. rewrite !ratio_of_snd_pos. reflexivity.
Qed.

(** Comparing with a number whose value is the integer [c]. *)
Lemma flt_fin_Z (m : positive) (e : Z) (mt : positive) (et c : Z) :
  fst (ratio_of mt et) = c * snd (ratio_of mt et) ->
  flt (Fin false m e) (Fin false mt et) = true ->
  fst (ratio_of m e) < c * snd (ratio_of m e).
Proof.
  intros Hc. unfold flt. rewrite fcompare_fin, Hc.
  destruct (ratio_of_pos mt et) as [_ Hq].
  destruct (_ ?= _) eqn:E; try discriminate. intros _.
  rewrite Z.compare_lt_iff in E.
  apply (Z.mul_lt_mono_pos_r (snd (ratio_of mt et))); [exact Hq|].
  rewrite <- Z.mul_assoc, (Z.mul_comm (snd (ratio_of m e))), Z.mul_assoc. exact E.
Qed.

(** A value of [2^70] at most, divided by a threshold of a thousand
    or more, gives zero or a finite quotient that [toFixed] still
    writes in fixed notation. *)
Lemma fdiv_below (m : positive) (e : Z) (mt : positive) (et : Z) :
  fst (ratio_of m e) <= 2 ^ 70 * snd (ratio_of m e) ->
  1000 * snd (ratio_of mt et) <= fst (ratio_of mt et) ->
  fdiv (Fin false m e) (Fin false mt et) = Zero false \/
  exists m' e', fdiv (Fin false m e) (Fin false mt et) = Fin false m' e' /\
                (10 ^ 21 * snd (ratio_of m' e') <=? fst (ratio_of m' e')) = false.
Proof.
  intros Hv Ht. unfold fdiv.
  destruct (ratio_of_pos m e) as [Hp Hq].
  destruct (ratio_of_pos mt et) as [Hp' Hq'].
  destruct (ratio_of m e) as [p q]. destruct (ratio_of mt et) as [p' q'].
  cbn [fst snd xorb] in *.
  assert (Hb : p * q' < 2 ^ 61 * (q * p')).
  { assert (H1 : 1000 * (p * q') <= 2 ^ 70 * (q * p')).
    { replace (1000 * (p * q')) with (p * (1000 * q')) by ring.
      replace (2 ^ 70 * (q * p')) with (2 ^ 70 * q * p') by ring.
      apply Z.mul_le_mono_nonneg; lia. }
    assert (H2 : 0 < q * p') by (apply Z.mul_pos_pos; lia).
    change (2 ^ 70) with 1180591620717411303424 in H1.
    change (2 ^ 61) with 2305843009213693952.
    set (X := p * q') in *. set (Y := q * p') in *. lia. }
  destruct (round64_upper false (p * q') (q * p') 61) as [H|(m' & e' & H & Hle)];
    [apply Z.mul_pos_pos; lia|apply Z.mul_pos_pos; lia|lia|exact Hb| |].
  - left. exact H.
  - right. exists m', e'. split; [exact H|].
    apply Z.leb_gt. destruct (ratio_of_pos m' e') as [_ Hs].
    change (2 ^ 61) with 2305843009213693952 in Hle.
    change (10 ^ 21) with 1000000000000000000000. lia.
Qed.

Lemma units_thresholds (format : FormatValue) (u : number * jsstring) :
  In u (units_of format) ->
  exists mt et, fst u = Fin false mt et /\
                1000 * snd (ratio_of mt et) <= fst (ratio_of mt et).
Proof.
  unfold units_of.
  destruct (format_system format) as [[]|];
    unfold international_units, indian_units; cbn [In]; intros H;
    repeat match type of H with
           | _ \/ _ => destruct H as [<-|H]
           | False => destruct H
           end;
    eexists _, _; (split; [vm_compute; reflexivity|]);
    apply Z.leb_le; vm_compute; reflexivity.
Qed.

(** ** Two decimals of a quotient *)

Lemma toFixed_two_quotient (v t : number) (m mt : positive) (e et : Z) :
  v = Fin false m e -> t = Fin false mt et ->
  fst (ratio_of m e) <= 2 ^ 70 * snd (ratio_of m e) ->
  1000 * snd (ratio_of mt et) <= fst (ratio_of mt et) ->
  exists I a b,
    all_digits I /\ I <> [] /\ is_digit a = true /\ is_digit b = true /\
    toFixed (fdiv v t) 2 = I ++ "."%char :: [a; b] /\
    (inject_Z (digits_val (I ++ [a; b])) - (1 # 2) <= 100 * value (fdiv v t))%Q /\
    (100 * value (fdiv v t) < inject_Z (digits_val (I ++ [a; b])) + (1 # 2))%Q.
Proof.
  intros -> -> Hv Ht.
  destruct (fdiv_below m e mt et Hv Ht) as [Hz|(m' & e' & Hq & Hb)]; rewrite ?Hz, ?Hq.
  - exists ["0"%char], "0"%char, "0"%char. repeat split; try discriminate.
  - destruct (toFixed_two_fin m' e' Hb) as (I & a & b & H1 & H2 & H3 & H4 & H5 & H6).
    exists I, a, b. rewrite H6. pose proof (half_up_Q m' e') as [Hlo Hhi].
    repeat split; auto.
Qed.

(** ** The precise flag *)

Lemma sanitized_small (num : number) :
  flt (sanitize num) (of_Z 1000) = true ->
  sanitize num = Zero false \/
  exists m e, sanitize num = Fin false m e /\
              (10 ^ 21 * snd (ratio_of m e) <=? fst (ratio_of m e)) = false.
Proof.
  intros Hlt.
  destruct (sanitize_cases num) as [H|[H|[H|(m & e & H)]]]; rewrite H in *.
  1, 3: vm_compute in Hlt; discriminate Hlt.
  1: left; reflexivity.
  right. exists m, e. split; [reflexivity|].
  assert (Ht : exists mt et, of_Z 1000 = Fin false mt et /\
                 fst (ratio_of mt et) = 1000 * snd (ratio_of mt et))
    by (eexists _, _; split; vm_compute; reflexivity).
  destruct Ht as (mt & et & Ht & Hr). rewrite Ht in Hlt.
  pose proof (flt_fin_Z m e mt et _ Hr Hlt) as Hb.
  apply Z.leb_gt. destruct (ratio_of_pos m e).
  change (10 ^ 21) with 1000000000000000000000. lia.
Qed.

(** C7.  Above one thousand the [precise] flag changes nothing: two
    runs that differ only in it return the same string.  Below one
    thousand, with [precise] set, the result is the value with exactly
    two decimals behind the configuration's decimal separator:
    ["500.00"] in English and ["500,00"] in German. *)
Theorem numify_precise_flag :
  (forall (num : number) (ft st : option jsstring) (p p' : option bool),
      fge (sanitize num) (of_Z 1000) = true ->
      numify num {| formatType := ft; precise := p; style := st |} =
      numify num {| formatType := ft; precise := p'; style := st |}) /\
  (forall (num : number) (options : NumifyOptions) (f : NumberFormat),
      flt (sanitize num) (of_Z 1000) = true ->
      precise options = Some true ->
      getFormat (Some (default (str "en") (formatType options))) = Locale f ->
      exists I a b,
        all_digits I /\ I <> [] /\ is_digit a = true /\ is_digit b = true /\
        toFixed (sanitize num) 2 = I ++ "."%char :: [a; b] /\
        numify num options = I ++ decimal f ++ [a; b]) /\
  numify (of_Z 500) {| formatType := None; precise := Some true; style := None |}
  = str "500.00" /\
  numify (of_Z 500)
    {| formatType := Some (str "de"); precise := Some true; style := None |}
  = str "500,00".
Proof.
  split; [exact numify_precise_irrelevant|].
  split; [|split; vm_compute; reflexivity].
  intros num options f Hlt Hp Hf.
  assert (Hshape : exists I a b,
             all_digits I /\ I <> [] /\ is_digit a = true /\ is_digit b = true /\
             toFixed (sanitize num) 2 = I ++ "."%char :: [a; b]).
  { destruct (sanitized_small num Hlt) as [Hz|(m & e & Hv & Hb)].
    - rewrite Hz. exists ["0"%char], "0"%char, "0"%char.
      repeat split; discriminate.
    - rewrite Hv. destruct (toFixed_two_fin m e Hb) as (I & a & b & H1 & H2 & H3 & H4 & H5 & _).
      exists I, a, b. auto. }
  destruct Hshape as (I & a & b & HI & HIne & Ha & Hb & Hfix).
  exists I, a, b. repeat split; auto.
  unfold numify. cbv zeta. rewrite Hlt, Hp, Hf, Hfix. cbn [default format_decimal ToString_opt].
  apply replace_first_digits. exact HI.
Qed.

Lemma numify_precise_flag_witness :
  fge (sanitize (of_Z 1234567)) (of_Z 1000) = true /\
  numify (of_Z 1234567) {| formatType := None; precise := Some true; style := None |}
  = numify (of_Z 1234567) {| formatType := None; precise := Some false; style := None |} /\
  flt (sanitize (of_Z 12)) (of_Z 1000) = true /\
  exists I a b,
    numify (of_Z 12)
      {| formatType := Some (str "fr"); precise := Some true; style := None |}
    = I ++ str "," ++ [a; b].
Proof.
  assert (H1 : fge (sanitize (of_Z 1234567)) (of_Z 1000) = true)
    by (vm_compute; reflexivity).
  assert (H2 : flt (sanitize (of_Z 12)) (of_Z 1000) = true)
    by (vm_compute; reflexivity).
  split; [exact H1|].
  split; [exact (proj1 numify_precise_flag (of_Z 1234567) None None _ _ H1)|].
  split; [exact H2|].
  destruct (proj1 (proj2 numify_precise_flag) (of_Z 12)
              {| formatType := Some (str "fr"); precise := Some true; style := None |}
              {| decimal := ","; thousand := " "; system := international |}
              H2 eq_refl eq_refl)
    as (I & a & b & _ & _ & _ & _ & _ & Hn).
  exists I, a, b. exact Hn.
Defined.

(** ** Signs *)

Lemma Number_toString_negative (m : positive) (e : Z) :
  Number_toString (Fin true m e) = "-"%char :: Number_toString (Fin false m e).
Proof.
  unfold Number_toString. destruct (shortest_digits m e). reflexivity.
Qed.

Lemma sanitize_fabs (x : number) :
  flt x (Zero false) = true ->
  strip_non_numeric (Number_toString x) = strip_non_numeric (Number_toString (fabs x)).
Proof.
  destruct x as [|s|s|s m e]; try discriminate.
  - destruct s; [reflexivity|discriminate].
  - destruct s.
    + intros _. cbn [fabs]. rewrite Number_toString_negative. reflexivity.
    + unfold flt, fcompare. rewrite value_ratio.
      unfold Qcompare. cbn [value Qnum Qden]. rewrite Z.mul_1_r.
      destruct (ratio_of_pos m e) as [Hp _].
      destruct (fst (ratio_of m e) ?= 0 * _) eqn:E; try discriminate.
      rewrite Z.compare_lt_iff in E. lia.
Qed.

Lemma numify_of_sanitized (x y : number) (options : NumifyOptions) :
  sanitize x = sanitize y -> numify x options = numify y options.
Proof. intros H. unfold numify. cbv zeta. now rewrite H. Qed.

(** C4.  The value [numify] formats is the number read back from the
    input's decimal string with every character other than a digit or
    a dot removed, and the result depends on the input through that
    value alone; as the minus sign is among the characters removed, a
    negative input gives the result of its absolute value. *)
Theorem numify_discards_sign :
  (forall num : number,
      sanitize num
      = StringToNumber
          (filter (fun c => is_digit c || Ascii.eqb c ".") (Number_toString num))) /\
  (forall (x y : number) (options : NumifyOptions),
      sanitize x = sanitize y -> numify x options = numify y options) /\
  (forall (x : number) (options : NumifyOptions),
      flt x (Zero false) = true ->
      sanitize x = sanitize (fabs x) /\
      numify x options = numify (fabs x) options).
Proof.
  split; [|split].
  - intros num. unfold sanitize, strip_non_numeric. f_equal.
    apply filter_ext. intros c. unfold is_stripped. apply negb_involutive.
  - exact numify_of_sanitized.
  - intros x options H.
    assert (Hs : sanitize x = sanitize (fabs x)).
    { unfold sanitize. now rewrite (sanitize_fabs x H). }
    split; [exact Hs|]. now apply numify_of_sanitized.
Qed.

Lemma numify_discards_sign_witness :
  flt (of_Z (-5000)) (Zero false) = true /\
  numify (of_Z (-5000)) no_options = numify (of_Z 5000) no_options /\
  numify (of_Z (-5000)) no_options = str "5k".
Proof.
  assert (H : flt (of_Z (-5000)) (Zero false) = true) by (vm_compute; reflexivity).
  split; [exact H|].
  assert (Hf : fabs (of_Z (-5000)) = of_Z 5000) by (vm_compute; reflexivity).
  pose proof (proj2 (proj2 (proj2 numify_discards_sign) (of_Z (-5000)) no_options H))
    as Hn.
  rewrite Hf in Hn.
  split; [exact Hn|]. vm_compute. reflexivity.
Defined.

(** ** The digits chosen by Number::toString *)

Lemma candidates_spec (m : positive) (e k s n : Z) :
  In (s, n) (candidates m e k) ->
  10 ^ (k - 1) <= s < 10 ^ k /\ round_decimal false s (n - k) = Fin false m e.
Proof.
  unfold candidates. destruct (ratio_of m e) as [p q]. cbv zeta.
  intros H. apply filter_In in H. destruct H as [_ H].
  apply andb_prop in H. destruct H as [H Hr].
  apply andb_prop in H. destruct H as [H1 H2].
  apply Z.leb_le in H1. apply Z.ltb_lt in H2. split; [lia|].
  destruct (round_decimal_sign false s (n - k)) as [E|[E|(m' & e' & E)]];
    rewrite E in Hr; try discriminate.
  apply andb_prop in Hr. destruct Hr as [Hm He].
  apply Pos.eqb_eq in Hm. apply Z.eqb_eq in He. subst. exact E.
Qed.

Lemma exact_digits_pos (m : positive) (e : Z) : 0 < fst (exact_digits m e).
Proof.
  unfold exact_digits. cbn [fst]. destruct (0 <=? e) eqn:E.
  - apply Z.leb_le in E. apply Z.mul_pos_pos; [lia|]. apply Z.pow_pos_nonneg; lia.
  - apply Z.leb_gt in E. apply Z.mul_pos_pos; [lia|]. apply Z.pow_pos_nonneg; lia.
Qed.

Lemma shortest_from_spec (fuel : nat) (k : Z) (m : positive) (e : Z) :
  1 <= k -> reads_back m e ->
  let (s, n) := shortest_from fuel k m e in
  0 < s /\
  round_decimal false s (n - Z.of_nat (List.length (digits_of s))) = Fin false m e.
Proof.
  revert k. induction fuel as [|f IH]; intros k Hk Hx; cbn [shortest_from].
  - pose proof (exact_digits_pos m e) as Hp. unfold reads_back in Hx.
    destruct (exact_digits m e) as [s n]. split; [exact Hp|exact Hx].
  - destruct (candidates m e k) as [|[s n] l] eqn:E.
    + apply IH; [lia|exact Hx].
    + destruct (candidates_spec m e k s n) as [Hs Hr].
      { rewrite E. left. reflexivity. }
      assert (0 < 10 ^ (k - 1)) by (apply Z.pow_pos_nonneg; lia).
      split; [lia|].
      rewrite (digits_of_length s k Hs) by lia. exact Hr.
Qed.

Lemma shortest_from_pos (fuel : nat) (k : Z) (m : positive) (e : Z) :
  1 <= k -> 0 < fst (shortest_from fuel k m e).
Proof.
  revert k. induction fuel as [|f IH]; intros k Hk; cbn [shortest_from].
  - apply exact_digits_pos.
  - destruct (candidates m e k) as [|[s n] l] eqn:E.
    + apply IH. lia.
    + destruct (candidates_spec m e k s n) as [Hs _].
      { rewrite E. left. reflexivity. }
      assert (0 < 10 ^ (k - 1)) by (apply Z.pow_pos_nonneg; lia).
      cbn [fst]. lia.
Qed.

Lemma shortest_digits_pos (m : positive) (e : Z) : 0 < fst (shortest_digits m e).
Proof. apply shortest_from_pos. lia. Qed.

(** ** Grouping by the regular expression *)

Lemma is_digit_word (c : ascii) : is_digit c = true -> is_word c = true.
Proof. intros H. unfold is_word. now rewrite H. Qed.

Lemma all_digits_cons (c : ascii) (s : jsstring) :
  all_digits (c :: s) <-> is_digit c = true /\ all_digits s.
Proof. unfold all_digits. cbn [forallb]. apply andb_true_iff. Qed.

Lemma all_digits_app (s t : jsstring) :
  all_digits (s ++ t) <-> all_digits s /\ all_digits t.
Proof. unfold all_digits. rewrite forallb_app. apply andb_true_iff. Qed.

(** On a run of digits the look-ahead succeeds exactly when the run is
    a positive multiple of three long. *)
Lemma groups_of_three_digits (ds : jsstring) :
  all_digits ds ->
  groups_of_three ds
  = (0 <? Z.of_nat (List.length ds)) && (Z.of_nat (List.length ds) mod 3 =? 0).
Proof.
  remember (List.length ds) as n eqn:Hn. revert ds Hn.
  induction n as [n IH] using (well_founded_induction Wf_nat.lt_wf).
  intros ds Hn Hd.
  destruct ds as [|a [|b [|c r]]]; subst n; try reflexivity.
  apply all_digits_cons in Hd. destruct Hd as [Ha Hd].
  apply all_digits_cons in Hd. destruct Hd as [Hb Hd].
  apply all_digits_cons in Hd. destruct Hd as [Hc Hd].
  cbn [groups_of_three]. rewrite Ha, Hb, Hc. cbn [andb].
  rewrite (IH (List.length r)) by (cbn [List.length]; auto; lia).
  cbn [List.length].
  replace (Z.of_nat (S (S (S (List.length r))))) with (Z.of_nat (List.length r) + 1 * 3) by lia.
  rewrite Z.mod_add by lia.
  destruct r as [|d r'].
  - reflexivity.
  - apply all_digits_cons in Hd. destruct Hd as [Hd' _]. rewrite Hd'.
    cbn [negb]. rewrite orb_false_r.
    replace (0 <? Z.of_nat (List.length (d :: r')) + 1 * 3) with true
      by (symmetry; apply Z.ltb_lt; lia).
    replace (0 <? Z.of_nat (List.length (d :: r'))) with true
      by (symmetry; apply Z.ltb_lt; cbn [List.length]; lia).
    reflexivity.
Qed.

Lemma group_spec_cons (sep : jsstring) (c : ascii) (r : jsstring) :
  group_spec sep (c :: r)
  = c :: (if (0 <? Z.of_nat (List.length r)) && (Z.of_nat (List.length r) mod 3 =? 0)
          then sep else [])
      ++ group_spec sep r.
Proof. reflexivity. Qed.

Lemma insert_separators_after_digit (sep : jsstring) (c : ascii) (ds : jsstring) :
  is_digit c = true -> all_digits ds ->
  group_spec sep (c :: ds) = c :: insert_separators sep (Some c) ds.
Proof.
  revert c. induction ds as [|d r IH]; intros c Hc Hd.
  - rewrite group_spec_cons.
    cbn [group_spec insert_separators List.length groups_of_three hd_error].
    rewrite andb_false_r. reflexivity.
  - pose proof Hd as Hd0.
    apply all_digits_cons in Hd. destruct Hd as [Hd Hr].
    rewrite group_spec_cons, (IH d Hd Hr).
    cbn [insert_separators hd_error].
    rewrite (groups_of_three_digits (d :: r) Hd0).
    unfold non_boundary. cbn [is_word_opt].
    rewrite (is_digit_word c Hc), (is_digit_word d Hd). cbn [Bool.eqb andb].
    reflexivity.
Qed.

(** At the start of the string, or after a character that is not a
    word character, a run of digits is grouped the standard way. *)
Lemma insert_separators_digits (sep : jsstring) (prev : option ascii) (ds : jsstring) :
  is_word_opt prev = false -> all_digits ds ->
  insert_separators sep prev ds = group_spec sep ds.
Proof.
  intros Hp Hd. destruct ds as [|d r]; cbn [insert_separators hd_error].
  - cbn [groups_of_three]. rewrite andb_false_r. reflexivity.
  - pose proof Hd as Hd0. apply all_digits_cons in Hd. destruct Hd as [Hd Hr].
    unfold non_boundary. rewrite Hp. cbn [is_word_opt].
    rewrite (is_digit_word d Hd). cbn [Bool.eqb andb app].
    symmetry. apply insert_separators_after_digit; assumption.
Qed.

Lemma insert_separators_minus (sep : jsstring) (ds : jsstring) :
  all_digits ds ->
  insert_separators sep None ("-"%char :: ds) = "-"%char :: group_spec sep ds.
Proof.
  intros Hd. cbn [insert_separators hd_error].
  assert (Hg : groups_of_three ("-"%char :: ds) = false).
  { destruct ds as [|a [|b r]]; reflexivity. }
  rewrite Hg, andb_false_r. cbn [app]. f_equal.
  apply insert_separators_digits; [reflexivity|exact Hd].
Qed.

(** Grouping only adds separators: without them the digits are back. *)
Lemma strip_insert_separators (sep : jsstring) (prev : option ascii) (s : jsstring) :
  strip_separators sep (insert_separators sep prev s) = strip_separators sep s.
Proof.
  assert (Hsep : forall t, strip_separators sep (sep ++ t) = strip_separators sep t).
  { intros t. unfold strip_separators. rewrite filter_app.
    assert (Hnil : forall u,
               (forall c, In c u -> In c sep) ->
               filter (fun c => negb (existsb (Ascii.eqb c) sep)) u = []).
    { induction u as [|c u IHu]; intros Hu; [reflexivity|].
      cbn [filter].
      replace (existsb (Ascii.eqb c) sep) with true.
      - cbn [negb]. apply IHu. intros x Hx. apply Hu. right. exact Hx.
      - symmetry. apply existsb_exists. exists c.
        split; [apply Hu; left; reflexivity|apply Ascii.eqb_refl]. }
    rewrite (Hnil sep) by auto. reflexivity. }
  revert prev. induction s as [|c r IH]; intros prev; cbn [insert_separators].
  - destruct (_ && _); [|reflexivity]. rewrite Hsep. reflexivity.
  - destruct (_ && _).
    + rewrite Hsep. unfold strip_separators in *. cbn [filter].
      rewrite IH. reflexivity.
    + unfold strip_separators in *. cbn [app filter]. rewrite IH. reflexivity.
Qed.

(** ** Splitting at the dot *)

Lemma all_digits_no_dot (s : jsstring) : all_digits s -> no_dot s.
Proof.
  unfold all_digits, no_dot. induction s as [|c s IH]; [reflexivity|].
  cbn [forallb]. intros H. apply andb_prop in H. destruct H as [Hc Hs].
  rewrite (is_digit_not_dot c Hc), (IH Hs). reflexivity.
Qed.

Lemma no_dot_app (s t : jsstring) : no_dot (s ++ t) <-> no_dot s /\ no_dot t.
Proof. unfold no_dot. rewrite forallb_app. apply andb_true_iff. Qed.

Lemma split_no_dot (s : jsstring) : no_dot s -> split "." s = [s].
Proof.
  unfold no_dot. induction s as [|c s IH]; [reflexivity|].
  cbn [forallb split]. intros H. apply andb_prop in H. destruct H as [Hc Hs].
  apply negb_true_iff in Hc. rewrite Hc, (IH Hs). reflexivity.
Qed.

Lemma split_at_dot (s r : jsstring) :
  no_dot s -> split "." (s ++ "."%char :: r) = s :: split "." r.
Proof.
  unfold no_dot. induction s as [|c s IH].
  - reflexivity.
  - cbn [forallb app split]. intros H. apply andb_prop in H. destruct H as [Hc Hs].
    apply negb_true_iff in Hc. rewrite Hc, (IH Hs). reflexivity.
Qed.

Lemma replace_first_no_dot' (rep s : jsstring) :
  no_dot s -> replace_first "." rep s = s.
Proof.
  unfold no_dot. induction s as [|c s IH]; [reflexivity|].
  cbn [forallb replace_first]. intros H. apply andb_prop in H. destruct H as [Hc Hs].
  apply negb_true_iff in Hc. rewrite Hc, (IH Hs). reflexivity.
Qed.

(** ** The exponent is left alone *)

Lemma insert_separators_exponent (sep : jsstring) (d sg : ascii) (E : jsstring) :
  is_digit d = true -> sg = "+"%char \/ sg = "-"%char ->
  all_digits E -> (1 <= List.length E <= 3)%nat ->
  insert_separators sep (Some d) ("e"%char :: sg :: E) = "e"%char :: sg :: E.
Proof.
  intros Hd Hsg HE Hlen.
  assert (Hw : is_word sg = false) by (destruct Hsg; subst; reflexivity).
  assert (Hg : is_digit sg = false) by (destruct Hsg; subst; reflexivity).
  assert (Hall : forall x, In x E -> is_digit x = true /\ is_word x = true).
  { intros x Hx. unfold all_digits in HE. rewrite forallb_forall in HE.
    split; [auto|apply is_digit_word; auto]. }
  destruct E as [|a [|b [|c [|x r]]]]; cbn [List.length] in Hlen; try lia;
    cbn [insert_separators hd_error groups_of_three];
    change (is_digit "e") with false; unfold non_boundary; cbn [is_word_opt];
    rewrite ?Hw, ?Hg;
    repeat match goal with
           | |- context [is_word ?x] =>
               rewrite (proj2 (Hall x ltac:(cbn [In]; auto)))
           end;
    cbn [Bool.eqb andb orb negb app]; rewrite ?andb_false_r; cbn [app];
    reflexivity.
Qed.

(** ** formatNumber on what Number::toString writes *)

Lemma insert_separators_cons (sep : jsstring) (prev : option ascii) (c : ascii)
      (r : jsstring) :
  insert_separators sep prev (c :: r)
  = (if non_boundary prev (Some c) && groups_of_three (c :: r) then sep else [])
    ++ c :: insert_separators sep (Some c) r.
Proof. reflexivity. Qed.

Lemma insert_separators_signed (sep sign I : jsstring) :
  sign = [] \/ sign = ["-"%char] -> all_digits I ->
  insert_separators sep None (sign ++ I) = sign ++ group_spec sep I.
Proof.
  intros [->| ->] HI; cbn [app].
  - apply insert_separators_digits; [reflexivity|exact HI].
  - apply insert_separators_minus. exact HI.
Qed.

Lemma insert_separators_signed_exponent (sep sign : jsstring) (d sg : ascii)
      (E : jsstring) :
  sign = [] \/ sign = ["-"%char] ->
  is_digit d = true -> sg = "+"%char \/ sg = "-"%char ->
  all_digits E -> (1 <= List.length E <= 3)%nat ->
  insert_separators sep None (sign ++ d :: "e"%char :: sg :: E)
  = sign ++ d :: "e"%char :: sg :: E.
Proof.
  intros Hsign Hd Hsg HE Hlen.
  assert (Hstep : forall prev, is_word_opt prev = false ->
            insert_separators sep prev (d :: "e"%char :: sg :: E)
            = d :: "e"%char :: sg :: E).
  { intros prev Hp. rewrite insert_separators_cons.
    unfold non_boundary. rewrite Hp. cbn [is_word_opt].
    rewrite (is_digit_word d Hd). cbn [Bool.eqb andb app]. f_equal.
    apply insert_separators_exponent; assumption. }
  destruct Hsign as [->| ->]; cbn [app].
  - apply Hstep. reflexivity.
  - rewrite insert_separators_cons.
    assert (Hg : groups_of_three ("-"%char :: d :: "e"%char :: sg :: E) = false)
      by reflexivity.
    rewrite Hg, andb_false_r. cbn [app]. f_equal. apply Hstep. reflexivity.
Qed.

Lemma formatNumber_string (num : number) (options : FormatNumberOptions)
      (f : NumberFormat) (sign I rest : jsstring) :
  getFormat (Some (default (str "en") (fn_formatType options))) = Locale f ->
  Number_toString num = sign ++ I ++ rest ->
  sign = [] \/ sign = ["-"%char] -> all_digits I -> tail_of I rest ->
  formatNumber num options
  = sign ++ group_spec (thousand f) I ++ replace_first "." (decimal f) rest.
Proof.
  intros Hf Hs Hsign HI Ht. unfold formatNumber. cbv zeta.
  rewrite Hf, Hs. cbn [format_thousand format_decimal ToString_opt].
  assert (Hnd : no_dot (sign ++ I)).
  { apply no_dot_app. split; [destruct Hsign; subst; reflexivity|].
    now apply all_digits_no_dot. }
  destruct Ht as [|F HIne HF|d sg E HId Hsg HE Hlen|w HI0 Hw].
  - rewrite app_nil_r, (split_no_dot _ Hnd).
    cbn [List.length]. change (1 <? Z.of_nat 1) with false. cbv iota. cbn [hd].
    rewrite insert_separators_signed by assumption.
    cbn [replace_first]. now rewrite app_nil_r.
  - rewrite app_assoc, (split_at_dot _ _ Hnd), (split_no_dot _ HF).
    cbn [List.length]. change (1 <? Z.of_nat 2) with true. cbv iota.
    unfold join_opt. cbn [join].
    rewrite insert_separators_signed by assumption.
    cbn [replace_first]. change (Ascii.eqb "." ".") with true. cbv iota.
    now rewrite <- app_assoc.
  - subst I. apply all_digits_cons in HI. destruct HI as [Hd _].
    assert (Hne : no_dot ("e"%char :: sg :: E)).
    { change ("e"%char :: sg :: E) with (["e"%char; sg] ++ E).
      apply no_dot_app. split; [destruct Hsg; subst; reflexivity|].
      now apply all_digits_no_dot. }
    assert (Hnd' : no_dot (sign ++ [d] ++ "e"%char :: sg :: E)).
    { rewrite app_assoc. apply no_dot_app. split; assumption. }
    rewrite (split_no_dot _ Hnd').
    cbn [List.length]. change (1 <? Z.of_nat 1) with false. cbv iota. cbn [hd].
    rewrite (replace_first_no_dot' (decimal f) _ Hne).
    rewrite group_spec_cons. cbn [List.length group_spec app].
    apply insert_separators_signed_exponent; assumption.
  - subst I. rewrite app_nil_r in Hnd.
    destruct Hsign as [->| ->], Hw as [->| ->]; reflexivity.
Qed.

(** ** The decimal exponent of a binary64 number has three digits at most *)

Lemma canonical_bounds (s : bool) (m : positive) (e : Z) :
  canonical (Fin s m e) = true ->
  0 <= Z.log2 (Zpos m) <= 52 /\ emin <= e <= emax /\ Zpos m < 2 ^ 53 /\
  (Z.log2 (Zpos m) = 52 \/ e = emin).
Proof.
  unfold canonical, prec. intros H.
  pose proof (Z.log2_nonneg (Zpos m)) as Hl.
  pose proof (Z.log2_spec (Zpos m) ltac:(lia)) as [_ Hu].
  assert (Hb : Z.log2 (Zpos m) <= 52 /\ emin <= e <= emax /\
               (Z.log2 (Zpos m) = 52 \/ e = emin)).
  { apply orb_prop in H. destruct H as [H|H].
    - apply andb_prop in H. destruct H as [H H3].
      apply andb_prop in H. destruct H as [H1 H2].
      apply Z.eqb_eq in H1. apply Z.leb_le in H2, H3. lia.
    - apply andb_prop in H. destruct H as [H1 H2].
      apply Z.ltb_lt in H1. apply Z.eqb_eq in H2. unfold emin, emax in *. lia. }
  destruct Hb as (Hb1 & Hb2 & Hb3).
  assert (Zpos m < 2 ^ 53).
  { eapply Z.lt_le_trans; [exact Hu|]. apply Z.pow_le_mono_r; lia. }
  tauto.
Qed.

Lemma ratio_of_log2 (m : positive) (e : Z) :
  Z.log2 (fst (ratio_of m e)) - Z.log2 (snd (ratio_of m e)) = Z.log2 (Zpos m) + e.
Proof.
  unfold ratio_of. destruct (0 <=? e) eqn:E; cbn [fst snd].
  - apply Z.leb_le in E. rewrite Z.log2_mul_pow2 by lia.
    change (Z.log2 1) with 0. lia.
  - apply Z.leb_gt in E. rewrite Z.log2_pow2 by lia. lia.
Qed.

Lemma exponent_scan_bound (fuel : nat) (n p q : Z) :
  n <= exponent_scan fuel n p q <= n + Z.of_nat fuel.
Proof.
  revert n. induction fuel as [|f IH]; intros n; cbn [exponent_scan]; [lia|].
  destruct (pow10_le n p q); [|lia]. specialize (IH (n + 1)). lia.
Qed.

Lemma decimal_exponent_bound (m : positive) (e : Z) :
  -1074 <= Z.log2 (Zpos m) + e <= 1023 ->
  -326 <= decimal_exponent (fst (ratio_of m e)) (snd (ratio_of m e)) <= 313.
Proof.
  intros H. unfold decimal_exponent. rewrite ratio_of_log2.
  set (d := Z.log2 (Zpos m) + e) in *.
  pose proof (exponent_scan_bound 8 (d * 1233 / 4096 - 2)
                (fst (ratio_of m e)) (snd (ratio_of m e))) as Hs.
  assert (-324 <= d * 1233 / 4096 < 308).
  { split.
    - apply Z.div_le_lower_bound; lia.
    - apply Z.div_lt_upper_bound; lia. }
  lia.
Qed.

Lemma candidates_exponent (m : positive) (e k s n : Z) :
  In (s, n) (candidates m e k) ->
  let N := decimal_exponent (fst (ratio_of m e)) (snd (ratio_of m e)) in
  n = N \/ n = N + 1.
Proof.
  unfold candidates. destruct (ratio_of m e) as [p q]. cbn [fst snd]. cbv zeta.
  intros H. apply filter_In in H. destruct H as [H _].
  set (N := decimal_exponent p q) in *.
  set (s0 := if 0 <=? N - k then p / (q * 10 ^ (N - k)) else p * 10 ^ (- (N - k)) / q) in *.
  assert (Hhi : forall hi : Z * Z,
             hi = (if s0 + 1 =? 10 ^ k then (10 ^ (k - 1), N + 1) else (s0 + 1, N)) ->
             snd hi = N \/ snd hi = N + 1).
  { intros hi ->. destruct (s0 + 1 =? 10 ^ k); cbn [snd]; auto. }
  specialize (Hhi _ eq_refl).
  set (hi := if s0 + 1 =? 10 ^ k then (10 ^ (k - 1), N + 1) else (s0 + 1, N)) in *.
  assert (Hin : In (s, n) [(s0, N); hi]).
  { destruct (if 0 <=? N - k
              then 2 * p ?= (2 * s0 + 1) * 10 ^ (N - k) * q
              else 2 * p * 10 ^ (- (N - k)) ?= (2 * s0 + 1) * q);
      [destruct (Z.even s0)| |]; cbn [In] in *; tauto. }
  cbn [In] in Hin. destruct Hin as [Hin|[Hin|[]]].
  - injection Hin as _ <-. auto.
  - rewrite Hin in Hhi. exact Hhi.
Qed.

Lemma exact_digits_exponent (m : positive) (e : Z) :
  Zpos m < 2 ^ 53 -> emin <= e <= emax ->
  -998 <= snd (exact_digits m e) <= 1000.
Proof.
  intros Hm He. unfold exact_digits. cbn [snd].
  destruct (0 <=? e) eqn:E.
  - apply Z.leb_le in E.
    set (N := Zpos m * 2 ^ e).
    assert (Hpos : 0 < N) by (apply Z.mul_pos_pos; [lia|apply Z.pow_pos_nonneg; lia]).
    destruct (digits_of_spec N ltac:(lia)) as (_ & _ & Hne & Hlen).
    specialize (Hlen Hpos). set (len := Z.of_nat (List.length (digits_of N))) in *.
    assert (1 <= len).
    { unfold len. destruct (digits_of N); [congruence|cbn [List.length]; lia]. }
    split; [lia|].
    destruct (Z_le_gt_dec len 1000) as [|Hgt]; [assumption|exfalso].
    assert (H1 : 2 ^ e <= 2 ^ 971) by (apply Z.pow_le_mono_r; unfold emax in *; lia).
    assert (H2 : N < 2 ^ 53 * 2 ^ 971).
    { unfold N.
      assert (Zpos m * 2 ^ e <= Zpos m * 2 ^ 971)
        by (apply Z.mul_le_mono_nonneg_l; lia).
      assert (Zpos m * 2 ^ 971 < 2 ^ 53 * 2 ^ 971)
        by (apply Z.mul_lt_mono_pos_r; [apply Z.pow_pos_nonneg; lia|lia]).
      lia. }
    assert (H3 : 10 ^ 1000 <= 10 ^ (len - 1)) by (apply Z.pow_le_mono_r; lia).
    assert (H4 : 2 ^ 53 * 2 ^ 971 < 10 ^ 1000) by (apply Z.ltb_lt; vm_compute; reflexivity).
    lia.
  - apply Z.leb_gt in E.
    set (j := - e). assert (Hj : 1 <= j <= 1074) by (unfold j, emin in *; lia).
    set (N := Zpos m * 5 ^ j).
    assert (H5 : 0 < 5 ^ j) by (apply Z.pow_pos_nonneg; lia).
    assert (Hpos : 0 < N) by (apply Z.mul_pos_pos; lia).
    destruct (digits_of_spec N ltac:(lia)) as (_ & _ & Hne & Hlen).
    specialize (Hlen Hpos). set (len := Z.of_nat (List.length (digits_of N))) in *.
    assert (1 <= len).
    { unfold len. destruct (digits_of N); [congruence|cbn [List.length]; lia]. }
    replace e with (- j) by (unfold j; lia).
    split.
    + destruct (Z_le_gt_dec j 999) as [|Hgt]; [lia|].
      destruct (Z_le_gt_dec len 76) as [Hle|]; [exfalso|lia].
      assert (H1 : 10 ^ len <= 10 ^ 76) by (apply Z.pow_le_mono_r; lia).
      assert (H2 : 5 ^ 1000 <= 5 ^ j) by (apply Z.pow_le_mono_r; lia).
      assert (H3 : 10 ^ 76 < 5 ^ 1000) by (apply Z.ltb_lt; vm_compute; reflexivity).
      assert (H4 : 5 ^ j <= N).
      { unfold N. replace (5 ^ j) with (1 * 5 ^ j) at 1 by lia.
        apply Z.mul_le_mono_nonneg_r; lia. }
      lia.
    + destruct (Z_le_gt_dec (len - j) 1000) as [|Hgt]; [assumption|exfalso].
      assert (H1 : 10 ^ (17 + j) <= 10 ^ (len - 1)) by (apply Z.pow_le_mono_r; lia).
      assert (H2 : 10 ^ (17 + j) = 10 ^ 17 * 10 ^ j) by (apply Z.pow_add_r; lia).
      assert (H3 : 5 ^ j <= 10 ^ j) by (apply Z.pow_le_mono_l; lia).
      assert (H4 : 2 ^ 53 < 10 ^ 17) by (apply Z.ltb_lt; vm_compute; reflexivity).
      assert (H6 : N < 10 ^ 17 * 10 ^ j).
      { unfold N.
        assert (Zpos m * 5 ^ j <= Zpos m * 10 ^ j)
          by (apply Z.mul_le_mono_nonneg_l; lia).
        assert (Zpos m * 10 ^ j < 10 ^ 17 * 10 ^ j)
          by (apply Z.mul_lt_mono_pos_r; [apply Z.pow_pos_nonneg; lia|lia]).
        lia. }
      lia.
Qed.

Lemma shortest_from_exponent (fuel : nat) (k : Z) (m : positive) (e : Z) :
  Zpos m < 2 ^ 53 -> emin <= e <= emax ->
  -1074 <= Z.log2 (Zpos m) + e <= 1023 ->
  -998 <= snd (shortest_from fuel k m e) <= 1000.
Proof.
  intros Hm He Hl. revert k.
  induction fuel as [|f IH]; intros k; cbn [shortest_from].
  - apply exact_digits_exponent; assumption.
  - destruct (candidates m e k) as [|[s n] l] eqn:E; [apply IH|].
    pose proof (candidates_exponent m e k s n) as Hc.
    rewrite E in Hc. specialize (Hc (or_introl eq_refl)). cbv zeta in Hc.
    pose proof (decimal_exponent_bound m e Hl). cbn [snd]. lia.
Qed.

Lemma shortest_digits_exponent (s : bool) (m : positive) (e : Z) :
  canonical (Fin s m e) = true -> -998 <= snd (shortest_digits m e) <= 1000.
Proof.
  intros H. destruct (canonical_bounds s m e H) as (Hl & He & Hm & _).
  apply shortest_from_exponent; auto. unfold emin, emax in *. lia.
Qed.

(** ** What Number::toString writes *)

Lemma digits_of_short (x : Z) :
  0 <= x < 1000 -> (1 <= List.length (digits_of x) <= 3)%nat.
Proof.
  intros Hx. destruct (digits_of_spec x ltac:(lia)) as (_ & _ & Hne & Hlen).
  assert (1 <= List.length (digits_of x))%nat.
  { destruct (digits_of x); [congruence|cbn [List.length]; lia]. }
  split; [assumption|].
  destruct (Z.eq_dec x 0) as [->|Hz]; [cbn; lia|].
  specialize (Hlen ltac:(lia)).
  destruct (le_gt_dec (List.length (digits_of x)) 3) as [|Hgt]; [assumption|exfalso].
  assert (10 ^ 3 <= 10 ^ (Z.of_nat (List.length (digits_of x)) - 1))
    by (apply Z.pow_le_mono_r; lia).
  change (10 ^ 3) with 1000 in *. lia.
Qed.

(** The four notations, for the digits [ds] of a positive integer. *)
Lemma format_digits_shape (ds : jsstring) (n : Z) :
  all_digits ds -> ds <> [] -> -998 <= n <= 1000 ->
  exists I rest, format_digits ds n = I ++ rest /\ all_digits I /\ tail_of I rest.
Proof.
  intros Hd Hne Hn. unfold format_digits.
  set (k := Z.of_nat (List.length ds)).
  assert (Hk : 1 <= k).
  { unfold k. destruct ds; [congruence|cbn [List.length]; lia]. }
  destruct ((k <=? n) && (n <=? 21)) eqn:EA.
  { exists (ds ++ zeros (n - k)), []. rewrite app_nil_r.
    repeat split; [|constructor].
    apply all_digits_app. split; [exact Hd|apply zeros_digits]. }
  destruct ((0 <? n) && (n <=? 21)) eqn:EB.
  { apply andb_prop in EB. destruct EB as [E1 E2].
    apply Z.ltb_lt in E1. apply Z.leb_le in E2.
    assert (n < k).
    { destruct (k <=? n) eqn:E; [|apply Z.leb_gt in E; lia].
      cbn [andb] in EA. apply Z.leb_gt in EA. lia. }
    pose proof (firstn_skipn (Z.to_nat n) ds) as Hsplit.
    rewrite <- Hsplit in Hd. apply all_digits_app in Hd. destruct Hd as [H1 H2].
    exists (firstn (Z.to_nat n) ds), ("."%char :: skipn (Z.to_nat n) ds).
    repeat split; [exact H1|].
    constructor; [|now apply all_digits_no_dot].
    intros H0. apply (f_equal (@List.length ascii)) in H0.
    rewrite length_firstn in H0. cbn [List.length] in H0. unfold k in *. lia. }
  destruct ((-6 <? n) && (n <=? 0)) eqn:EC.
  { exists ["0"%char], ("."%char :: zeros (- n) ++ ds).
    repeat split.
    constructor; [discriminate|].
    apply all_digits_no_dot, all_digits_app. split; [apply zeros_digits|exact Hd]. }
  assert (HE : all_digits (digits_of (Z.abs (n - 1))) /\
               (1 <= List.length (digits_of (Z.abs (n - 1))) <= 3)%nat).
  { split; [apply digits_of_spec; lia|apply digits_of_short; lia]. }
  destruct HE as [HE1 HE2].
  set (sg := if n - 1 <? 0 then "-"%char else "+"%char).
  assert (Hsg : sg = "+"%char \/ sg = "-"%char)
    by (unfold sg; destruct (n - 1 <? 0); auto).
  destruct ds as [|d [|d' r]]; [congruence| |].
  - exists [d], ("e"%char :: sg :: digits_of (Z.abs (n - 1))).
    repeat split; [exact Hd|]. econstructor; eauto.
  - exists [d], ("."%char :: (d' :: r) ++ "e"%char :: sg :: digits_of (Z.abs (n - 1))).
    apply all_digits_cons in Hd. destruct Hd as [Hd Hr].
    repeat split.
    + apply all_digits_cons. split; [exact Hd|reflexivity].
    + constructor; [discriminate|].
      apply no_dot_app. split; [now apply all_digits_no_dot|].
      change ("e"%char :: sg :: digits_of (Z.abs (n - 1)))
        with (["e"%char; sg] ++ digits_of (Z.abs (n - 1))).
      apply no_dot_app. split; [destruct Hsg as [->| ->]; reflexivity|].
      now apply all_digits_no_dot.
Qed.

Lemma Number_toString_shape (num : number) :
  canonical num = true ->
  exists sign I rest,
    Number_toString num = sign ++ I ++ rest /\
    (sign = [] \/ sign = ["-"%char]) /\ all_digits I /\ tail_of I rest.
Proof.
  intros Hc. destruct num as [|s|s|s m e].
  - exists [], [], (str "NaN"). repeat split; auto. constructor; auto.
  - exists (if s then ["-"%char] else []), [], (str "Infinity").
    destruct s; repeat split; auto; constructor; auto.
  - exists [], ["0"%char], []. repeat split; auto. constructor.
  - pose proof (shortest_digits_pos m e) as Hp.
    pose proof (shortest_digits_exponent s m e Hc) as Hn.
    unfold Number_toString. destruct (shortest_digits m e) as [d n].
    cbn [fst snd] in *.
    destruct (digits_of_spec d ltac:(lia)) as (Hd & _ & Hne & _).
    destruct (format_digits_shape (digits_of d) n Hd Hne Hn) as (I & rest & Hf & HI & Ht).
    exists (if s then ["-"%char] else []), I, rest. rewrite Hf.
    destruct s; repeat split; auto.
Qed.

(** ** Grouping keeps the digits *)

Lemma Locale_separators (format : option jsstring) (f : NumberFormat) :
  getFormat format = Locale f ->
  filter is_digit (thousand f) = [] /\ filter is_digit (decimal f) = [] /\
  (exists c, thousand f = [c] /\ is_digit c = false /\ is_word c = false /\
             In c [","%char; "."%char; " "%char; "'"%char]).
Proof.
  intros H. apply getFormat_Locale in H. destruct H as [H| ->].
  - cbn [map FORMAT_LOCALES snd In] in H.
    repeat match type of H with
           | _ \/ _ => destruct H as [<-|H]
           | False => destruct H
           end; (split; [reflexivity|split; [reflexivity|]]);
      eexists; (split; [reflexivity|]); cbn [In]; auto 10.
  - split; [reflexivity|split; [reflexivity|]].
    eexists; (split; [reflexivity|]); cbn [In]; auto 10.
Qed.

Lemma filter_digits_group_spec (sep ds : jsstring) :
  filter is_digit sep = [] ->
  filter is_digit (group_spec sep ds) = filter is_digit ds.
Proof.
  intros Hsep. induction ds as [|c r IH]; [reflexivity|].
  rewrite group_spec_cons. cbn [filter]. rewrite filter_app, IH.
  destruct (_ && _); [rewrite Hsep|]; reflexivity.
Qed.

Lemma filter_digits_replace_first (rep s : jsstring) :
  filter is_digit rep = [] ->
  filter is_digit (replace_first "." rep s) = filter is_digit s.
Proof.
  intros Hrep. induction s as [|c r IH]; [reflexivity|].
  cbn [replace_first]. destruct (Ascii.eqb c ".") eqn:E.
  - apply Ascii.eqb_eq in E. subst c. rewrite filter_app, Hrep. reflexivity.
  - cbn [filter]. rewrite IH. reflexivity.
Qed.

(** Counting from the right: the last three digits of a longer run are
    set off by a separator, and so on leftwards; a run of three digits
    or fewer is left as it is. *)
Lemma group_spec_short (sep ds : jsstring) :
  (List.length ds <= 3)%nat -> group_spec sep ds = ds.
Proof.
  intros H. destruct ds as [|a [|b [|c [|d r]]]]; cbn [List.length] in H;
    try lia; reflexivity.
Qed.

Lemma group_spec_last_three (sep ds : jsstring) (a b c : ascii) :
  ds <> [] ->
  group_spec sep (ds ++ [a; b; c]) = group_spec sep ds ++ sep ++ [a; b; c].
Proof.
  induction ds as [|d r IH]; intros Hne; [congruence|].
  cbn [app]. rewrite !group_spec_cons. rewrite length_app. cbn [List.length].
  replace (Z.of_nat (List.length r + 3)) with (Z.of_nat (List.length r) + 1 * 3) by lia.
  rewrite Z.mod_add by lia.
  replace (0 <? Z.of_nat (List.length r) + 1 * 3) with true
    by (symmetry; apply Z.ltb_lt; lia).
  destruct r as [|d' r'].
  - cbn [List.length app group_spec]. reflexivity.
  - rewrite (IH ltac:(discriminate)).
    replace (0 <? Z.of_nat (List.length (d' :: r'))) with true
      by (symmetry; apply Z.ltb_lt; cbn [List.length]; lia).
    cbn [andb app]. rewrite app_assoc. reflexivity.
Qed.

Lemma span_digits_app (ds rest : jsstring) :
  all_digits ds ->
  match rest with c :: _ => is_digit c = false | [] => True end ->
  span_digits (ds ++ rest) = (ds, rest).
Proof.
  intros Hd Hr. induction ds as [|c ds IH]; cbn [app].
  - destruct rest as [|c r]; [reflexivity|]. cbn [span_digits]. now rewrite Hr.
  - apply all_digits_cons in Hd. destruct Hd as [Hc Hd].
    cbn [span_digits]. rewrite Hc, (IH Hd). reflexivity.
Qed.

Lemma span_digits_all (ds : jsstring) : all_digits ds -> span_digits ds = (ds, []).
Proof.
  intros Hd. rewrite <- (app_nil_r ds) at 1. now apply span_digits_app.
Qed.

Lemma tail_of_head (I rest : jsstring) :
  tail_of I rest -> match rest with c :: _ => is_digit c = false | [] => True end.
Proof.
  intros [|F _ _|d sg E _ _ _ _|w _ [->| ->]]; try reflexivity; exact I.
Qed.

Lemma split_sign_shape (sign I rest : jsstring) :
  sign = [] \/ sign = ["-"%char] -> all_digits I -> tail_of I rest ->
  split_sign (sign ++ I ++ rest) = (sign, I ++ rest).
Proof.
  intros [->| ->] HI Ht; [|reflexivity]. cbn [app].
  destruct I as [|d I'].
  - destruct Ht as [|F HIne _|d sg E HId _ _ _|w _ [->| ->]];
      try reflexivity; congruence.
  - apply all_digits_cons in HI. destruct HI as [Hd _].
    cbn [app split_sign]. destruct (Ascii.eqb d "-") eqn:E; [|reflexivity].
    apply Ascii.eqb_eq in E. subst d. discriminate.
Qed.

(** C5.  For every binary64 number and every resolved configuration,
    [formatNumber] keeps the sign of the number's decimal string,
    groups the run of digits that follows it (the integer part) with
    the thousand separator at every third place counted from the
    right, never before the first digit, and replaces the dot before
    the fraction by the decimal separator; the digits of the result
    are those of the decimal string, in order.
    [formatNumber(1234567.89, de)] is ["1.234.567,89"]. *)
Theorem formatNumber_groups :
  (forall (num : number) (options : FormatNumberOptions) (f : NumberFormat),
      canonical num = true ->
      getFormat (Some (default (str "en") (fn_formatType options))) = Locale f ->
      let sign := fst (split_sign (Number_toString num)) in
      let I := fst (span_digits (snd (split_sign (Number_toString num)))) in
      let rest := snd (span_digits (snd (split_sign (Number_toString num)))) in
      Number_toString num = sign ++ I ++ rest /\
      all_digits I /\ tail_of I rest /\
      formatNumber num options
      = sign ++ group_spec (thousand f) I ++ replace_first "." (decimal f) rest /\
      filter is_digit (formatNumber num options)
      = filter is_digit (Number_toString num)) /\
  (forall sep ds, (List.length ds <= 3)%nat -> group_spec sep ds = ds) /\
  (forall sep ds a b c,
      ds <> [] ->
      group_spec sep (ds ++ [a; b; c]) = group_spec sep ds ++ sep ++ [a; b; c]) /\
  formatNumber (StringToNumber (str "1234567.89")) {| fn_formatType := Some (str "de") |}
  = str "1.234.567,89" /\
  formatNumber (StringToNumber (str "1234567.89")) {| fn_formatType := Some (str "fr") |}
  = str "1 234 567,89".
Proof.
  split; [|split; [exact group_spec_short|split; [exact group_spec_last_three|]]].
  - intros num options f Hc Hf.
    destruct (Number_toString_shape num Hc) as (sign & I & rest & Hs & Hsign & HI & Ht).
    pose proof (formatNumber_string num options f sign I rest Hf Hs Hsign HI Ht) as Hfmt.
    destruct (Locale_separators _ f Hf) as (Hth & Hdec & _).
    assert (E1 : split_sign (Number_toString num) = (sign, I ++ rest))
      by (rewrite Hs; apply split_sign_shape; assumption).
    assert (E2 : span_digits (I ++ rest) = (I, rest))
      by (apply span_digits_app; [exact HI|exact (tail_of_head I rest Ht)]).
    cbv zeta. rewrite E1. cbn [fst snd]. rewrite E2. cbn [fst snd].
    split; [exact Hs|]. split; [exact HI|]. split; [exact Ht|].
    split; [exact Hfmt|].
    rewrite Hfmt, Hs, !filter_app.
    rewrite filter_digits_group_spec, filter_digits_replace_first by assumption.
    reflexivity.
  - split; vm_compute; reflexivity.
Qed.

Lemma formatNumber_groups_witness :
  canonical (of_Z (-1234567)) = true /\
  split_sign (Number_toString (of_Z (-1234567))) = (str "-", str "1234567") /\
  span_digits (str "1234567") = (str "1234567", []) /\
  formatNumber (of_Z (-1234567)) {| fn_formatType := Some (str "ch") |}
  = str "-" ++ group_spec (str "'") (str "1234567") ++ [] /\
  formatNumber (of_Z (-1234567)) {| fn_formatType := Some (str "ch") |}
  = str "-1'234'567".
Proof.
  assert (H : canonical (of_Z (-1234567)) = true) by (vm_compute; reflexivity).
  assert (H1 : split_sign (Number_toString (of_Z (-1234567))) = (str "-", str "1234567"))
    by (vm_compute; reflexivity).
  assert (H2 : span_digits (str "1234567") = (str "1234567", []))
    by (vm_compute; reflexivity).
  split; [exact H|]. split; [exact H1|]. split; [exact H2|].
  pose proof (proj1 formatNumber_groups (of_Z (-1234567))
                {| fn_formatType := Some (str "ch") |}
                {| decimal := "."; thousand := "'"; system := international |}
                H eq_refl) as Hg.
  cbv zeta in Hg. rewrite H1 in Hg. cbn [fst snd] in Hg. rewrite H2 in Hg.
  cbn [fst snd] in Hg.
  destruct Hg as (_ & _ & _ & Hf & _).
  split; [exact Hf|]. vm_compute. reflexivity.
Defined.

(** ** Reading a numeral back *)

Lemma parse_exponent_signed (sg : ascii) (E : jsstring) :
  sg = "+"%char \/ sg = "-"%char -> all_digits E -> E <> [] ->
  parse_exponent ("e"%char :: sg :: E)
  = Some (if Ascii.eqb sg "-" then - digits_val E else digits_val E).
Proof.
  intros Hsg HE Hne. cbn [parse_exponent].
  change (Ascii.eqb "e" "e" || Ascii.eqb "e" "E")%bool with true. cbv iota.
  destruct Hsg as [->| ->].
  - change (Ascii.eqb "+" "-") with false. change (Ascii.eqb "+" "+") with true.
    cbv iota. rewrite (span_digits_all E HE). destruct E; [congruence|reflexivity].
  - change (Ascii.eqb "-" "-") with true.
    cbv iota. rewrite (span_digits_all E HE). destruct E; [congruence|reflexivity].
Qed.

Lemma not_Infinity (d : ascii) (l : jsstring) :
  is_digit d = true -> jsstring_eqb (d :: l) "Infinity" = false.
Proof.
  intros Hd. apply jsstring_eqb_neq. intros H. injection H as -> _. discriminate.
Qed.

(** A numeral without a fraction: digits, then nothing or an exponent. *)
Lemma parse_unsigned_integer (neg : bool) (I X : jsstring) (ex : Z) :
  all_digits I -> I <> [] -> digits_val I <> 0 ->
  parse_exponent X = Some ex ->
  match X with
  | c :: _ => is_digit c = false /\ Ascii.eqb c "." = false
  | [] => True
  end ->
  parse_unsigned neg (I ++ X) = round_decimal neg (digits_val I) ex.
Proof.
  intros HI Hne Hv Hx HX. unfold parse_unsigned.
  destruct I as [|d I'] eqn:EI; [congruence|]. rewrite <- EI in *.
  assert (Hd : is_digit d = true).
  { rewrite EI in HI. now apply all_digits_cons in HI. }
  replace (jsstring_eqb (I ++ X) "Infinity") with false
    by (rewrite EI; symmetry; now apply not_Infinity).
  rewrite span_digits_app; [|exact HI|destruct X; tauto].
  assert (Hr : match X with
               | [] => ([], X)
               | c :: t => if Ascii.eqb c "." then span_digits t else ([], X)
               end = (@nil ascii, X)).
  { destruct X as [|c t]; [reflexivity|]. destruct HX as [_ ->]. reflexivity. }
  rewrite Hr, app_nil_r, Hx. cbn [List.length].
  destruct I as [|d0 I0]; [congruence|].
  apply Z.eqb_neq in Hv. rewrite Hv. f_equal. cbn. lia.
Qed.

(** A numeral with a fraction. *)
Lemma parse_unsigned_fraction (neg : bool) (I F X : jsstring) (ex : Z) :
  all_digits I -> I <> [] -> all_digits F -> digits_val (I ++ F) <> 0 ->
  parse_exponent X = Some ex ->
  match X with c :: _ => is_digit c = false | [] => True end ->
  parse_unsigned neg (I ++ "."%char :: F ++ X)
  = round_decimal neg (digits_val (I ++ F)) (ex - Z.of_nat (List.length F)).
Proof.
  intros HI Hne HF Hv Hx HX. unfold parse_unsigned.
  destruct I as [|d I'] eqn:EI; [congruence|]. rewrite <- EI in *.
  assert (Hd : is_digit d = true).
  { rewrite EI in HI. now apply all_digits_cons in HI. }
  replace (jsstring_eqb (I ++ "."%char :: F ++ X) "Infinity") with false
    by (rewrite EI; symmetry; now apply not_Infinity).
  rewrite span_digits_app; [|exact HI|reflexivity].
  change (Ascii.eqb "." ".") with true. cbv iota.
  rewrite (span_digits_app F X HF HX), Hx.
  destruct (I ++ F) as [|c r] eqn:E.
  { apply app_eq_nil in E. destruct E. congruence. }
  apply Z.eqb_neq in Hv. rewrite Hv. reflexivity.
Qed.

Lemma round_decimal_shift (neg : bool) (s z : Z) :
  0 <= z -> round_decimal neg (s * 10 ^ z) 0 = round_decimal neg s z.
Proof.
  intros Hz. unfold round_decimal.
  replace (0 <=? z) with true by (symmetry; apply Z.leb_le; lia).
  change (0 <=? 0) with true. cbv iota. f_equal. rewrite Z.pow_0_r. lia.
Qed.

(** Whatever the notation, the numeral reads back as the decimal it
    was written from. *)
Lemma parse_format_digits (neg : bool) (s n : Z) :
  0 < s ->
  parse_unsigned neg (format_digits (digits_of s) n)
  = round_decimal neg s (n - Z.of_nat (List.length (digits_of s))).
Proof.
  intros Hs. destruct (digits_of_spec s ltac:(lia)) as (Hd & Hv & Hne & _).
  set (ds := digits_of s) in *. unfold format_digits.
  set (k := Z.of_nat (List.length ds)).
  assert (Hk : 1 <= k).
  { unfold k. destruct ds; [congruence|cbn [List.length]; lia]. }
  destruct ((k <=? n) && (n <=? 21)) eqn:EA.
  { apply andb_prop in EA. destruct EA as [E1 _]. apply Z.leb_le in E1.
    destruct (zeros_digits (n - k)) as [Hz1 Hz2].
    assert (Hval : digits_val (ds ++ zeros (n - k)) = s * 10 ^ (n - k)).
    { rewrite digits_val_app, Hz2, zeros_length, Hv, Z2Nat.id by lia. lia. }
    rewrite <- (app_nil_r (ds ++ zeros (n - k))).
    rewrite (parse_unsigned_integer neg _ [] 0).
    - rewrite Hval. apply round_decimal_shift. lia.
    - apply all_digits_app. split; assumption.
    - intros H. apply app_eq_nil in H. destruct H. congruence.
    - rewrite Hval. assert (0 < 10 ^ (n - k)) by (apply Z.pow_pos_nonneg; lia). nia.
    - reflexivity.
    - exact I. }
  destruct ((0 <? n) && (n <=? 21)) eqn:EB.
  { apply andb_prop in EB. destruct EB as [E1 E2].
    apply Z.ltb_lt in E1. apply Z.leb_le in E2.
    assert (Hnk : n < k).
    { destruct (k <=? n) eqn:E; [|apply Z.leb_gt in E; lia].
      cbn [andb] in EA. apply Z.leb_gt in EA. lia. }
    pose proof (firstn_skipn (Z.to_nat n) ds) as Hsplit.
    pose proof Hd as Hd'. rewrite <- Hsplit in Hd'.
    apply all_digits_app in Hd'. destruct Hd' as [H1 H2].
    rewrite <- (app_nil_r (skipn (Z.to_nat n) ds)).
    rewrite (parse_unsigned_fraction neg _ _ [] 0); try assumption; try reflexivity.
    - rewrite Hsplit, Hv, length_skipn. f_equal. unfold k. lia.
    - intros H0. apply (f_equal (@List.length ascii)) in H0.
      rewrite length_firstn in H0. cbn [List.length] in H0. unfold k in *. lia.
    - rewrite Hsplit, Hv. lia. }
  destruct ((-6 <? n) && (n <=? 0)) eqn:EC.
  { apply andb_prop in EC. destruct EC as [E1 E2].
    apply Z.ltb_lt in E1. apply Z.leb_le in E2.
    destruct (zeros_digits (- n)) as [Hz1 Hz2].
    assert (Hval : digits_val (["0"%char] ++ zeros (- n) ++ ds) = s).
    { rewrite !digits_val_app, Hz2, Hv.
      change (digits_val ["0"%char]) with 0. lia. }
    change ("0"%char :: "."%char :: zeros (- n) ++ ds)
      with (["0"%char] ++ "."%char :: zeros (- n) ++ ds).
    rewrite <- (app_nil_r (zeros (- n) ++ ds)).
    rewrite (parse_unsigned_fraction neg _ _ [] 0); try reflexivity.
    - rewrite Hval, length_app, zeros_length. f_equal. unfold k. lia.
    - discriminate.
    - apply all_digits_app. split; assumption.
    - rewrite Hval. lia. }
  assert (HE : all_digits (digits_of (Z.abs (n - 1))) /\
               digits_val (digits_of (Z.abs (n - 1))) = Z.abs (n - 1) /\
               digits_of (Z.abs (n - 1)) <> []).
  { destruct (digits_of_spec (Z.abs (n - 1)) ltac:(lia)) as (H1 & H2 & H3 & _). auto. }
  destruct HE as (HE1 & HE2 & HE3).
  set (sg := if n - 1 <? 0 then "-"%char else "+"%char).
  assert (Hsg : sg = "+"%char \/ sg = "-"%char)
    by (unfold sg; destruct (n - 1 <? 0); auto).
  assert (Hex : parse_exponent ("e"%char :: sg :: digits_of (Z.abs (n - 1)))
                = Some (n - 1)).
  { rewrite (parse_exponent_signed sg _ Hsg HE1 HE3), HE2. f_equal.
    unfold sg. destruct (n - 1 <? 0) eqn:E.
    - apply Z.ltb_lt in E. change (Ascii.eqb "-" "-") with true. cbv iota. lia.
    - apply Z.ltb_ge in E. change (Ascii.eqb "+" "-") with false. cbv iota. lia. }
  destruct ds as [|d [|d' r]] eqn:Eds; [congruence| |].
  - change (d :: "e"%char :: sg :: digits_of (Z.abs (n - 1)))
      with ([d] ++ "e"%char :: sg :: digits_of (Z.abs (n - 1))).
    rewrite (parse_unsigned_integer neg [d] _ (n - 1)); try assumption.
    + rewrite Hv. f_equal; unfold k; cbn [List.length]; lia.
    + rewrite Hv. lia.
    + split; reflexivity.
  - change (d :: "."%char :: (d' :: r) ++ "e"%char :: sg :: digits_of (Z.abs (n - 1)))
      with ([d] ++ "."%char :: (d' :: r) ++ "e"%char :: sg :: digits_of (Z.abs (n - 1))).
    apply all_digits_cons in Hd. destruct Hd as [Hd0 Hr].
    rewrite (parse_unsigned_fraction neg [d] (d' :: r) _ (n - 1)); try assumption.
    + change ([d] ++ d' :: r) with (d :: d' :: r). rewrite Hv.
      f_equal; unfold k; cbn [List.length]; lia.
    + apply all_digits_cons. split; [exact Hd0|reflexivity].
    + discriminate.
    + change ([d] ++ d' :: r) with (d :: d' :: r). rewrite Hv. lia.
    + reflexivity.
Qed.

(** ** Rounding a representable value *)

Lemma pow2_le_mono (a b p q : Z) :
  0 < p -> 0 < q -> b <= a -> pow2_le a p q -> pow2_le b p q.
Proof.
  intros Hp Hq Hba. unfold pow2_le.
  destruct (0 <=? a) eqn:Ea, (0 <=? b) eqn:Eb;
    rewrite ?Z.leb_le, ?Z.leb_gt in *; intros H.
  - assert (2 ^ b <= 2 ^ a) by (apply Z.pow_le_mono_r; lia).
    assert (q * 2 ^ b <= q * 2 ^ a) by (apply Z.mul_le_mono_nonneg_l; lia). lia.
  - assert (0 < 2 ^ a) by (apply Z.pow_pos_nonneg; lia).
    assert (0 < 2 ^ (- b)) by (apply Z.pow_pos_nonneg; lia).
    assert (q * 1 <= q * 2 ^ a) by (apply Z.mul_le_mono_nonneg_l; lia).
    assert (p * 1 <= p * 2 ^ (- b)) by (apply Z.mul_le_mono_nonneg_l; lia). lia.
  - lia.
  - assert (2 ^ (- a) <= 2 ^ (- b)) by (apply Z.pow_le_mono_r; lia).
    assert (p * 2 ^ (- a) <= p * 2 ^ (- b)) by (apply Z.mul_le_mono_nonneg_l; lia). lia.
Qed.

Lemma log2_ratio_spec (p q : Z) :
  0 < p -> 0 < q ->
  pow2_le (log2_ratio p q) p q /\ ~ pow2_le (log2_ratio p q + 1) p q.
Proof.
  intros Hp Hq. unfold log2_ratio, pow2_le.
  pose proof (Z.log2_spec p Hp) as [Hp1 Hp2].
  pose proof (Z.log2_spec q Hq) as [Hq1 Hq2].
  pose proof (Z.log2_nonneg p). pose proof (Z.log2_nonneg q).
  set (lp := Z.log2 p) in *. set (lq := Z.log2 q) in *.
  rewrite <- !Z.add_1_r in *. clearbody lp lq.
  assert (P2 : forall x, 0 <= x -> 0 < 2 ^ x) by (intros; apply Z.pow_pos_nonneg; lia).
  destruct (0 <=? lp - lq) eqn:Ed; rewrite ?Z.leb_le, ?Z.leb_gt in Ed.
  - destruct (p <? q * 2 ^ (lp - lq)) eqn:Eb; rewrite ?Z.ltb_lt, ?Z.ltb_ge in Eb.
    + replace (lp - lq - 1 + 1) with (lp - lq) by lia.
      replace (0 <=? lp - lq) with true by (symmetry; apply Z.leb_le; lia).
      split; [|lia].
      destruct (0 <=? lp - lq - 1) eqn:E1; rewrite ?Z.leb_le, ?Z.leb_gt in E1.
      * assert (Hpow : 2 ^ (lq + 1) * 2 ^ (lp - lq - 1) = 2 ^ lp)
          by (rewrite <- Z.pow_add_r by lia; f_equal; lia).
        pose proof (P2 (lp - lq - 1) ltac:(lia)). nia.
      * assert (lp = lq) by lia. subst lp.
        replace (- (lq - lq - 1)) with 1 by lia.
        rewrite Z.pow_add_r in Hq2 by lia. change (2 ^ 1) with 2 in *. lia.
    + replace (0 <=? lp - lq + 1) with true by (symmetry; apply Z.leb_le; lia).
      replace (0 <=? lp - lq) with true by (symmetry; apply Z.leb_le; lia).
      split; [exact Eb|].
      assert (Hpow : 2 ^ lq * 2 ^ (lp - lq + 1) = 2 ^ (lp + 1))
        by (rewrite <- Z.pow_add_r by lia; f_equal; lia).
      pose proof (P2 (lp - lq + 1) ltac:(lia)). nia.
  - destruct (p * 2 ^ (- (lp - lq)) <? q) eqn:Eb; rewrite ?Z.ltb_lt, ?Z.ltb_ge in Eb.
    + replace (lp - lq - 1 + 1) with (lp - lq) by lia.
      replace (0 <=? lp - lq - 1) with false by (symmetry; apply Z.leb_gt; lia).
      replace (0 <=? lp - lq) with false by (symmetry; apply Z.leb_gt; lia).
      split; [|lia].
      assert (Hpow : 2 ^ lp * 2 ^ (- (lp - lq - 1)) = 2 ^ (lq + 1))
        by (rewrite <- Z.pow_add_r by lia; f_equal; lia).
      pose proof (P2 (- (lp - lq - 1)) ltac:(lia)). nia.
    + replace (0 <=? lp - lq) with false by (symmetry; apply Z.leb_gt; lia).
      split; [exact Eb|].
      destruct (0 <=? lp - lq + 1) eqn:E1; rewrite ?Z.leb_le, ?Z.leb_gt in E1.
      * assert (lp + 1 = lq) by lia. replace (lp - lq + 1) with 0 by lia.
        rewrite Z.pow_0_r. replace (lp + 1) with lq in Hp2 by lia. lia.
      * assert (Hpow : 2 ^ (lp + 1) * 2 ^ (- (lp - lq + 1)) = 2 ^ lq)
          by (rewrite <- Z.pow_add_r by lia; f_equal; lia).
        pose proof (P2 (- (lp - lq + 1)) ltac:(lia)). nia.
Qed.

Lemma log2_ratio_unique (p q T : Z) :
  0 < p -> 0 < q -> pow2_le T p q -> ~ pow2_le (T + 1) p q -> log2_ratio p q = T.
Proof.
  intros Hp Hq H1 H2. destruct (log2_ratio_spec p q Hp Hq) as [H3 H4].
  destruct (Z.lt_trichotomy (log2_ratio p q) T) as [H|[H|H]]; [exfalso| exact H |exfalso].
  - apply H4. apply (pow2_le_mono T); auto. lia.
  - apply H2. apply (pow2_le_mono (log2_ratio p q)); auto. lia.
Qed.

Lemma exact_ratio_log2 (p q : Z) (m : positive) (e : Z) :
  0 < p -> 0 < q -> exact_ratio p q m e ->
  log2_ratio p q = Z.log2 (Zpos m) + e.
Proof.
  intros Hp Hq Hx. apply log2_ratio_unique; auto; unfold pow2_le, exact_ratio in *.
  all: pose proof (Z.log2_spec (Zpos m) ltac:(lia)) as [Hm1 Hm2];
    pose proof (Z.log2_nonneg (Zpos m)) as Hl;
    rewrite <- Z.add_1_r in Hm2;
    set (lm := Z.log2 (Zpos m)) in *; clearbody lm;
    assert (P2 : forall x, 0 <= x -> 0 < 2 ^ x)
      by (intros; apply Z.pow_pos_nonneg; lia).
  - destruct (0 <=? e) eqn:Ee; rewrite ?Z.leb_le, ?Z.leb_gt in Ee.
    + replace (0 <=? lm + e) with true by (symmetry; apply Z.leb_le; lia).
      rewrite Z.pow_add_r by lia. pose proof (P2 e Ee). subst p. nia.
    + pose proof (P2 (- e) ltac:(lia)) as He.
      destruct (0 <=? lm + e) eqn:ET; rewrite ?Z.leb_le, ?Z.leb_gt in ET.
      * assert (Hpow : 2 ^ (lm + e) * 2 ^ (- e) = 2 ^ lm)
          by (rewrite <- Z.pow_add_r by lia; f_equal; lia).
        apply (Z.mul_le_mono_pos_r _ _ (2 ^ (- e))); [exact He|].
        rewrite Hx, <- Z.mul_assoc, Hpow. nia.
      * assert (Hpow : 2 ^ (- (lm + e)) * 2 ^ lm = 2 ^ (- e))
          by (rewrite <- Z.pow_add_r by lia; f_equal; lia).
        pose proof (P2 lm Hl) as Hlm.
        apply (Z.mul_le_mono_pos_r _ _ (2 ^ lm)); [exact Hlm|].
        rewrite <- Z.mul_assoc, Hpow, Hx. nia.
  - destruct (0 <=? e) eqn:Ee; rewrite ?Z.leb_le, ?Z.leb_gt in Ee.
    + replace (0 <=? lm + e + 1) with true by (symmetry; apply Z.leb_le; lia).
      replace (lm + e + 1) with (lm + 1 + e) by lia.
      rewrite Z.pow_add_r by lia. pose proof (P2 e Ee). subst p. nia.
    + pose proof (P2 (- e) ltac:(lia)) as He.
      destruct (0 <=? lm + e + 1) eqn:ET; rewrite ?Z.leb_le, ?Z.leb_gt in ET.
      * assert (Hpow : 2 ^ (lm + e + 1) * 2 ^ (- e) = 2 ^ (lm + 1))
          by (rewrite <- Z.pow_add_r by lia; f_equal; lia).
        intros Hle.
        apply (Z.mul_le_mono_pos_r _ _ (2 ^ (- e)) He) in Hle.
        rewrite Hx, <- Z.mul_assoc, Hpow in Hle. nia.
      * assert (Hpow : 2 ^ (- (lm + e + 1)) * 2 ^ (lm + 1) = 2 ^ (- e))
          by (rewrite <- Z.pow_add_r by lia; f_equal; lia).
        pose proof (P2 (lm + 1) ltac:(lia)) as Hlm.
        intros Hle.
        apply (Z.mul_le_mono_pos_r _ _ (2 ^ (lm + 1)) Hlm) in Hle.
        rewrite <- Z.mul_assoc, Hpow, Hx in Hle. nia.
Qed.

(** Rounding the exact value of a representable number gives it back. *)
Lemma round64_exact (neg : bool) (p q : Z) (m : positive) (e : Z) :
  canonical (Fin neg m e) = true -> 0 < p -> 0 < q -> exact_ratio p q m e ->
  round64 neg p q = Fin neg m e.
Proof.
  intros Hc Hp Hq Hx.
  destruct (canonical_bounds neg m e Hc) as (Hl & He & Hm & Hn).
  unfold round64. rewrite (exact_ratio_log2 p q m e Hp Hq Hx).
  replace (Z.max emin (Z.log2 (Zpos m) + e - (prec - 1))) with e
    by (unfold prec, emin, emax in *; lia).
  unfold exact_ratio in Hx.
  assert (Hq' : 0 < (if 0 <=? e then q * 2 ^ e else q)).
  { destruct (0 <=? e) eqn:E; [|exact Hq]. apply Z.leb_le in E.
    apply Z.mul_pos_pos; [exact Hq|apply Z.pow_pos_nonneg; lia]. }
  assert (Hnum : (if 0 <=? e then p else p * 2 ^ (- e))
                 = Zpos m * (if 0 <=? e then q * 2 ^ e else q)).
  { destruct (0 <=? e); rewrite Hx; ring. }
  rewrite Hnum.
  set (den := if 0 <=? e then q * 2 ^ e else q) in *. clearbody den.
  rewrite Z.div_mul by lia. rewrite Z.mod_mul by lia.
  replace (den <? 2 * 0) with false by (symmetry; apply Z.ltb_ge; lia).
  replace (den =? 2 * 0) with false by (symmetry; apply Z.eqb_neq; lia).
  cbn [orb andb].
  replace (Zpos m =? 2 ^ prec) with false
    by (symmetry; apply Z.eqb_neq; unfold prec; lia).
  replace (Zpos m =? 0) with false by (symmetry; apply Z.eqb_neq; lia).
  replace (emax <? e) with false by (symmetry; apply Z.ltb_ge; lia).
  reflexivity.
Qed.

Lemma round64_with_sign (neg : bool) (p q : Z) :
  round64 neg p q = with_sign neg (round64 false p q).
Proof.
  unfold round64.
  repeat match goal with
         | |- context [let '(_, _) := ?x in _] => destruct x
         | |- context [if ?c then _ else _] => destruct c
         end; reflexivity.
Qed.

Lemma round_decimal_with_sign (neg : bool) (s sc : Z) :
  round_decimal neg s sc = with_sign neg (round_decimal false s sc).
Proof. unfold round_decimal. destruct (0 <=? sc); apply round64_with_sign. Qed.

Lemma canonical_reads_back (neg : bool) (m : positive) (e : Z) :
  canonical (Fin neg m e) = true -> reads_back m e.
Proof.
  intros Hc. unfold reads_back, exact_digits.
  assert (Hc' : canonical (Fin false m e) = true) by exact Hc.
  destruct (0 <=? e) eqn:E; rewrite ?Z.leb_le, ?Z.leb_gt in E.
  - replace (Z.of_nat _ - Z.of_nat _) with 0 by lia.
    unfold round_decimal. change (0 <=? 0) with true. cbv iota.
    assert (0 < 2 ^ e) by (apply Z.pow_pos_nonneg; lia).
    apply (round64_exact false _ _ m e Hc').
    + rewrite Z.pow_0_r. nia.
    + lia.
    + unfold exact_ratio. replace (0 <=? e) with true by (symmetry; apply Z.leb_le; lia).
      rewrite Z.pow_0_r. ring.
  - match goal with
    | |- round_decimal false ?N ?sc = _ => replace sc with e by lia
    end.
    unfold round_decimal. replace (0 <=? e) with false by (symmetry; apply Z.leb_gt; lia).
    assert (0 < 5 ^ (- e)) by (apply Z.pow_pos_nonneg; lia).
    assert (0 < 10 ^ (- e)) by (apply Z.pow_pos_nonneg; lia).
    apply (round64_exact false _ _ m e Hc').
    + nia.
    + lia.
    + unfold exact_ratio. replace (0 <=? e) with false by (symmetry; apply Z.leb_gt; lia).
      change 10 with (5 * 2). rewrite Z.pow_mul_l. ring.
Qed.

(** ** Number(toString(x)) is x *)

Lemma format_digits_head (ds : jsstring) (n : Z) :
  all_digits ds -> ds <> [] ->
  exists c r, format_digits ds n = c :: r /\ is_digit c = true.
Proof.
  intros Hd Hne. destruct ds as [|d ds']; [congruence|].
  apply all_digits_cons in Hd. destruct Hd as [Hd _].
  unfold format_digits.
  destruct ((Z.of_nat (List.length (d :: ds')) <=? n) && (n <=? 21)).
  { cbn [app]. eauto. }
  destruct ((0 <? n) && (n <=? 21)) eqn:EB.
  { apply andb_prop in EB. destruct EB as [E1 _]. apply Z.ltb_lt in E1.
    destruct (Z.to_nat n) as [|k] eqn:Ek; [lia|]. cbn [firstn app]. eauto. }
  destruct ((-6 <? n) && (n <=? 0)).
  { eexists _, _. split; reflexivity. }
  destruct ds'; eauto.
Qed.

Lemma StringToNumber_unsigned (c : ascii) (r : jsstring) :
  is_digit c = true -> StringToNumber (c :: r) = parse_unsigned false (c :: r).
Proof.
  intros Hc. cbn [StringToNumber].
  destruct (Ascii.eqb c "-") eqn:E1.
  { apply Ascii.eqb_eq in E1. subst c. discriminate. }
  destruct (Ascii.eqb c "+") eqn:E2.
  { apply Ascii.eqb_eq in E2. subst c. discriminate. }
  reflexivity.
Qed.

(** Every binary64 value other than [-0] is read back from its own
    decimal string. *)
Lemma Number_roundtrip (x : number) :
  canonical x = true -> x <> Zero true ->
  StringToNumber (Number_toString x) = x.
Proof.
  intros Hc Hz. destruct x as [|s|s|s m e].
  - reflexivity.
  - destruct s; reflexivity.
  - destruct s; [congruence|reflexivity].
  - pose proof (shortest_from_spec 17 1 m e ltac:(lia) (canonical_reads_back s m e Hc))
      as Hs.
    fold (shortest_digits m e) in Hs. unfold Number_toString.
    destruct (shortest_digits m e) as [d n]. destruct Hs as [Hd Hr].
    pose proof (parse_format_digits s d n Hd) as Hp.
    rewrite round_decimal_with_sign, Hr in Hp. cbn [with_sign] in Hp.
    destruct s.
    + cbn [app StringToNumber]. change (Ascii.eqb "-" "-") with true. exact Hp.
    + cbn [app].
      destruct (digits_of_spec d ltac:(lia)) as (H1 & _ & H2 & _).
      destruct (format_digits_head (digits_of d) n H1 H2) as (c & r & Hf & Hcd).
      rewrite Hf in *. rewrite (StringToNumber_unsigned c r Hcd). exact Hp.
Qed.

(** ** Numbers that sanitizing leaves alone *)

Lemma filter_all {A} (p : A -> bool) (l : list A) :
  forallb p l = true -> filter p l = l.
Proof.
  induction l as [|a l IH]; [reflexivity|]. cbn [forallb filter].
  intros H. apply andb_prop in H. destruct H as [Ha Hl].
  now rewrite Ha, IH.
Qed.

Lemma Number_toString_neg_zero : Number_toString (Zero true) = Number_toString (Zero false).
Proof. reflexivity. Qed.

Lemma number_eq_dec_zero (v : number) : v = Zero true \/ v <> Zero true.
Proof.
  destruct v as [|s|[|]|s m e]; try (right; discriminate). left. reflexivity.
Qed.

Lemma sanitize_plain (v : number) :
  canonical v = true -> v <> Zero true ->
  forallb (fun c => is_digit c || Ascii.eqb c ".") (Number_toString v) = true ->
  sanitize v = v.
Proof.
  intros Hc Hz Hs. unfold sanitize, strip_non_numeric.
  rewrite filter_all.
  - now apply Number_roundtrip.
  - rewrite forallb_forall in *. intros c Hin.
    unfold is_stripped. rewrite negb_involutive. now apply Hs.
Qed.

(** X1.  Sanitizing (printing the number, removing every character
    other than a digit or a dot, reading the rest back) returns the
    number itself when its decimal string holds only digits and dots,
    that is when it is not negative and not in exponent notation. *)
Theorem sanitize_plain_number (v : number) :
  canonical v = true -> v <> Zero true ->
  forallb (fun c => is_digit c || Ascii.eqb c ".") (Number_toString v) = true ->
  sanitize v = v.
Proof. exact (sanitize_plain v). Qed.

Lemma sanitize_plain_number_witness :
  canonical (StringToNumber (str "999.5")) = true /\
  StringToNumber (str "999.5") <> Zero true /\
  sanitize (StringToNumber (str "999.5")) = StringToNumber (str "999.5").
Proof.
  assert (H1 : canonical (StringToNumber (str "999.5")) = true)
    by (vm_compute; reflexivity).
  assert (H2 : StringToNumber (str "999.5") <> Zero true)
    by (vm_compute; discriminate).
  split; [exact H1|]. split; [exact H2|].
  apply (sanitize_plain_number _ H1 H2). vm_compute. reflexivity.
Defined.

Lemma sanitize_plain_string (v : number) :
  canonical v = true ->
  forallb (fun c => is_digit c || Ascii.eqb c ".") (Number_toString v) = true ->
  Number_toString (sanitize v) = Number_toString v /\
  (v <> Zero true -> sanitize v = v) /\
  (flt v (of_Z 1000) = true -> flt (sanitize v) (of_Z 1000) = true).
Proof.
  intros Hc Hs.
  destruct (number_eq_dec_zero v) as [->|Hz].
  - repeat split; try reflexivity. congruence.
  - rewrite (sanitize_plain v Hc Hz Hs). auto.
Qed.

(** X2.  Below one thousand, without the [precise] flag, [numify]
    returns the decimal string of its input unchanged, whatever the
    locale and the style, provided that string holds only digits and
    dots (the input is not negative and not in exponent notation). *)
Theorem numify_small_is_plain (v : number) (options : NumifyOptions) :
  canonical v = true ->
  forallb (fun c => is_digit c || Ascii.eqb c ".") (Number_toString v) = true ->
  flt v (of_Z 1000) = true ->
  default false (precise options) = false ->
  numify v options = Number_toString v.
Proof.
  intros Hc Hs Hlt Hp.
  destruct (sanitize_plain_string v Hc Hs) as (Hstr & _ & Hsmall).
  unfold numify. cbv zeta. rewrite (Hsmall Hlt), Hp. exact Hstr.
Qed.

Lemma numify_small_is_plain_witness :
  canonical (StringToNumber (str "999.5")) = true /\
  flt (StringToNumber (str "999.5")) (of_Z 1000) = true /\
  numify (StringToNumber (str "999.5"))
    {| formatType := Some (str "de"); precise := None; style := Some (str "long") |}
  = str "999.5".
Proof.
  assert (H1 : canonical (StringToNumber (str "999.5")) = true)
    by (vm_compute; reflexivity).
  assert (H2 : flt (StringToNumber (str "999.5")) (of_Z 1000) = true)
    by (vm_compute; reflexivity).
  split; [exact H1|]. split; [exact H2|].
  rewrite (numify_small_is_plain _
             {| formatType := Some (str "de"); precise := None;
                style := Some (str "long") |} H1);
    vm_compute; reflexivity.
Defined.

(** X3.  Below one thousand the first release returns its input itself,
    as a number and not as a string, when the input's decimal string
    holds only digits and dots. *)
Theorem legacy_small_is_input (v : number) :
  canonical v = true -> v <> Zero true ->
  forallb (fun c => is_digit c || Ascii.eqb c ".") (Number_toString v) = true ->
  flt v (of_Z 1000) = true ->
  Legacy.numify v = inl v.
Proof.
  intros Hc Hz Hs Hlt. unfold Legacy.numify. cbv zeta.
  rewrite (sanitize_plain v Hc Hz Hs), Hlt. reflexivity.
Qed.

Lemma legacy_small_is_input_witness :
  canonical (of_Z 42) = true /\ flt (of_Z 42) (of_Z 1000) = true /\
  Legacy.numify (of_Z 42) = inl (of_Z 42).
Proof.
  assert (H1 : canonical (of_Z 42) = true) by (vm_compute; reflexivity).
  assert (H2 : flt (of_Z 42) (of_Z 1000) = true) by (vm_compute; reflexivity).
  split; [exact H1|]. split; [exact H2|].
  apply (legacy_small_is_input _ H1); [vm_compute; discriminate| |exact H2].
  vm_compute. reflexivity.
Defined.

(** ** Below one thousand *)

Lemma sanitize_of_fabs (v : number) : sanitize v = sanitize (fabs v).
Proof.
  destruct v as [|s|s|s m e]; try reflexivity.
  - destruct s; reflexivity.
  - destruct s; [|reflexivity].
    unfold sanitize. cbn [fabs]. rewrite Number_toString_negative. reflexivity.
Qed.

Lemma canonical_fabs (v : number) : canonical (fabs v) = canonical v.
Proof. destruct v; reflexivity. Qed.

Lemma Number_toString_fabs (v : number) :
  flt v (Zero false) = false -> Number_toString (fabs v) = Number_toString v.
Proof.
  destruct v as [|s|s|s m e]; try reflexivity.
  - destruct s; [discriminate|reflexivity].
  - destruct s; [|reflexivity].
    unfold flt, fcompare. rewrite <- (Qopp_involutive (value (Zero false))).
    change (value (Fin true m e)) with (- value (Fin false m e))%Q.
    rewrite <- Qcompare_antisym.
    rewrite value_ratio. unfold Qcompare. cbn [value Qnum Qden Qopp CompOpp].
    destruct (ratio_of_pos m e) as [Hp _].
    destruct (_ ?= _) eqn:E; cbn [CompOpp]; try discriminate.
    + apply Z.compare_eq in E. lia.
    + rewrite Z.compare_lt_iff in E. lia.
Qed.

(** C3.  For an input of magnitude below one thousand that is not
    written in exponent notation, [numify] without options returns the
    decimal string of the input's magnitude: digits and at most a dot,
    no suffix and no separator.  For an input that is not negative
    this is the input's own decimal string; the sign of a negative
    input is lost. *)
Theorem numify_below_thousand (v : number) :
  canonical v = true ->
  forallb (fun c => is_digit c || Ascii.eqb c ".") (Number_toString (fabs v)) = true ->
  flt (fabs v) (of_Z 1000) = true ->
  numify v no_options = Number_toString (fabs v) /\
  forallb (fun c => is_digit c || Ascii.eqb c ".") (numify v no_options) = true /\
  (flt v (Zero false) = false -> numify v no_options = Number_toString v).
Proof.
  intros Hc Hs Hlt.
  assert (Hn : numify v no_options = Number_toString (fabs v)).
  { rewrite (numify_of_sanitized v (fabs v) no_options (sanitize_of_fabs v)).
    rewrite <- canonical_fabs in Hc.
    destruct (sanitize_plain_string (fabs v) Hc Hs) as (Hstr & _ & Hsmall).
    unfold numify. cbv zeta. rewrite (Hsmall Hlt). exact Hstr. }
  split; [exact Hn|]. split; [rewrite Hn; exact Hs|].
  intros Hpos. rewrite Hn. now apply Number_toString_fabs.
Qed.

Lemma numify_below_thousand_witness :
  canonical (StringToNumber (str "-12.5")) = true /\
  flt (fabs (StringToNumber (str "-12.5"))) (of_Z 1000) = true /\
  numify (StringToNumber (str "-12.5")) no_options = str "12.5".
Proof.
  assert (H1 : canonical (StringToNumber (str "-12.5")) = true)
    by (vm_compute; reflexivity).
  assert (H2 : flt (fabs (StringToNumber (str "-12.5"))) (of_Z 1000) = true)
    by (vm_compute; reflexivity).
  split; [exact H1|]. split; [exact H2|].
  rewrite (proj1 (numify_below_thousand _ H1 ltac:(vm_compute; reflexivity) H2)).
  vm_compute. reflexivity.
Defined.

(** Two inputs below one thousand that [numify] does not return as
    they are: [-5000], whose sign is removed before the comparison and
    which gets a suffix, and [1e-7], whose exponent digits are read as
    its value. *)
Lemma numify_below_thousand_not_input :
  flt (of_Z (-5000)) (of_Z 1000) = true /\
  Number_toString (of_Z (-5000)) = str "-5000" /\
  numify (of_Z (-5000)) no_options = str "5k" /\
  flt (StringToNumber (str "1e-7")) (of_Z 1000) = true /\
  Number_toString (StringToNumber (str "1e-7")) = str "1e-7" /\
  numify (StringToNumber (str "1e-7")) no_options = str "17".
Proof. repeat split; vm_compute; reflexivity. Qed.

(** ** The characters of a decimal string *)

Lemma all_digits_forallb (p : ascii -> bool) (s : jsstring) :
  (forall c, is_digit c = true -> p c = true) -> all_digits s -> forallb p s = true.
Proof.
  intros Hp Hs. unfold all_digits in Hs. rewrite forallb_forall in *.
  intros c Hc. apply Hp, Hs, Hc.
Qed.

Lemma format_digits_chars (p : ascii -> bool) (ds : jsstring) (n : Z) :
  (forall c, is_digit c = true -> p c = true) ->
  p "."%char = true -> p "e"%char = true -> p "+"%char = true ->
  p "-"%char = true ->
  all_digits ds -> forallb p (format_digits ds n) = true.
Proof.
  intros Hp Hdot He Hplus Hminus Hd.
  assert (HD : forall s, all_digits s -> forallb p s = true)
    by (intros s; now apply all_digits_forallb).
  assert (HE : forallb p ("e"%char :: (if n - 1 <? 0 then "-"%char else "+"%char)
                          :: digits_of (Z.abs (n - 1))) = true).
  { cbn [forallb]. rewrite He. destruct (n - 1 <? 0); rewrite ?Hplus, ?Hminus;
      cbn [andb]; apply HD, digits_of_spec; lia. }
  unfold format_digits.
  destruct (_ && _).
  { rewrite forallb_app, (HD ds Hd), (HD _ (proj1 (zeros_digits _))). reflexivity. }
  destruct (_ && _).
  { pose proof (firstn_skipn (Z.to_nat n) ds) as Hsplit.
    rewrite <- Hsplit in Hd. apply all_digits_app in Hd. destruct Hd as [H1 H2].
    rewrite forallb_app. cbn [forallb]. now rewrite (HD _ H1), (HD _ H2), Hdot. }
  destruct (_ && _).
  { cbn [forallb]. rewrite forallb_app, (HD ds Hd), (HD _ (proj1 (zeros_digits _))), Hdot.
    rewrite (Hp "0"%char eq_refl). reflexivity. }
  destruct ds as [|d [|d' r]]; [reflexivity| |].
  - apply all_digits_cons in Hd. destruct Hd as [Hd0 _].
    change (forallb p (d :: ?l)) with (p d && forallb p l).
    cbn [forallb] in *. now rewrite (Hp d Hd0), HE.
  - apply all_digits_cons in Hd. destruct Hd as [Hd0 Hr].
    cbn [forallb]. rewrite (Hp d Hd0), Hdot. cbn [andb].
    change (p d' && forallb p (r ++ ?l)) with (forallb p ((d' :: r) ++ l)).
    rewrite forallb_app, (HD _ Hr). exact HE.
Qed.

(** A decimal string is made of digits and of the characters of
    [.], [-], [+], [e], [NaN] and [Infinity]. *)
Lemma Number_toString_chars (p : ascii -> bool) (x : number) :
  (forall c, is_digit c = true -> p c = true) ->
  forallb p (str ".-+eNaInfity") = true ->
  forallb p (Number_toString x) = true.
Proof.
  intros Hp Hl. cbn [str list_ascii_of_string forallb] in Hl.
  repeat (apply andb_prop in Hl; destruct Hl as [? Hl]).
  destruct x as [|s|s|s m e].
  - cbn [Number_toString str list_ascii_of_string forallb].
    repeat (apply andb_true_intro; split); auto.
  - destruct s; cbn [Number_toString str list_ascii_of_string forallb];
      repeat (apply andb_true_intro; split); auto.
  - cbn [Number_toString str list_ascii_of_string forallb].
    now rewrite (Hp "0"%char eq_refl).
  - pose proof (shortest_digits_pos m e) as Hpos.
    unfold Number_toString. destruct (shortest_digits m e) as [d n]. cbn [fst] in Hpos.
    rewrite forallb_app. apply andb_true_intro. split.
    + destruct s; cbn [forallb]; [|reflexivity]. apply andb_true_intro. auto.
    + apply format_digits_chars; auto. apply digits_of_spec. lia.
Qed.

Lemma Number_toString_without (c : ascii) (x : number) :
  is_digit c = false ->
  existsb (Ascii.eqb c) (str ".-+eNaInfity") = false ->
  strip_separators [c] (Number_toString x) = Number_toString x.
Proof.
  intros Hc Hl. unfold strip_separators. apply filter_all.
  apply Number_toString_chars.
  - intros a Ha. cbn [existsb]. rewrite orb_false_r.
    destruct (Ascii.eqb a c) eqn:E; [|reflexivity].
    apply Ascii.eqb_eq in E. congruence.
  - cbn [str list_ascii_of_string existsb forallb] in *.
    repeat match goal with
           | H : (_ || _)%bool = false |- _ => apply orb_false_elim in H; destruct H
           end.
    repeat (apply andb_true_intro; split); try reflexivity;
      rewrite orb_false_r, Ascii.eqb_sym; apply negb_true_iff; assumption.
Qed.

(** ** Undoing the grouping *)

Lemma formatNumber_of_string (x y : number) (options : FormatNumberOptions) :
  Number_toString x = Number_toString y ->
  formatNumber x options = formatNumber y options.
Proof. intros H. unfold formatNumber. now rewrite H. Qed.

Lemma Number_toString_roundtrip (x : number) :
  canonical x = true ->
  Number_toString (StringToNumber (Number_toString x)) = Number_toString x.
Proof.
  intros Hc. destruct (number_eq_dec_zero x) as [->|Hz]; [reflexivity|].
  now rewrite Number_roundtrip.
Qed.

Lemma strip_dot_no_dot (s : jsstring) :
  no_dot s -> strip_separators ["."%char] s = s.
Proof.
  unfold no_dot, strip_separators. intros H. apply filter_all.
  rewrite forallb_forall in *. intros c Hc. specialize (H c Hc).
  cbn [existsb]. now rewrite orb_false_r.
Qed.

Lemma strip_separators_self (sep t : jsstring) :
  strip_separators sep (sep ++ t) = strip_separators sep t.
Proof.
  unfold strip_separators. rewrite filter_app.
  assert (Hnil : forall u,
             (forall c, In c u -> In c sep) ->
             filter (fun c => negb (existsb (Ascii.eqb c) sep)) u = []).
  { induction u as [|c u IHu]; intros Hu; [reflexivity|].
    cbn [filter].
    replace (existsb (Ascii.eqb c) sep) with true.
    - cbn [negb]. apply IHu. intros x Hx. apply Hu. right. exact Hx.
    - symmetry. apply existsb_exists. exists c.
      split; [apply Hu; left; reflexivity|apply Ascii.eqb_refl]. }
  rewrite (Hnil sep) by auto. reflexivity.
Qed.

Lemma strip_group_spec (sep ds : jsstring) :
  strip_separators sep (group_spec sep ds) = strip_separators sep ds.
Proof.
  induction ds as [|c r IH]; [reflexivity|].
  rewrite group_spec_cons.
  change (strip_separators sep (c :: ?l))
    with (filter (fun c => negb (existsb (Ascii.eqb c) sep)) (c :: l)).
  cbn [filter].
  change (filter (fun c => negb (existsb (Ascii.eqb c) sep)) ?l)
    with (strip_separators sep l).
  destruct (_ && _); [rewrite strip_separators_self|cbn [app]]; rewrite IH;
    reflexivity.
Qed.

Lemma strip_separators_app (sep s t : jsstring) :
  strip_separators sep (s ++ t) = strip_separators sep s ++ strip_separators sep t.
Proof. unfold strip_separators. apply filter_app. Qed.

Lemma Locale_point (format : option jsstring) (f : NumberFormat) :
  getFormat format = Locale f -> decimal f = str "." ->
  thousand f = str "," \/ thousand f = str "'".
Proof.
  intros H Hd. apply getFormat_Locale in H. destruct H as [H| ->]; [|auto].
  cbn [map FORMAT_LOCALES snd In] in H.
  repeat match type of H with
         | _ \/ _ => destruct H as [<-|H]
         | False => destruct H
         end; try discriminate Hd; auto.
Qed.

Lemma formatNumber_stripped (num : number) (options : FormatNumberOptions)
      (f : NumberFormat) :
  canonical num = true ->
  getFormat (Some (default (str "en") (fn_formatType options))) = Locale f ->
  no_dot (Number_toString num) \/ decimal f = str "." ->
  strip_separators (thousand f) (formatNumber num options) = Number_toString num.
Proof.
  intros Hc Hf [Hnd|Hd].
  - assert (Hfmt : formatNumber num options
                   = insert_separators (thousand f) None (Number_toString num)).
    { unfold formatNumber. cbv zeta.
      rewrite Hf, (split_no_dot _ Hnd). reflexivity. }
    rewrite Hfmt, strip_insert_separators.
    destruct (Locale_separators _ f Hf) as (_ & _ & c & -> & Hcd & _ & Hin).
    cbn [In] in Hin. destruct Hin as [<-|[<-|[<-|[<-|[]]]]].
    + apply Number_toString_without; reflexivity.
    + apply strip_dot_no_dot. exact Hnd.
    + apply Number_toString_without; reflexivity.
    + apply Number_toString_without; reflexivity.
  - destruct (Number_toString_shape num Hc) as (sign & I & rest & Hs & Hsign & HI & Ht).
    rewrite (formatNumber_string num options f sign I rest Hf Hs Hsign HI Ht).
    rewrite Hd. change (str ".") with ["."%char]. rewrite replace_first_same.
    rewrite !strip_separators_app, strip_group_spec, <- !strip_separators_app, <- Hs.
    destruct (Locale_point _ f Hf Hd) as [-> | ->];
      apply Number_toString_without; reflexivity.
Qed.

(** X4.  With a configuration whose decimal separator is the dot
    (English, Indian, Swiss, and the two system names), removing the
    thousand separators from [formatNumber]'s result and reading it as
    a number gives the input back: grouping loses nothing. *)
Theorem formatNumber_reads_back (x : number) (options : FormatNumberOptions)
        (f : NumberFormat) :
  canonical x = true -> x <> Zero true ->
  getFormat (Some (default (str "en") (fn_formatType options))) = Locale f ->
  decimal f = str "." ->
  strip_separators (thousand f) (formatNumber x options) = Number_toString x /\
  StringToNumber (strip_separators (thousand f) (formatNumber x options)) = x.
Proof.
  intros Hc Hz Hf Hd.
  pose proof (formatNumber_stripped x options f Hc Hf (or_intror Hd)) as Hs.
  split; [exact Hs|]. rewrite Hs. now apply Number_roundtrip.
Qed.

Lemma formatNumber_reads_back_witness :
  canonical (StringToNumber (str "-1234567.89")) = true /\
  formatNumber (StringToNumber (str "-1234567.89")) {| fn_formatType := Some (str "ch") |}
  = str "-1'234'567.89" /\
  StringToNumber
    (strip_separators (str "'")
       (formatNumber (StringToNumber (str "-1234567.89"))
          {| fn_formatType := Some (str "ch") |}))
  = StringToNumber (str "-1234567.89").
Proof.
  assert (H1 : canonical (StringToNumber (str "-1234567.89")) = true)
    by (vm_compute; reflexivity).
  assert (H2 : StringToNumber (str "-1234567.89") <> Zero true)
    by (vm_compute; discriminate).
  split; [exact H1|]. split; [vm_compute; reflexivity|].
  exact (proj2 (formatNumber_reads_back _ {| fn_formatType := Some (str "ch") |}
                  {| decimal := "."; thousand := "'"; system := international |}
                  H1 H2 eq_refl eq_refl)).
Defined.

(** X5.  For a number whose decimal string has no dot, and any resolved
    configuration, removing the thousand separators from
    [formatNumber]'s result gives the decimal string back, and
    formatting the number read from it gives the same result again. *)
Theorem formatNumber_regroups (num : number) (options : FormatNumberOptions)
        (f : NumberFormat) :
  canonical num = true ->
  getFormat (Some (default (str "en") (fn_formatType options))) = Locale f ->
  no_dot (Number_toString num) ->
  strip_separators (thousand f) (formatNumber num options) = Number_toString num /\
  formatNumber
    (StringToNumber (strip_separators (thousand f) (formatNumber num options)))
    options
  = formatNumber num options.
Proof.
  intros Hc Hf Hnd.
  pose proof (formatNumber_stripped num options f Hc Hf (or_introl Hnd)) as Hs.
  split; [exact Hs|]. rewrite Hs.
  apply formatNumber_of_string. now apply Number_toString_roundtrip.
Qed.

Lemma formatNumber_regroups_witness :
  canonical (of_Z 1234567) = true /\
  no_dot (Number_toString (of_Z 1234567)) /\
  formatNumber (of_Z 1234567) {| fn_formatType := Some (str "de") |} = str "1.234.567" /\
  formatNumber
    (StringToNumber
       (strip_separators (str ".")
          (formatNumber (of_Z 1234567) {| fn_formatType := Some (str "de") |})))
    {| fn_formatType := Some (str "de") |}
  = formatNumber (of_Z 1234567) {| fn_formatType := Some (str "de") |}.
Proof.
  assert (H1 : canonical (of_Z 1234567) = true) by (vm_compute; reflexivity).
  assert (H2 : no_dot (Number_toString (of_Z 1234567))) by (vm_compute; reflexivity).
  split; [exact H1|]. split; [exact H2|]. split; [vm_compute; reflexivity|].
  exact (proj2 (formatNumber_regroups _ {| fn_formatType := Some (str "de") |}
                  {| decimal := ","; thousand := "."; system := international |}
                  H1 eq_refl H2)).
Defined.

(** C9.  Regrouping is idempotent whenever the grouped string can be
    read back: for every number whose decimal string has no dot, and
    for every number at all when the decimal separator is the dot,
    removing the thousand separators from [formatNumber]'s result,
    reading it as a number and formatting that number with the same
    options gives the same string. *)
Theorem formatNumber_idempotent (num : number) (options : FormatNumberOptions)
        (f : NumberFormat) :
  canonical num = true ->
  getFormat (Some (default (str "en") (fn_formatType options))) = Locale f ->
  no_dot (Number_toString num) \/ decimal f = str "." ->
  formatNumber
    (StringToNumber (strip_separators (thousand f) (formatNumber num options)))
    options
  = formatNumber num options.
Proof.
  intros Hc Hf H.
  rewrite (formatNumber_stripped num options f Hc Hf H).
  apply formatNumber_of_string. now apply Number_toString_roundtrip.
Qed.

Lemma formatNumber_idempotent_witness :
  canonical (of_Z 1234567) = true /\
  no_dot (Number_toString (of_Z 1234567)) /\
  formatNumber (of_Z 1234567) {| fn_formatType := Some (str "fr") |} = str "1 234 567" /\
  formatNumber
    (StringToNumber
       (strip_separators (str " ")
          (formatNumber (of_Z 1234567) {| fn_formatType := Some (str "fr") |})))
    {| fn_formatType := Some (str "fr") |}
  = formatNumber (of_Z 1234567) {| fn_formatType := Some (str "fr") |}.
Proof.
  assert (H1 : canonical (of_Z 1234567) = true) by (vm_compute; reflexivity).
  assert (H2 : no_dot (Number_toString (of_Z 1234567))) by (vm_compute; reflexivity).
  split; [exact H1|]. split; [exact H2|]. split; [vm_compute; reflexivity|].
  exact (formatNumber_idempotent _ {| fn_formatType := Some (str "fr") |}
           {| decimal := ","; thousand := " "; system := international |}
           H1 eq_refl (or_introl H2)).
Defined.

(** A number without a fractional part whose regrouping is not
    idempotent: 1.5e21 is an integer, its decimal string ["1.5e+21"]
    has a dot, the German configuration writes it ["1,5e+21"], and
    that string, with or without its thousand separators, reads as
    [NaN]. *)
Lemma formatNumber_not_idempotent :
  (exists m e, StringToNumber (str "1.5e21") = Fin false m e /\ 0 <= e) /\
  Number_toString (StringToNumber (str "1.5e21")) = str "1.5e+21" /\
  formatNumber (StringToNumber (str "1.5e21")) {| fn_formatType := Some (str "de") |}
  = str "1,5e+21" /\
  strip_separators (str ".")
    (formatNumber (StringToNumber (str "1.5e21")) {| fn_formatType := Some (str "de") |})
  = str "1,5e+21" /\
  StringToNumber (str "1,5e+21") = NaN /\
  formatNumber
    (StringToNumber
       (strip_separators (str ".")
          (formatNumber (StringToNumber (str "1.5e21"))
             {| fn_formatType := Some (str "de") |})))
    {| fn_formatType := Some (str "de") |}
  = str "NaN".
Proof.
  split.
  { eexists _, _. split; [vm_compute; reflexivity|]. apply Z.leb_le. reflexivity. }
  repeat split; vm_compute; reflexivity.
Qed.

(** ** Locale resolution, case by case *)

Lemma getFormat_inherited (name : jsstring) :
  In name Object_prototype -> getFormat (Some name) = Inherited name.
Proof.
  unfold Object_prototype. cbn [In]. intros H.
  repeat match type of H with
         | _ \/ _ => destruct H as [<-|H]
         | False => destruct H
         end; reflexivity.
Qed.

(** X6.  [getFormat] resolves an absent or empty format to English, a
    system name to the dot-and-comma configuration of that system, each
    of the eight locale codes to its row of the table, the name of a
    property inherited from [Object.prototype] to that inherited member
    (which is no configuration), and every other string to English. *)
Theorem getFormat_resolution :
  getFormat None = en /\ getFormat (Some []) = en /\
  getFormat (Some (str "international"))
  = Locale {| decimal := "."; thousand := ","; system := international |} /\
  getFormat (Some (str "indian"))
  = Locale {| decimal := "."; thousand := ","; system := indian |} /\
  Forall (fun kv : jsstring * NumberFormat =>
            getFormat (Some (fst kv)) = Locale (snd kv)) FORMAT_LOCALES /\
  (forall name, In name Object_prototype -> getFormat (Some name) = Inherited name) /\
  (forall format,
      ~ In format (map fst FORMAT_LOCALES) ->
      format <> str "international" -> format <> str "indian" ->
      ~ In format Object_prototype ->
      getFormat (Some format) = en).
Proof.
  split; [reflexivity|]. split; [reflexivity|].
  split; [reflexivity|]. split; [reflexivity|].
  split; [exact getFormat_table|]. split; [exact getFormat_inherited|].
  intros format Hk Hi Hn Hp. apply getFormat_fallback; auto.
  clear -Hk. induction FORMAT_LOCALES as [|[k v] l IH]; [reflexivity|].
  cbn [own_property]. cbn [map fst In] in Hk.
  destruct (jsstring_eqb k format) eqn:E.
  - apply jsstring_eqb_eq in E. tauto.
  - apply IH. tauto.
Qed.

Lemma getFormat_resolution_witness :
  ~ In (str "xx") (map fst FORMAT_LOCALES) /\
  ~ In (str "xx") Object_prototype /\
  getFormat (Some (str "xx")) = en /\
  getFormat (Some (str "toString")) = Inherited (str "toString").
Proof.
  assert (H1 : ~ In (str "xx") (map fst FORMAT_LOCALES)).
  { cbn [map fst In FORMAT_LOCALES]. intros H.
    repeat match type of H with
           | _ \/ _ => destruct H as [H|H]; [discriminate H|]
           | False => destruct H
           end. }
  assert (H2 : ~ In (str "xx") Object_prototype).
  { unfold Object_prototype. cbn [In]. intros H.
    repeat match type of H with
           | _ \/ _ => destruct H as [H|H]; [discriminate H|]
           | False => destruct H
           end. }
  split; [exact H1|]. split; [exact H2|]. split.
  - apply (proj2 (proj2 (proj2 (proj2 (proj2 (proj2 getFormat_resolution)))))
             (str "xx") H1); [discriminate|discriminate|exact H2].
  - apply (proj1 (proj2 (proj2 (proj2 (proj2 (proj2 getFormat_resolution)))))).
    unfold Object_prototype. cbn [In]. auto 10.
Defined.

(** X7.  Every configuration [getFormat] can return has a thousand
    separator of one character, a comma, a dot, a space or an
    apostrophe, which is neither a digit nor a word character, and a
    decimal separator without a digit: grouping never adds a digit. *)
Theorem getFormat_separators (format : option jsstring) (f : NumberFormat) :
  getFormat format = Locale f ->
  filter is_digit (thousand f) = [] /\ filter is_digit (decimal f) = [] /\
  (exists c, thousand f = [c] /\ is_digit c = false /\ is_word c = false /\
             In c [","%char; "."%char; " "%char; "'"%char]).
Proof. exact (Locale_separators format f). Qed.

Lemma getFormat_separators_witness :
  getFormat (Some (str "fr"))
  = Locale {| decimal := ","; thousand := " "; system := international |} /\
  exists c, str " " = [c] /\ is_word c = false.
Proof.
  split; [reflexivity|].
  destruct (getFormat_separators (Some (str "fr"))
              {| decimal := ","; thousand := " "; system := international |} eq_refl)
    as (_ & _ & c & Hc & _ & Hw & _).
  exists c. split; assumption.
Defined.

(** ** The suffix *)

(** X8.  Above one thousand the result is the rendered value (the
    quotient written with two decimals, trimmed, its dot replaced by
    the decimal separator) followed by the suffix of the selected
    unit: any style other than ["long"] appends the short suffix
    itself; ["long"] appends a space and the unit's word, except for
    the Indian thousand [K], which has no word and is followed by
    [undefined]. *)
Theorem numify_suffix (num : number) (options : NumifyOptions) :
  fge (sanitize num) (of_Z 1000) = true ->
  let format := getFormat (Some (default (str "en") (formatType options))) in
  exists unit,
    find (fun u => fge (sanitize num) (fst u)) (units_of format) = Some unit /\
    let value :=
      replace_first "." (ToString_opt (format_decimal format))
        (strip_trailing_zeros (toFixed (fdiv (sanitize num) (fst unit)) 2)) in
    (default (str "short") (style options) <> str "long" ->
     numify num options = value ++ snd unit) /\
    (default (str "short") (style options) = str "long" ->
     (snd unit = str "K" /\ numify num options = value ++ str " undefined") \/
     (exists word, In (snd unit, word) LONG_UNITS /\
                   numify num options = value ++ " "%char :: word)).
Proof.
  intros H format.
  destruct (select_unit (sanitize num) format H)
    as (pre & unit & post & Hl & _ & _ & _ & Hf).
  exists unit. split; [exact Hf|]. cbv zeta.
  rewrite (numify_large num options unit H Hf). fold format. split.
  - intros Hs. rewrite (suffix_short _ unit Hs). reflexivity.
  - intros ->.
    assert (Hin : In unit (units_of format)).
    { rewrite Hl. apply in_or_app. right. left. reflexivity. }
    unfold units_of in Hin.
    destruct (format_system _) as [[]|];
      unfold international_units, indian_units in Hin; cbn [In] in Hin;
      repeat match type of Hin with
             | _ \/ _ => destruct Hin as [<-|Hin]
             | False => destruct Hin
             end;
      first [ left; split; reflexivity
            | right; eexists; split; [|reflexivity];
              unfold LONG_UNITS; cbn [In]; auto 10 ].
Qed.

Lemma numify_suffix_witness :
  fge (sanitize (of_Z 2500000)) (of_Z 1000) = true /\
  numify (of_Z 2500000)
    {| formatType := None; precise := None; style := Some (str "long") |}
  = str "2.5 million" /\
  numify (of_Z 2500000)
    {| formatType := None; precise := None; style := Some (str "compact") |}
  = replace_first "." (str ".")
      (strip_trailing_zeros (toFixed (fdiv (sanitize (of_Z 2500000)) (of_Z (10 ^ 6))) 2))
    ++ str "M".
Proof.
  assert (H : fge (sanitize (of_Z 2500000)) (of_Z 1000) = true)
    by (vm_compute; reflexivity).
  split; [exact H|]. split; [vm_compute; reflexivity|].
  destruct (numify_suffix (of_Z 2500000)
              {| formatType := None; precise := None; style := Some (str "compact") |} H)
    as (unit & Hf & Hshort & _).
  vm_compute in Hf. injection Hf as <-.
  apply Hshort. vm_compute. discriminate.
Defined.

(** ** The loop of the first release *)

(** X9.  The downward loop of the first release leaves an index inside
    the table: the largest one, not above the start, whose threshold
    the value reaches, or zero when there is none; so the entry read
    after the loop always exists. *)
Theorem legacy_scan_spec (num : number) (start : nat) :
  (start < List.length Legacy.si)%nat ->
  let index := Legacy.scan num start in
  (index <= start)%nat /\
  In (nth index Legacy.si (NaN, [])) Legacy.si /\
  (index <> O -> fge num (fst (nth index Legacy.si (NaN, []))) = true) /\
  (forall k, (index < k <= start)%nat ->
             fge num (fst (nth k Legacy.si (NaN, []))) = false).
Proof.
  intros Hs. cbv zeta.
  assert (H : (Legacy.scan num start <= start)%nat /\
              (Legacy.scan num start <> O ->
               fge num (fst (nth (Legacy.scan num start) Legacy.si (NaN, []))) = true) /\
              (forall k, (Legacy.scan num start < k <= start)%nat ->
                         fge num (fst (nth k Legacy.si (NaN, []))) = false)).
  { clear Hs. induction start as [|i IH]; cbn [Legacy.scan].
    - repeat split; try lia; congruence.
    - destruct (fge num (fst (nth (S i) Legacy.si (NaN, [])))) eqn:E.
      + repeat split; auto. lia.
      + destruct IH as (H1 & H2 & H3). repeat split; auto.
        intros k Hk. destruct (Nat.eq_dec k (S i)) as [->|Hne]; [exact E|].
        apply H3. lia. }
  destruct H as (H1 & H2 & H3). repeat split; auto.
  apply nth_In. lia.
Qed.

Lemma legacy_scan_spec_witness :
  (5 < List.length Legacy.si)%nat /\
  Legacy.scan (of_Z 2500000) 5 = 1%nat /\
  In (nth (Legacy.scan (of_Z 2500000) 5) Legacy.si (NaN, [])) Legacy.si.
Proof.
  assert (H : (5 < List.length Legacy.si)%nat) by (cbn; lia).
  split; [exact H|]. split; [vm_compute; reflexivity|].
  exact (proj1 (proj2 (legacy_scan_spec (of_Z 2500000) 5 H))).
Defined.

(** ** The guard that is never taken *)

Lemma strip_non_numeric_app (s t : jsstring) :
  strip_non_numeric (s ++ t) = strip_non_numeric s ++ strip_non_numeric t.
Proof. unfold strip_non_numeric. apply filter_app. Qed.

Lemma strip_non_numeric_digits (s : jsstring) :
  all_digits s -> strip_non_numeric s = s.
Proof.
  intros H. unfold strip_non_numeric. apply filter_all.
  unfold all_digits in H. rewrite forallb_forall in *. intros c Hc.
  unfold is_stripped. rewrite (H c Hc). reflexivity.
Qed.

(** What is left of a decimal numeral once the exponent mark and its
    sign are removed: digits, with or without a fraction. *)
Lemma strip_format_digits (ds : jsstring) (n : Z) :
  all_digits ds -> ds <> [] ->
  exists I T,
    strip_non_numeric (format_digits ds n) = I ++ T /\
    all_digits I /\ I <> [] /\
    (T = [] \/ exists F, T = "."%char :: F /\ all_digits F) /\
    Z.of_nat (List.length I)
    <= Z.max 21 (1 + Z.of_nat (List.length (digits_of (Z.abs (n - 1))))).
Proof.
  intros Hd Hne.
  assert (HE : all_digits (digits_of (Z.abs (n - 1))))
    by (apply digits_of_spec; lia).
  assert (Hsg : strip_non_numeric
                  ("e"%char :: (if n - 1 <? 0 then "-"%char else "+"%char)
                   :: digits_of (Z.abs (n - 1)))
                = digits_of (Z.abs (n - 1))).
  { change ("e"%char :: ?a :: ?l) with (["e"%char; a] ++ l).
    rewrite strip_non_numeric_app, (strip_non_numeric_digits _ HE).
    destruct (n - 1 <? 0); reflexivity. }
  unfold format_digits.
  destruct ((Z.of_nat (List.length ds) <=? n) && (n <=? 21)) eqn:EA.
  { apply andb_prop in EA. destruct EA as [E1 E2].
    apply Z.leb_le in E1. apply Z.leb_le in E2.
    exists (ds ++ zeros (n - Z.of_nat (List.length ds))), [].
    assert (Ha : all_digits (ds ++ zeros (n - Z.of_nat (List.length ds))))
      by (apply all_digits_app; split; [exact Hd|apply zeros_digits]).
    rewrite app_nil_r, (strip_non_numeric_digits _ Ha).
    split; [reflexivity|]. split; [exact Ha|]. split.
    { intros H. apply app_eq_nil in H. destruct H. congruence. }
    split; [left; reflexivity|].
    rewrite length_app, zeros_length. lia. }
  destruct ((0 <? n) && (n <=? 21)) eqn:EB.
  { apply andb_prop in EB. destruct EB as [E1 E2].
    apply Z.ltb_lt in E1. apply Z.leb_le in E2.
    pose proof (firstn_skipn (Z.to_nat n) ds) as Hsplit.
    pose proof Hd as Hd'. rewrite <- Hsplit in Hd'.
    apply all_digits_app in Hd'. destruct Hd' as [H1 H2].
    exists (firstn (Z.to_nat n) ds), ("."%char :: skipn (Z.to_nat n) ds).
    rewrite strip_non_numeric_app, (strip_non_numeric_digits _ H1).
    change ("."%char :: ?l) with (["."%char] ++ l) at 1.
    rewrite strip_non_numeric_app, (strip_non_numeric_digits _ H2).
    split; [reflexivity|]. split; [exact H1|]. split.
    { destruct ds as [|d r]; [congruence|].
      destruct (Z.to_nat n) eqn:En; [lia|]. discriminate. }
    split; [right; eexists; split; [reflexivity|exact H2]|].
    pose proof (firstn_le_length (Z.to_nat n) ds). lia. }
  destruct ((-6 <? n) && (n <=? 0)).
  { exists ["0"%char], ("."%char :: zeros (- n) ++ ds).
    assert (Ha : all_digits (zeros (- n) ++ ds))
      by (apply all_digits_app; split; [apply zeros_digits|exact Hd]).
    change ("0"%char :: "."%char :: ?l) with (["0"%char] ++ ["."%char] ++ l).
    rewrite !strip_non_numeric_app,
      (strip_non_numeric_digits _ (proj1 (zeros_digits (- n)))),
      (strip_non_numeric_digits _ Hd).
    split; [reflexivity|]. split; [reflexivity|]. split; [discriminate|].
    split; [right; eexists; split; [reflexivity|exact Ha]|].
    cbn [List.length]. lia. }
  destruct ds as [|d [|d' r]]; [congruence| |].
  - exists (d :: digits_of (Z.abs (n - 1))), [].
    change (d :: "e"%char :: ?l) with ([d] ++ "e"%char :: l).
    rewrite strip_non_numeric_app, (strip_non_numeric_digits _ Hd), Hsg, app_nil_r.
    split; [reflexivity|]. split.
    { apply all_digits_cons. apply all_digits_cons in Hd. tauto. }
    split; [discriminate|]. split; [left; reflexivity|].
    cbn [List.length]. lia.
  - apply all_digits_cons in Hd. destruct Hd as [Hd0 Hr].
    assert (H1 : all_digits [d])
      by (apply all_digits_cons; split; [exact Hd0|reflexivity]).
    exists [d], ("."%char :: (d' :: r) ++ digits_of (Z.abs (n - 1))).
    change (d :: "."%char :: (d' :: r) ++ ?l)
      with ([d] ++ ["."%char] ++ (d' :: r) ++ l).
    rewrite !strip_non_numeric_app, Hsg, (strip_non_numeric_digits _ Hr),
      (strip_non_numeric_digits _ H1).
    split; [reflexivity|]. split; [exact H1|]. split; [discriminate|].
    split.
    + right. eexists. split; [reflexivity|].
      apply all_digits_app. split; assumption.
    + cbn [List.length]. lia.
Qed.

(** A run of digits, with or without a fraction, reads as zero or as
    the rounding of the decimal its digits spell. *)
Lemma parse_unsigned_plain (neg : bool) (I T : jsstring) :
  all_digits I -> I <> [] ->
  (T = [] \/ exists F, T = "."%char :: F /\ all_digits F) ->
  parse_unsigned neg (I ++ T) = Zero neg \/
  exists F, all_digits F /\ 0 < digits_val (I ++ F) /\
            parse_unsigned neg (I ++ T)
            = round_decimal neg (digits_val (I ++ F)) (- Z.of_nat (List.length F)).
Proof.
  intros HI Hne HT.
  destruct HT as [->|(F & -> & HF)].
  - pose proof (digits_val_nonneg I HI) as H0.
    destruct (Z.eq_dec (digits_val I) 0) as [Hz|Hz].
    + left. unfold parse_unsigned. destruct I as [|d I'] eqn:EI; [congruence|].
      rewrite <- EI in *.
      assert (Hd : is_digit d = true)
        by (rewrite EI in HI; now apply all_digits_cons in HI).
      rewrite app_nil_r.
      replace (jsstring_eqb I "Infinity") with false
        by (rewrite EI; symmetry; now apply not_Infinity).
      rewrite (span_digits_all I HI), app_nil_r. rewrite EI at 1.
      cbn [parse_exponent]. rewrite <- EI, Hz. reflexivity.
    + right. exists []. rewrite app_nil_r. split; [reflexivity|]. split; [lia|].
      rewrite <- (app_nil_r I) at 1.
      rewrite (parse_unsigned_integer neg I [] 0); auto; reflexivity.
  - assert (HIF : all_digits (I ++ F)) by (apply all_digits_app; split; assumption).
    pose proof (digits_val_nonneg _ HIF) as H0.
    destruct (Z.eq_dec (digits_val (I ++ F)) 0) as [Hz|Hz].
    + left. unfold parse_unsigned. destruct I as [|d I'] eqn:EI; [congruence|].
      rewrite <- EI in *.
      assert (Hd : is_digit d = true)
        by (rewrite EI in HI; now apply all_digits_cons in HI).
      replace (jsstring_eqb (I ++ "."%char :: F) "Infinity") with false
        by (rewrite EI; symmetry; now apply not_Infinity).
      rewrite span_digits_app; [|exact HI|reflexivity].
      change (Ascii.eqb "." ".") with true. cbv iota.
      rewrite (span_digits_all F HF).
      destruct (I ++ F) as [|c r] eqn:E.
      { apply app_eq_nil in E. destruct E. congruence. }
      cbn [parse_exponent]. rewrite Hz. reflexivity.
    + right. exists F. split; [exact HF|]. split; [lia|].
      rewrite <- (app_nil_r F) at 1.
      rewrite (parse_unsigned_fraction neg I F [] 0); auto; reflexivity.
Qed.

Lemma StringToNumber_digits (I T : jsstring) :
  all_digits I -> I <> [] ->
  StringToNumber (I ++ T) = parse_unsigned false (I ++ T).
Proof.
  intros HI Hne. destruct I as [|c r]; [congruence|].
  apply all_digits_cons in HI. destruct HI as [Hc _].
  cbn [app]. now apply StringToNumber_unsigned.
Qed.

Lemma sanitize_not_NaN (num : number) : sanitize num <> NaN.
Proof.
  destruct num as [|s|s|s m e].
  - vm_compute. discriminate.
  - destruct s; vm_compute; discriminate.
  - destruct s; vm_compute; discriminate.
  - pose proof (shortest_digits_pos m e) as Hp.
    unfold sanitize, Number_toString. destruct (shortest_digits m e) as [d n].
    cbn [fst] in Hp.
    destruct (digits_of_spec d ltac:(lia)) as (Hd & _ & Hne & _).
    destruct (strip_format_digits (digits_of d) n Hd Hne)
      as (I & T & Hs & HI & HIne & HT & _).
    assert (Hsign : strip_non_numeric
                      ((if s then ["-"%char] else []) ++ format_digits (digits_of d) n)
                    = strip_non_numeric (format_digits (digits_of d) n))
      by (destruct s; reflexivity).
    rewrite Hsign, Hs, (StringToNumber_digits I T HI HIne).
    destruct (parse_unsigned_plain false I T HI HIne HT) as [H|(F & _ & _ & H)];
      rewrite H; [discriminate|].
    destruct (round_decimal_sign false (digits_val (I ++ F)) (- Z.of_nat (List.length F)))
      as [H'|[H'|(m' & e' & H')]]; rewrite H'; discriminate.
Qed.

Lemma flt_or_fge (x y : number) :
  x <> NaN -> y <> NaN -> flt x y = true \/ fge x y = true.
Proof.
  intros Hx Hy. unfold flt, fge.
  destruct x as [|s|s|s m e], y as [|t|t|t m' e']; try congruence;
    cbn [fcompare];
    try (destruct s; auto; destruct t; auto);
    destruct (_ ?= _)%Q; auto.
Qed.

(** X10.  The sanitized value is never NaN and never negative, whatever
    the input; so [numify] always takes one of its two branches, below
    one thousand or with a unit found, and the guard for a missing unit
    is never taken. *)
Theorem numify_guard_never_taken (num : number) (options : NumifyOptions) :
  sanitize num <> NaN /\
  (sanitize num = Zero false \/ sanitize num = Inf false \/
   exists m e, sanitize num = Fin false m e) /\
  (flt (sanitize num) (of_Z 1000) = true \/
   exists unit,
     find (fun u => fge (sanitize num) (fst u))
          (units_of (getFormat (Some (default (str "en") (formatType options)))))
     = Some unit).
Proof.
  pose proof (sanitize_not_NaN num) as Hn.
  split; [exact Hn|]. split.
  - destruct (sanitize_cases num) as [H|H]; [congruence|exact H].
  - destruct (flt_or_fge (sanitize num) (of_Z 1000) Hn) as [H|H].
    + vm_compute. discriminate.
    + left. exact H.
    + right.
      destruct (select_unit (sanitize num)
                  (getFormat (Some (default (str "en") (formatType options)))) H)
        as (_ & unit & _ & _ & _ & _ & _ & Hf).
      exists unit. exact Hf.
Qed.

(** ** The sanitized value is below 1e21 *)

(** The string left by the sanitizing has twenty-one digits at most
    before its dot, so the number read from it is zero or a finite
    number of [2^70] at most: [numify] never meets an infinite value,
    and the quotients it forms are written in fixed notation. *)
Lemma sanitized_bound (num : number) :
  canonical num = true ->
  sanitize num = Zero false \/
  exists m e, sanitize num = Fin false m e /\
              fst (ratio_of m e) <= 2 ^ 70 * snd (ratio_of m e).
Proof.
  intros Hc. destruct num as [|s|s|s m e].
  - left. reflexivity.
  - left. destruct s; reflexivity.
  - left. destruct s; reflexivity.
  - pose proof (shortest_digits_pos m e) as Hp.
    pose proof (shortest_digits_exponent s m e Hc) as Hn.
    unfold sanitize, Number_toString. destruct (shortest_digits m e) as [d n].
    cbn [fst snd] in Hp, Hn.
    destruct (digits_of_spec d ltac:(lia)) as (Hd & _ & Hne & _).
    destruct (strip_format_digits (digits_of d) n Hd Hne)
      as (I & T & Hs & HI & HIne & HT & Hlen).
    pose proof (digits_of_short (Z.abs (n - 1)) ltac:(lia)) as HE.
    assert (HlenI : Z.of_nat (List.length I) <= 21) by lia.
    assert (Hsign : strip_non_numeric
                      ((if s then ["-"%char] else []) ++ format_digits (digits_of d) n)
                    = strip_non_numeric (format_digits (digits_of d) n))
      by (destruct s; reflexivity).
    rewrite Hsign, Hs, (StringToNumber_digits I T HI HIne).
    destruct (parse_unsigned_plain false I T HI HIne HT) as [H|(F & HF & Hpos & H)];
      rewrite H; [left; reflexivity|].
    assert (Hv : digits_val (I ++ F)
                 < 10 ^ 21 * 10 ^ Z.of_nat (List.length F)).
    { pose proof (digits_val_bound (I ++ F)
                    ltac:(apply all_digits_app; split; assumption)) as Hb.
      rewrite length_app, Nat2Z.inj_add, Z.pow_add_r in Hb by lia.
      assert (10 ^ Z.of_nat (List.length I) <= 10 ^ 21)
        by (apply Z.pow_le_mono_r; lia).
      assert (0 < 10 ^ Z.of_nat (List.length F)) by (apply Z.pow_pos_nonneg; lia).
      nia. }
    assert (H10 : 0 < 10 ^ Z.of_nat (List.length F)) by (apply Z.pow_pos_nonneg; lia).
    assert (Hr : round_decimal false (digits_val (I ++ F)) (- Z.of_nat (List.length F))
                 = round64 false (digits_val (I ++ F)) (10 ^ Z.of_nat (List.length F))).
    { unfold round_decimal. destruct (0 <=? - Z.of_nat (List.length F)) eqn:E.
      - apply Z.leb_le in E. replace (Z.of_nat (List.length F)) with 0 by lia.
        cbn [Z.opp]. rewrite Z.pow_0_r, Z.mul_1_r. reflexivity.
      - rewrite Z.opp_involutive. reflexivity. }
    rewrite Hr.
    destruct (round64_upper false (digits_val (I ++ F))
                (10 ^ Z.of_nat (List.length F)) 70 Hpos H10 ltac:(lia))
      as [Hz|(m' & e' & Hq & Hle)].
    + change (2 ^ 70) with 1180591620717411303424.
      change (10 ^ 21) with 1000000000000000000000 in Hv. lia.
    + left. exact Hz.
    + right. exists m', e'. split; assumption.
Qed.

(** ** Two decimals, trimmed *)

(** C2.  For a sanitized value from one thousand up, [numify] divides
    it by the threshold of the unit in binary64 arithmetic, writes that
    quotient (not the exact one) with two decimals, the last one
    rounded half up, and trims the numeral [I.ab]: [I] alone when both
    decimals are zero, [I.a] when only the second is, [I.ab] otherwise;
    so [numify(1200)] is ["1.2k"] and [numify(2000)] is ["2k"]. *)
Theorem numify_two_decimals_trimmed :
  (forall (num : number) (options : NumifyOptions),
      canonical num = true ->
      fge (sanitize num) (of_Z 1000) = true ->
      let format := getFormat (Some (default (str "en") (formatType options))) in
      exists unit I a b,
        let scaled := fdiv (sanitize num) (fst unit) in
        find (fun u => fge (sanitize num) (fst u)) (units_of format) = Some unit /\
        all_digits I /\ I <> [] /\ is_digit a = true /\ is_digit b = true /\
        toFixed scaled 2 = I ++ "."%char :: [a; b] /\
        half_up_hundredths (value scaled) (digits_val (I ++ [a; b])) /\
        strip_trailing_zeros (toFixed scaled 2) = trim_spec I a b /\
        numify num options =
          replace_first "." (ToString_opt (format_decimal format)) (trim_spec I a b)
          ++ suffix_of (default (str "short") (style options)) unit) /\
  (forall (I : jsstring) (a b : ascii),
      trim_spec I a b =
      if Ascii.eqb a "0" && Ascii.eqb b "0" then I
      else if Ascii.eqb b "0" then I ++ ["."%char; a]
      else I ++ ["."%char; a; b]) /\
  numify (of_Z 1200) no_options = str "1.2k" /\
  numify (of_Z 2000) no_options = str "2k".
Proof.
  split; [|split; [reflexivity|split; vm_compute; reflexivity]].
  intros num options Hc Hge format.
  destruct (select_unit (sanitize num) format Hge)
    as (pre & unit & post & Hl & _ & _ & _ & Hf).
  destruct (sanitized_bound num Hc) as [Hz|(m & e & Hv & Hb)].
  { rewrite Hz in Hge. vm_compute in Hge. discriminate Hge. }
  destruct (units_thresholds format unit) as (mt & et & Hu & Ht).
  { rewrite Hl. apply in_or_app. right. left. reflexivity. }
  destruct (toFixed_two_quotient _ _ m mt e et Hv Hu Hb Ht)
    as (I & a & b & HI & HIne & Ha & Hb' & Hfix & Hlo & Hhi).
  exists unit, I, a, b. cbv zeta.
  assert (Htrim : strip_trailing_zeros (toFixed (fdiv (sanitize num) (fst unit)) 2)
                  = trim_spec I a b).
  { rewrite Hfix. apply strip_trailing_zeros_two; assumption. }
  repeat split; auto.
  rewrite (numify_large num options unit Hge Hf), Htrim. reflexivity.
Qed.

Lemma numify_two_decimals_trimmed_witness :
  canonical (of_Z 1234567) = true /\
  fge (sanitize (of_Z 1234567)) (of_Z 1000) = true /\
  exists I a b,
    toFixed (fdiv (sanitize (of_Z 1234567)) (of_Z (10 ^ 6))) 2
    = I ++ "."%char :: [a; b] /\
    half_up_hundredths (value (fdiv (sanitize (of_Z 1234567)) (of_Z (10 ^ 6))))
      (digits_val (I ++ [a; b])) /\
    numify (of_Z 1234567) no_options = trim_spec I a b ++ str "M".
Proof.
  assert (H1 : canonical (of_Z 1234567) = true) by (vm_compute; reflexivity).
  assert (H2 : fge (sanitize (of_Z 1234567)) (of_Z 1000) = true)
    by (vm_compute; reflexivity).
  split; [exact H1|]. split; [exact H2|].
  destruct (proj1 numify_two_decimals_trimmed (of_Z 1234567) no_options H1 H2)
    as (unit & I & a & b & Hf & HI & _ & _ & _ & Hfix & Hhalf & _ & Hn).
  vm_compute in Hf. injection Hf as <-.
  exists I, a, b. split; [exact Hfix|]. split; [exact Hhalf|].
  rewrite Hn.
  change (ToString_opt (format_decimal
            (getFormat (Some (default (str "en") (formatType no_options))))))
    with ["."%char].
  rewrite replace_first_same. reflexivity.
Defined.

(** The quotient that is rounded is the binary64 one.  The exact
    quotient of 1005 by 1000 is 1.005, which half-up rounding to two
    decimals takes to 1.01; the binary64 quotient lies just below it,
    so the code writes ["1.00"] and [numify(1005)] is ["1k"], not
    ["1.01k"]. *)
Lemma numify_1005_not_half_up_of_exact_quotient :
  sanitize (of_Z 1005) = of_Z 1005 /\
  fge (sanitize (of_Z 1005)) (of_Z 1000) = true /\
  find (fun u => fge (sanitize (of_Z 1005)) (fst u)) (units_of en)
  = Some (of_Z (10 ^ 3), str "k") /\
  half_up_hundredths (value (sanitize (of_Z 1005)) / value (of_Z (10 ^ 3))) 101 /\
  toFixed (fdiv (sanitize (of_Z 1005)) (of_Z (10 ^ 3))) 2 = str "1.00" /\
  half_up_hundredths (value (fdiv (sanitize (of_Z 1005)) (of_Z (10 ^ 3)))) 100 /\
  numify (of_Z 1005) no_options = str "1k" /\
  numify (of_Z 1005) no_options <> str "1.01k".
Proof.
  assert (Hs : sanitize (of_Z 1005) = of_Z 1005) by (vm_compute; reflexivity).
  split; [exact Hs|]. rewrite Hs.
  split; [vm_compute; reflexivity|].
  split; [vm_compute; reflexivity|].
  split.
  { split; [apply Qle_bool_iff|apply Qlt_alt]; vm_compute; reflexivity. }
  split; [vm_compute; reflexivity|].
  split.
  { split; [apply Qle_bool_iff|apply Qlt_alt]; vm_compute; reflexivity. }
  split; [vm_compute; reflexivity|].
  vm_compute. discriminate.
Qed.

(** ** How many separators *)

Lemma group_spec_length (sep ds : jsstring) :
  ds <> [] ->
  Z.of_nat (List.length (group_spec sep ds))
  = Z.of_nat (List.length ds)
    + Z.of_nat (List.length sep) * ((Z.of_nat (List.length ds) - 1) / 3).
Proof.
  induction ds as [|c r IH]; intros Hne; [congruence|].
  rewrite group_spec_cons.
  assert (Hlen : forall (a : ascii) l, Z.of_nat (List.length (a :: l))
                                       = 1 + Z.of_nat (List.length l))
    by (intros; cbn [List.length]; lia).
  rewrite !Hlen, length_app, Nat2Z.inj_add.
  set (L := Z.of_nat (List.length sep)).
  destruct r as [|d r'].
  - change (Z.of_nat (List.length (@nil ascii))) with 0.
    change (0 <? 0) with false. cbn [andb group_spec List.length].
    change (Z.of_nat 0) with 0. change ((1 + 0 - 1) / 3) with 0. lia.
  - specialize (IH ltac:(discriminate)). rewrite IH.
    set (j := Z.of_nat (List.length (d :: r'))) in *.
    assert (Hj : 1 <= j) by (unfold j; rewrite Hlen; lia).
    replace (0 <? j) with true by (symmetry; apply Z.ltb_lt; lia).
    cbn [andb]. replace (1 + j - 1) with j by lia.
    destruct (j mod 3 =? 0) eqn:E; rewrite ?Z.eqb_eq, ?Z.eqb_neq in E.
    + fold L. assert (j / 3 = (j - 1) / 3 + 1) by (Z.div_mod_to_equations; lia).
      nia.
    + change (Z.of_nat (List.length (@nil ascii))) with 0.
      assert (j / 3 = (j - 1) / 3) by (Z.div_mod_to_equations; lia).
      nia.
Qed.

Lemma Number_toString_nonempty (x : number) : Number_toString x <> [].
Proof.
  destruct x as [|s|s|s m e]; try discriminate; [destruct s; discriminate|].
  pose proof (shortest_digits_pos m e) as Hp.
  unfold Number_toString. destruct (shortest_digits m e) as [d n]. cbn [fst] in Hp.
  destruct (digits_of_spec d ltac:(lia)) as (Hd & _ & Hne & _).
  destruct (format_digits_head (digits_of d) n Hd Hne) as (c & r & Hf & _).
  rewrite Hf. destruct s; discriminate.
Qed.

(** X11.  For a number whose decimal string is [k] digits and nothing
    else (a non-negative integer below 1e21), [formatNumber] returns
    those digits grouped by threes from the right, with
    [(k - 1) / 3] separators: none up to three digits, one up to six,
    and so on. *)
Theorem formatNumber_separator_count (num : number) (options : FormatNumberOptions)
        (f : NumberFormat) :
  getFormat (Some (default (str "en") (fn_formatType options))) = Locale f ->
  all_digits (Number_toString num) ->
  let k := Z.of_nat (List.length (Number_toString num)) in
  formatNumber num options = group_spec (thousand f) (Number_toString num) /\
  Z.of_nat (List.length (formatNumber num options)) = k + (k - 1) / 3.
Proof.
  intros Hf Hd k.
  assert (Hfmt : formatNumber num options
                 = group_spec (thousand f) (Number_toString num)).
  { unfold formatNumber. cbv zeta.
    rewrite Hf, (split_no_dot _ (all_digits_no_dot _ Hd)).
    cbn [List.length]. change (1 <? Z.of_nat 1) with false. cbv iota. cbn [hd].
    cbn [format_thousand ToString_opt].
    apply insert_separators_digits; [reflexivity|exact Hd]. }
  split; [exact Hfmt|].
  rewrite Hfmt, (group_spec_length _ _ (Number_toString_nonempty num)).
  destruct (Locale_separators _ f Hf) as (_ & _ & c & -> & _).
  cbn [List.length]. fold k. lia.
Qed.

Lemma formatNumber_separator_count_witness :
  all_digits (Number_toString (of_Z 1234567)) /\
  formatNumber (of_Z 1234567) {| fn_formatType := None |} = str "1,234,567" /\
  Z.of_nat (List.length (formatNumber (of_Z 1234567) {| fn_formatType := None |}))
  = 7 + (7 - 1) / 3.
Proof.
  assert (H : all_digits (Number_toString (of_Z 1234567))) by (vm_compute; reflexivity).
  split; [exact H|]. split; [vm_compute; reflexivity|].
  pose proof (proj2 (formatNumber_separator_count (of_Z 1234567)
                       {| fn_formatType := None |}
                       {| decimal := "."; thousand := ","; system := international |}
                       eq_refl H)) as Hn.
  assert (Hk : Z.of_nat (List.length (Number_toString (of_Z 1234567))) = 7)
    by (vm_compute; reflexivity).
  rewrite Hk in Hn. exact Hn.
Defined.

(** ** Exponent notation *)

(** X12.  When the decimal string of the input is in exponent notation,
    a significand [M], the mark [e], a sign and the exponent's digits
    [E], sanitizing drops the mark and the sign and reads the digits of
    [E] as further digits of [M]: [numify(1e21)] is ["121"]. *)
Theorem sanitize_exponent_notation (num : number) (sign M E : jsstring) (sg : ascii) :
  Number_toString num = sign ++ M ++ "e"%char :: sg :: E ->
  sign = [] \/ sign = ["-"%char] -> sg = "+"%char \/ sg = "-"%char ->
  forallb (fun c => is_digit c || Ascii.eqb c ".") M = true -> all_digits E ->
  strip_non_numeric (Number_toString num) = M ++ E /\
  sanitize num = StringToNumber (M ++ E).
Proof.
  intros Hs Hsign Hsg HM HE.
  assert (H : strip_non_numeric (Number_toString num) = M ++ E).
  { rewrite Hs, !strip_non_numeric_app.
    assert (H1 : strip_non_numeric sign = [])
      by (destruct Hsign as [->| ->]; reflexivity).
    assert (H2 : strip_non_numeric M = M).
    { unfold strip_non_numeric. apply filter_all.
      rewrite forallb_forall in *. intros c Hc. unfold is_stripped.
      rewrite negb_involutive. now apply HM. }
    assert (H3 : strip_non_numeric ("e"%char :: sg :: E) = E).
    { change ("e"%char :: sg :: E) with (["e"%char; sg] ++ E).
      rewrite strip_non_numeric_app, (strip_non_numeric_digits E HE).
      destruct Hsg as [->| ->]; reflexivity. }
    rewrite H1, H2, H3. reflexivity. }
  split; [exact H|]. unfold sanitize. now rewrite H.
Qed.

Lemma sanitize_exponent_notation_witness :
  Number_toString (of_Z (10 ^ 21)) = [] ++ str "1" ++ "e"%char :: "+"%char :: str "21" /\
  sanitize (of_Z (10 ^ 21)) = StringToNumber (str "121") /\
  numify (of_Z (10 ^ 21)) no_options = str "121".
Proof.
  assert (H : Number_toString (of_Z (10 ^ 21))
              = [] ++ str "1" ++ "e"%char :: "+"%char :: str "21")
    by (vm_compute; reflexivity).
  split; [exact H|]. split.
  - exact (proj2 (sanitize_exponent_notation (of_Z (10 ^ 21)) [] (str "1") (str "21")
                    "+"%char H (or_introl eq_refl) (or_introl eq_refl)
                    eq_refl eq_refl)).
  - vm_compute. reflexivity.
Defined.
